(** * Key-Management-System: envelope encryption and master-key lifecycle

    A shallow embedding of the vault (master-key-server), the key server
    and the master-key manager of the repository, with the properties of
    its envelope-encryption core.

    Modelling conventions.
    - A Node [Buffer] is a [list byte].
    - [crypto.createCipheriv('aes-256-cbc', key, iv)] is AES-256 (FIPS-197)
      in CBC mode with OpenSSL's automatic PKCS#7 padding, written out
      below; the block cipher is the real one, so every concrete value in
      this file is the value the program computes.
    - A JavaScript string is the [string] of its UTF-8 bytes;
      [buf.toString()], which reads bytes as UTF-8 text, and [s.length],
      which counts UTF-16 code units, are written out in [NodeStrings].
    - [buf.toString('base64')] followed by [Buffer.from(_, 'base64')] is the
      identity on buffers: a base64 TEXT column is represented by the bytes
      it carries, and a base64 field of a request by whether its text is
      empty and the bytes it carries.  Hex text is modelled as text.
    - A handler is a function of the fields of the parsed body, which are
      text where present; what [express.json()] answers before a handler
      runs is not part of it.
    - [crypto.randomBytes] and [new Date()] are explicit inputs.
    - A thrown exception / rejected promise is the [Throw] result. *)

From Stdlib Require Import List ZArith Lia Bool Btauto.
From Stdlib Require Import Strings.Byte Strings.Ascii Strings.String.
From Stdlib Require Import Sorted DecimalString DecimalZ DecimalPos.
From stdpp Require Import gmap strings list.

Abbreviation bytes := (list byte).

(** ** Arithmetic of GF(2^8), the byte field of AES *)

Module GF256.

Definition bits8 : Type :=
  bool * (bool * (bool * (bool * (bool * (bool * (bool * bool)))))).

Definition xor_bits (p q : bits8) : bits8 :=
  let '(a0,(a1,(a2,(a3,(a4,(a5,(a6,a7))))))) := p in
  let '(b0,(b1,(b2,(b3,(b4,(b5,(b6,b7))))))) := q in
  (xorb a0 b0,(xorb a1 b1,(xorb a2 b2,(xorb a3 b3,
  (xorb a4 b4,(xorb a5 b5,(xorb a6 b6,xorb a7 b7))))))).

(** Multiplication by [x] modulo [x^8 + x^4 + x^3 + x + 1]. *)
Definition xtime_bits (p : bits8) : bits8 :=
  let '(a0,(a1,(a2,(a3,(a4,(a5,(a6,a7))))))) := p in
  (a7,(xorb a0 a7,(a1,(xorb a2 a7,(xorb a3 a7,(a4,(a5,a6))))))).

Definition zero_bits : bits8 :=
  (false,(false,(false,(false,(false,(false,(false,false))))))).

Definition sel_bits (b : bool) (p : bits8) : bits8 :=
  let '(a0,(a1,(a2,(a3,(a4,(a5,(a6,a7))))))) := p in
  (b && a0,(b && a1,(b && a2,(b && a3,(b && a4,(b && a5,(b && a6,b && a7))))))).

(** Field multiplication, by the bits of the first factor. *)
Definition gmul_bits (c x : bits8) : bits8 :=
  let '(c0,(c1,(c2,(c3,(c4,(c5,(c6,c7))))))) := c in
  let x1 := xtime_bits x in
  let x2 := xtime_bits x1 in
  let x3 := xtime_bits x2 in
  let x4 := xtime_bits x3 in
  let x5 := xtime_bits x4 in
  let x6 := xtime_bits x5 in
  let x7 := xtime_bits x6 in
  xor_bits (sel_bits c0 x) (xor_bits (sel_bits c1 x1) (xor_bits (sel_bits c2 x2)
  (xor_bits (sel_bits c3 x3) (xor_bits (sel_bits c4 x4) (xor_bits (sel_bits c5 x5)
  (xor_bits (sel_bits c6 x6) (sel_bits c7 x7))))))).

(** Bitwise exclusive or of two bytes ([a ^ b]). *)
Definition bxor (a b : byte) : byte :=
  Byte.of_bits (xor_bits (Byte.to_bits a) (Byte.to_bits b)).

Definition xtime (a : byte) : byte :=
  Byte.of_bits (xtime_bits (Byte.to_bits a)).

Definition gmul (c x : byte) : byte :=
  Byte.of_bits (gmul_bits (Byte.to_bits c) (Byte.to_bits x)).

Definition gsquare (x : byte) : byte := gmul x x.

(** Multiplicative inverse, [x^254], with [ginv 0 = 0]. *)
Definition ginv (x : byte) : byte :=
  let x2 := gsquare x in
  let x4 := gsquare x2 in
  let x8 := gsquare x4 in
  let x16 := gsquare x8 in
  let x32 := gsquare x16 in
  let x64 := gsquare x32 in
  let x128 := gsquare x64 in
  gmul x128 (gmul x64 (gmul x32 (gmul x16 (gmul x8 (gmul x4 x2))))).

(** The affine map of the S-box: [b_i + b_(i+4) + b_(i+5) + b_(i+6) +
    b_(i+7) + c_i] with [c = 0x63]. *)
Definition affine (a : byte) : byte :=
  let '(a0,(a1,(a2,(a3,(a4,(a5,(a6,a7))))))) := Byte.to_bits a in
  let x5 (p q r s t : bool) := xorb p (xorb q (xorb r (xorb s t))) in
  Byte.of_bits (negb (x5 a0 a4 a5 a6 a7),(negb (x5 a1 a5 a6 a7 a0),
               (x5 a2 a6 a7 a0 a1,(x5 a3 a7 a0 a1 a2,
               (x5 a4 a0 a1 a2 a3,(negb (x5 a5 a1 a2 a3 a4),
               (negb (x5 a6 a2 a3 a4 a5),x5 a7 a3 a4 a5 a6))))))).

Definition byte_of_nat (n : nat) : byte :=
  match Byte.of_nat n with Some b => b | None => x00 end.

Definition all_bytes : bytes := map byte_of_nat (seq 0 256).

Definition sbox_table : bytes :=
  Eval vm_compute in map (fun b => affine (ginv b)) all_bytes.

Definition find_preimage (f : byte -> byte) (y : byte) : byte :=
  match List.find (fun x => Byte.eqb (f x) y) all_bytes with
  | Some x => x
  | None => x00
  end.

Definition inv_sbox_table : bytes :=
  Eval vm_compute in
    map (find_preimage (fun x => nth (Byte.to_nat x) sbox_table x00)) all_bytes.

Definition sbox (b : byte) : byte := nth (Byte.to_nat b) sbox_table x00.
Definition inv_sbox (b : byte) : byte := nth (Byte.to_nat b) inv_sbox_table x00.

End GF256.

(** ** AES-256 on one 16-byte block (FIPS-197) *)

Module AES.
Import GF256.

(** A column of the state, and the state as its four columns; byte [r] of
    column [c] is input byte [r + 4c]. *)
Definition word : Type := byte * byte * byte * byte.
Definition state : Type := word * word * word * word.

Definition word_map (f : byte -> byte) (w : word) : word :=
  let '(a, b, c, d) := w in (f a, f b, f c, f d).

Definition word_xor (v w : word) : word :=
  let '(a, b, c, d) := v in
  let '(a', b', c', d') := w in
  (bxor a a', bxor b b', bxor c c', bxor d d').

Definition state_map (f : word -> word) (s : state) : state :=
  let '(a, b, c, d) := s in (f a, f b, f c, f d).

Definition add_round_key (k s : state) : state :=
  let '(a, b, c, d) := s in
  let '(ka, kb, kc, kd) := k in
  (word_xor a ka, word_xor b kb, word_xor c kc, word_xor d kd).

Definition sub_bytes : state -> state := state_map (word_map sbox).
Definition inv_sub_bytes : state -> state := state_map (word_map inv_sbox).

Definition shift_rows (s : state) : state :=
  let '((a0, a1, a2, a3), (b0, b1, b2, b3),
        (c0, c1, c2, c3), (d0, d1, d2, d3)) := s in
  ((a0, b1, c2, d3), (b0, c1, d2, a3), (c0, d1, a2, b3), (d0, a1, b2, c3)).

Definition inv_shift_rows (s : state) : state :=
  let '((a0, a1, a2, a3), (b0, b1, b2, b3),
        (c0, c1, c2, c3), (d0, d1, d2, d3)) := s in
  ((a0, d1, c2, b3), (b0, a1, d2, c3), (c0, b1, a2, d3), (d0, c1, b2, a3)).

Definition xor4 (a b c d : byte) : byte := bxor a (bxor b (bxor c d)).

Definition mix_column (w : word) : word :=
  let '(s0, s1, s2, s3) := w in
  (xor4 (gmul x02 s0) (gmul x03 s1) s2 s3,
   xor4 s0 (gmul x02 s1) (gmul x03 s2) s3,
   xor4 s0 s1 (gmul x02 s2) (gmul x03 s3),
   xor4 (gmul x03 s0) s1 s2 (gmul x02 s3)).

Definition inv_mix_column (w : word) : word :=
  let '(s0, s1, s2, s3) := w in
  (xor4 (gmul x0e s0) (gmul x0b s1) (gmul x0d s2) (gmul x09 s3),
   xor4 (gmul x09 s0) (gmul x0e s1) (gmul x0b s2) (gmul x0d s3),
   xor4 (gmul x0d s0) (gmul x09 s1) (gmul x0e s2) (gmul x0b s3),
   xor4 (gmul x0b s0) (gmul x0d s1) (gmul x09 s2) (gmul x0e s3)).

Definition mix_columns : state -> state := state_map mix_column.
Definition inv_mix_columns : state -> state := state_map inv_mix_column.

(** *** Key expansion for a 256-bit key: eight words at a time *)

Definition rot_word (w : word) : word :=
  let '(a, b, c, d) := w in (b, c, d, a).

Definition sub_word : word -> word := word_map sbox.

Definition key256 : Type := state * state.

Definition next_key (rcon : byte) (k : key256) : key256 :=
  let '((w0, w1, w2, w3), (w4, w5, w6, w7)) := k in
  let n0 := word_xor w0 (word_xor (sub_word (rot_word w7)) (rcon, x00, x00, x00)) in
  let n1 := word_xor w1 n0 in
  let n2 := word_xor w2 n1 in
  let n3 := word_xor w3 n2 in
  let n4 := word_xor w4 (sub_word n3) in
  let n5 := word_xor w5 n4 in
  let n6 := word_xor w6 n5 in
  let n7 := word_xor w7 n6 in
  ((n0, n1, n2, n3), (n4, n5, n6, n7)).

Definition rcons : bytes := [x01; x02; x04; x08; x10; x20; x40].

Fixpoint expand (rcs : bytes) (k : key256) : list state :=
  match rcs with
  | [] => []
  | rc :: rcs' => let k' := next_key rc k in fst k' :: snd k' :: expand rcs' k'
  end.

(** The fifteen round keys of AES-256. *)
Definition key_expansion (k : key256) : list state :=
  firstn 15 (fst k :: snd k :: expand rcons k).

(** *** Cipher and inverse cipher *)

Fixpoint enc_rounds (s : state) (ks : list state) : state :=
  match ks with
  | [] => s
  | k :: ks' =>
      match ks' with
      | [] => add_round_key k (shift_rows (sub_bytes s))
      | _ => enc_rounds (add_round_key k (mix_columns (shift_rows (sub_bytes s)))) ks'
      end
  end.

Definition cipher (rks : list state) (s : state) : state :=
  match rks with
  | [] => s
  | k0 :: ks => enc_rounds (add_round_key k0 s) ks
  end.

Fixpoint dec_rounds (s : state) (ks : list state) : state :=
  match ks with
  | [] => s
  | k :: ks' =>
      match ks' with
      | [] => inv_sub_bytes (inv_shift_rows (add_round_key k s))
      | _ => inv_sub_bytes (inv_shift_rows (inv_mix_columns
               (add_round_key k (dec_rounds s ks'))))
      end
  end.

Definition inv_cipher (rks : list state) (s : state) : state :=
  match rks with
  | [] => s
  | k0 :: ks => add_round_key k0 (dec_rounds s ks)
  end.

(** *** Blocks as byte lists *)

Definition word_of_list (l : bytes) : word :=
  (nth 0 l x00, nth 1 l x00, nth 2 l x00, nth 3 l x00).

Definition list_of_word (w : word) : bytes :=
  let '(a, b, c, d) := w in [a; b; c; d].

Definition state_of_list (l : bytes) : state :=
  (word_of_list l, word_of_list (skipn 4 l),
   word_of_list (skipn 8 l), word_of_list (skipn 12 l)).

Definition list_of_state (s : state) : bytes :=
  let '(a, b, c, d) := s in
  list_of_word a ++ list_of_word b ++ list_of_word c ++ list_of_word d.

Definition key_of_list (l : bytes) : key256 :=
  (state_of_list l, state_of_list (skipn 16 l)).

Definition xor_state : state -> state -> state := add_round_key.

#[global] Arguments key_expansion : simpl never.
#[global] Arguments cipher : simpl never.
#[global] Arguments inv_cipher : simpl never.

End AES.

(** ** Node's [Buffer] and [crypto] as the services use them *)

Module Node.
Import GF256 AES.

Inductive js_error : Type :=
| ERR_CRYPTO_INVALID_IV
| ERR_CRYPTO_INVALID_KEYLEN
| ERR_OSSL_WRONG_FINAL_BLOCK_LENGTH
| ERR_OSSL_BAD_DECRYPT
| TypeError (msg : string)
| Error (msg : string)
| SqlError (code : string).

(** The outcome of a call that may throw (or of an awaited promise). *)
Inductive result (A : Type) : Type :=
| Ok (a : A)
| Throw (e : js_error).
Arguments Ok {A} a.
Arguments Throw {A} e.

#[export] Instance result_ret : MRet result := fun A a => Ok a.
#[export] Instance result_bind : MBind result := fun A B f r =>
  match r with
  | Ok a => f a
  | Throw e => Throw e
  end.

#[export] Instance result_fmap : FMap result := fun A B f r =>
  match r with
  | Ok a => Ok (f a)
  | Throw e => Throw e
  end.

(** [crypto.randomBytes(n)]: [n] bytes drawn from the entropy handed in. *)
Definition randomBytes (n : nat) (entropy : bytes) : bytes :=
  take n (entropy ++ replicate n x00).

(** [buf[i]]: [undefined] ([None]) outside the buffer. *)
Definition buf_index (buf : bytes) (i : Z) : option byte :=
  if (i <? 0)%Z then None else buf !! Z.to_nat i.

(** A relative index of [slice], clamped into the buffer. *)
Definition slice_index (len : nat) (i : Z) : nat :=
  if (i <? 0)%Z then Z.to_nat (Z.max 0 (Z.of_nat len + i))
  else Nat.min len (Z.to_nat i).

(** [buf.slice(start, end)] and [buf.slice(start)]. *)
Definition slice (buf : bytes) (start end_ : Z) : bytes :=
  let s := slice_index (length buf) start in
  let e := slice_index (length buf) end_ in
  take (e - s) (drop s buf).

Definition slice_from (buf : bytes) (start : Z) : bytes :=
  drop (slice_index (length buf) start) buf.

(** *** Hex text: [buf.toString('hex')] and [Buffer.from(s, 'hex')] *)

Definition hex_digit (n : nat) : ascii :=
  nth n (list_ascii_of_string "0123456789abcdef") "0"%char.

Definition hex_value (c : ascii) : option nat :=
  let n := nat_of_ascii c in
  if (48 <=? n) && (n <=? 57) then Some (n - 48)
  else if (97 <=? n) && (n <=? 102) then Some (n - 87)
  else if (65 <=? n) && (n <=? 70) then Some (n - 55)
  else None.

Fixpoint toString_hex (buf : bytes) : string :=
  match buf with
  | [] => EmptyString
  | b :: buf' =>
      String (hex_digit (Byte.to_nat b / 16))
        (String (hex_digit (Byte.to_nat b mod 16)) (toString_hex buf'))
  end.

(** Decoding stops at the first pair that is not two hex digits. *)
Fixpoint from_hex (s : string) : bytes :=
  match s with
  | String h (String l s') =>
      match hex_value h, hex_value l with
      | Some hv, Some lv => byte_of_nat (16 * hv + lv) :: from_hex s'
      | _, _ => []
      end
  | _ => []
  end.

(** *** AES-256-CBC as OpenSSL's EVP layer runs it *)

Fixpoint cbc_encrypt_blocks (n : nat) (rks : list state) (prev : state)
    (data : bytes) : bytes :=
  match n with
  | 0 => []
  | S n' =>
      let c := cipher rks (xor_state prev (state_of_list (take 16 data))) in
      list_of_state c ++ cbc_encrypt_blocks n' rks c (drop 16 data)
  end.

Fixpoint cbc_decrypt_blocks (n : nat) (rks : list state) (prev : state)
    (ct : bytes) : bytes :=
  match n with
  | 0 => []
  | S n' =>
      let c := state_of_list (take 16 ct) in
      list_of_state (xor_state prev (inv_cipher rks c))
        ++ cbc_decrypt_blocks n' rks c (drop 16 ct)
  end.

(** Automatic padding: always added, a full block when the data is
    block-aligned. *)
Definition evp_pad (data : bytes) : bytes :=
  let n := 16 - length data mod 16 in
  data ++ replicate n (byte_of_nat n).

(** Removal checks the count and every padding byte. *)
Definition evp_unpad (p : bytes) : result bytes :=
  match last p with
  | None => Throw ERR_OSSL_WRONG_FINAL_BLOCK_LENGTH
  | Some b =>
      let n := Byte.to_nat b in
      if (n =? 0) || (16 <? n) then Throw ERR_OSSL_BAD_DECRYPT
      else if forallb (Byte.eqb b) (drop (length p - n) p)
           then Ok (take (length p - n) p)
           else Throw ERR_OSSL_BAD_DECRYPT
  end.

(** [createCipheriv('aes-256-cbc', key, iv)] / [createDecipheriv]: the
    argument checks. *)
Definition check_key_iv (key iv : bytes) : result unit :=
  if negb (length iv =? 16) then Throw ERR_CRYPTO_INVALID_IV
  else if negb (length key =? 32) then Throw ERR_CRYPTO_INVALID_KEYLEN
  else Ok tt.

(** [c = createCipheriv(..); Buffer.concat([c.update(data), c.final()])]. *)
Definition aes256cbc_encrypt (key iv data : bytes) : result bytes :=
  _ ← check_key_iv key iv;
  let padded := evp_pad data in
  Ok (cbc_encrypt_blocks (length padded / 16) (key_expansion (key_of_list key))
        (state_of_list iv) padded).

(** [d = createDecipheriv(..); Buffer.concat([d.update(ct), d.final()])]. *)
Definition aes256cbc_decrypt (key iv ct : bytes) : result bytes :=
  _ ← check_key_iv key iv;
  if (length ct =? 0) || negb (length ct mod 16 =? 0)
  then Throw ERR_OSSL_WRONG_FINAL_BLOCK_LENGTH
  else evp_unpad (cbc_decrypt_blocks (length ct / 16)
                    (key_expansion (key_of_list key)) (state_of_list iv) ct).

#[global] Arguments aes256cbc_encrypt : simpl never.
#[global] Arguments aes256cbc_decrypt : simpl never.
#[global] Arguments slice : simpl never.
#[global] Arguments slice_from : simpl never.

End Node.

(** ** Text: [buf.toString()], [s.length] and base64 fields

    A JavaScript string is represented by its UTF-8 encoding, so
    [Buffer.from(s)] is [list_byte_of_string s]. *)

Module NodeStrings.

(** U+FFFD, the replacement character. *)
Definition replacement : bytes := [xef; xbf; xbd].

Definition in_range (lo hi : nat) (b : byte) : bool :=
  (lo <=? Byte.to_nat b) && (Byte.to_nat b <=? hi).

(** The number of bytes of the sequence a lead byte opens; 0 for a byte
    that opens none. *)
Definition sequence_length (lead : byte) : nat :=
  if in_range 0x00 0x7f lead then 1
  else if in_range 0xc2 0xdf lead then 2
  else if in_range 0xe0 0xef lead then 3
  else if in_range 0xf0 0xf4 lead then 4
  else 0.

(** The range of the second byte of a sequence. *)
Definition second_lo (lead : byte) : nat :=
  if Byte.eqb lead xe0 then 0xa0 else if Byte.eqb lead xf0 then 0x90 else 0x80.

Definition second_hi (lead : byte) : nat :=
  if Byte.eqb lead xed then 0x9f else if Byte.eqb lead xf4 then 0x8f else 0xbf.

Definition second (lead : byte) : byte -> bool :=
  in_range (second_lo lead) (second_hi lead).

Definition continuation : byte -> bool := in_range 0x80 0xbf.

(** The characters a buffer reads as, each by its UTF-8 bytes: a
    well-formed sequence is one character; a byte that opens no sequence,
    and a sequence broken off by a byte out of range or by the end of the
    buffer, read as U+FFFD, and reading goes on at the byte that broke
    the sequence. *)
Fixpoint utf8_chars (buf : bytes) : list bytes :=
  match buf with
  | [] => []
  | b0 :: r0 =>
      match sequence_length b0 with
      | 1 => [b0] :: utf8_chars r0
      | 2 =>
          match r0 with
          | [] => [replacement]
          | b1 :: r1 =>
              if second b0 b1 then [b0; b1] :: utf8_chars r1
              else replacement :: utf8_chars r0
          end
      | 3 =>
          match r0 with
          | [] => [replacement]
          | b1 :: r1 =>
              if second b0 b1 then
                match r1 with
                | [] => [replacement]
                | b2 :: r2 =>
                    if continuation b2 then [b0; b1; b2] :: utf8_chars r2
                    else replacement :: utf8_chars r1
                end
              else replacement :: utf8_chars r0
          end
      | 4 =>
          match r0 with
          | [] => [replacement]
          | b1 :: r1 =>
              if second b0 b1 then
                match r1 with
                | [] => [replacement]
                | b2 :: r2 =>
                    if continuation b2 then
                      match r2 with
                      | [] => [replacement]
                      | b3 :: r3 =>
                          if continuation b3 then [b0; b1; b2; b3] :: utf8_chars r3
                          else replacement :: utf8_chars r2
                      end
                    else replacement :: utf8_chars r1
                end
              else replacement :: utf8_chars r0
          end
      | _ => replacement :: utf8_chars r0
      end
  end.

(** [buf.toString()], the buffer read as UTF-8 text. *)
Definition toString_utf8 (buf : bytes) : string :=
  string_of_list_byte (concat (utf8_chars buf)).

(** The UTF-16 code units of a character: two for a sequence of four
    bytes, one for every other. *)
Definition code_units (c : bytes) : nat := if length c =? 4 then 2 else 1.

(** [s.length]. *)
Definition utf16_length (s : string) : nat :=
  list_sum (map code_units (utf8_chars (list_byte_of_string s))).

(** Text that is the encoding of a string: read back it is itself. *)
Definition utf8_text (s : string) : Prop :=
  toString_utf8 (list_byte_of_string s) = s.

Definition ascii_text (s : string) : bool :=
  forallb (in_range 0x00 0x7f) (list_byte_of_string s).

(** A JSON field that holds base64 text, by what a handler reads of it:
    whether the text is the empty string, and the bytes
    [Buffer.from(_, 'base64')] decodes from it.  A text that is not
    empty can carry no bytes (['=']). *)
Inductive base64_text : Type :=
| EmptyText
| Base64 (carried : bytes).

(** [Buffer.from(text, 'base64')]. *)
Definition from_base64 (text : base64_text) : bytes :=
  match text with
  | EmptyText => []
  | Base64 carried => carried
  end.

(** [buf.toString('base64')]: the empty string for the empty buffer
    only. *)
Definition to_base64 (buf : bytes) : base64_text :=
  match buf with
  | [] => EmptyText
  | _ :: _ => Base64 buf
  end.

End NodeStrings.

(** ** The MySQL database [kms] shared by the services *)

Module Db.
Import Node.

Inductive key_status : Type := active | retired.

#[export] Instance key_status_eq_dec : EqDecision key_status.
Proof. solve_decision. Defined.

(** A row of [master_keys]; the list of rows is kept in primary-key
    ([id AUTO_INCREMENT]) order, the order an unordered scan returns. *)
Record master_key_row : Type := MasterKeyRow {
  mk_key_id : string;
  mk_key_material : bytes;
  mk_created_at : Z;
  mk_status : key_status;
  mk_description : option string
}.

Inductive sqlval : Type :=
| SqlNull
| SqlText (s : string)
| SqlInt (z : Z).

#[export] Instance sqlval_eq_dec : EqDecision sqlval.
Proof. solve_decision. Defined.

(** A row of [kms_keys].  The key server creates the table with the four
    columns [user_id], [encrypted_key], [encrypted_dek], [created_at];
    [CREATE TABLE IF NOT EXISTS] keeps a table that is already there, so a
    table may carry further columns, kept in [kr_extra]. *)
Record kms_row : Type := KmsRow {
  kr_user_id : string;
  kr_encrypted_key : option bytes;
  kr_encrypted_dek : option bytes;
  kr_created_at : option Z;
  kr_extra : gmap string sqlval
}.

Record kms_table : Type := KmsTable {
  kt_extra_columns : list string;
  kt_rows : list kms_row
}.

Record db : Type := Database {
  master_keys : list master_key_row;
  kms_keys : kms_table
}.

(** The table as [CREATE TABLE IF NOT EXISTS kms_keys (...)] of the key
    server makes it. *)
Definition kms_keys_created : kms_table := KmsTable [] [].

Definition set_master_keys (d : db) (t : list master_key_row) : db :=
  Database t (kms_keys d).

Definition set_kms_keys (d : db) (t : kms_table) : db :=
  Database (master_keys d) t.

End Db.

(** ** master_key_manager.js *)

Module MasterKeyManager.
Import Node Db.

Section RootKey.

(** [ROOT_KEY = sha256(process.env.ROOT_KEY || 'caratlane@321')]. *)
Variable ROOT_KEY : bytes.

Definition encryptKey (keyBuf : bytes) (entropy : bytes) : result bytes :=
  let iv := randomBytes 16 entropy in
  encrypted ← aes256cbc_encrypt ROOT_KEY iv keyBuf;
  Ok (iv ++ encrypted).

Definition decryptKey (encryptedB64 : bytes) : result bytes :=
  let buf := encryptedB64 in
  let iv := slice buf 0 16 in
  let encrypted := slice_from buf 16 in
  aes256cbc_decrypt ROOT_KEY iv encrypted.

(** [INSERT INTO master_keys (key_id, key_material, created_at, status)
    VALUES (?, ?, ?, 'active')]; [key_id] is [VARCHAR(64) UNIQUE], and in
    the strict SQL mode of MySQL 8 a longer value is rejected.  Key ids are
    compared as the byte strings they are (a binary collation). *)
Definition insert_active (t : list master_key_row) (keyId : string)
    (encrypted : bytes) (now : Z) : result (list master_key_row) :=
  if 64 <? String.length keyId then Throw (SqlError "ER_DATA_TOO_LONG")
  else if existsb (fun r => String.eqb (mk_key_id r) keyId) t
  then Throw (SqlError "ER_DUP_ENTRY")
  else Ok (t ++ [MasterKeyRow keyId encrypted now active None]).

(** [UPDATE master_keys SET status = 'retired'
    WHERE key_id != ? AND status = 'active']. *)
Definition retire_others (t : list master_key_row) (keyId : string)
    : list master_key_row :=
  map (fun r =>
         if negb (String.eqb (mk_key_id r) keyId) && bool_decide (mk_status r = active)
         then MasterKeyRow (mk_key_id r) (mk_key_material r) (mk_created_at r)
                retired (mk_description r)
         else r) t.

Definition addMasterKey (keyId hexKey : string) (now : Z) (entropy : bytes)
    (d : db) : result db :=
  let keyBuf := from_hex hexKey in
  encrypted ← encryptKey keyBuf entropy;
  t ← insert_active (master_keys d) keyId encrypted now;
  Ok (set_master_keys d (retire_others t keyId)).

(** [... WHERE status = 'active' ORDER BY created_at DESC LIMIT 1]. *)
Definition newest (best : option master_key_row) (r : master_key_row)
    : option master_key_row :=
  match best with
  | None => Some r
  | Some b => if (mk_created_at b <? mk_created_at r)%Z then Some r else Some b
  end.

Definition select_active_newest (t : list master_key_row) : option master_key_row :=
  foldl newest None (filter (fun r => mk_status r = active) t).

Record master_key : Type := MasterKey {
  keyId : string;
  keyMaterial : bytes
}.

Definition getActiveMasterKey (d : db) : result master_key :=
  match select_active_newest (master_keys d) with
  | None => Throw (Error "No active master key")
  | Some r =>
      material ← decryptKey (mk_key_material r);
      Ok (MasterKey (mk_key_id r) material)
  end.

(** [rows.map(row => ({ keyId, keyMaterial: decryptKey(..) }))]. *)
Fixpoint unwrap_rows (rows : list master_key_row) : result (list master_key) :=
  match rows with
  | [] => Ok []
  | r :: rows' =>
      material ← decryptKey (mk_key_material r);
      rest ← unwrap_rows rows';
      Ok (MasterKey (mk_key_id r) material :: rest)
  end.

(** [SELECT key_id, key_material FROM master_keys WHERE status = 'retired']:
    no [ORDER BY]. *)
Definition select_retired (t : list master_key_row) : list master_key_row :=
  filter (fun r => mk_status r = retired) t.

Definition getRetiredMasterKeys (d : db) : result (list master_key) :=
  unwrap_rows (select_retired (master_keys d)).

End RootKey.

End MasterKeyManager.

(** ** auth/index.js, as its callers see it through axios *)

Module Auth.
Import Node.

(** The decoded token; only the [id] claim is read by the services. *)
Record jwt_payload : Type := JwtPayload { jwt_id : option string }.

(** Body of a 2xx reply of [POST /verify]. *)
Record verify_data : Type := VerifyData {
  valid : bool;
  payload : jwt_payload
}.

(** JavaScript truthiness of an optional string. *)
Definition truthy (s : option string) : bool :=
  match s with
  | Some (String _ _) => true
  | _ => false
  end.

Section Jwt.

(** [jwt.verify(token, JWT_SECRET)]; [None] when it throws. *)
Variable jwt_verify : string -> option jwt_payload.
(** [jwt.sign(payload, JWT_SECRET, ...)]. *)
Variable jwt_sign : jwt_payload -> string.

(** [axios.post('.../verify', { token })]: resolves on 200, rejects on the
    400 and 401 replies. *)
Definition post_verify (token : option string) : result verify_data :=
  if negb (truthy token) then Throw (Error "Request failed with status code 400")
  else match jwt_verify (default EmptyString token) with
       | Some decoded => Ok (VerifyData true decoded)
       | None => Throw (Error "Request failed with status code 401")
       end.

(** [axios.post('.../issue', payload)]: the token of the reply. *)
Definition post_issue (p : jwt_payload) : string := jwt_sign p.

End Jwt.

End Auth.

(** ** master-key-server/index.js: the vault *)

Module Vault.
Import GF256 Node NodeStrings Db MasterKeyManager Auth.

Inductive response : Type :=
| Status (code : nat) (error : string)
| EncryptOk (encrypted_key encrypted_dek : bytes)
| DekOk (dek : string)
| DataOk (data : string)
| Stored (access_token : string).

(** Truthiness of a base64 field: false when the field is absent or the
    empty string, whatever bytes a text that is not empty carries. *)
Definition truthy_buf (field : option base64_text) : bool :=
  match field with
  | Some (Base64 _) => true
  | _ => false
  end.

Definition pkcs7Pad (buf : bytes) : bytes :=
  let padLen := 16 - (length buf mod 16) in
  let padding := replicate padLen (byte_of_nat padLen) in
  buf ++ padding.

(** [-padLen] as [slice] reads it; [-undefined] is [NaN], read as 0. *)
Definition neg_index (padLen : option byte) : Z :=
  match padLen with
  | Some b => (- Z.of_nat (Byte.to_nat b))%Z
  | None => 0%Z
  end.

Definition pkcs7Unpad (buf : bytes) : bytes :=
  let padLen := buf_index buf (Z.of_nat (length buf) - 1) in
  slice buf 0 (neg_index padLen).

(** Remove the first occurrence of [pat]: [s.replace(pat, '')]. *)
Fixpoint strip_prefix (pat s : string) : option string :=
  match pat, s with
  | EmptyString, _ => Some s
  | String p pat', String c s' =>
      if Ascii.eqb p c then strip_prefix pat' s' else None
  | String _ _, EmptyString => None
  end.

Fixpoint remove_first (pat s : string) : string :=
  match strip_prefix pat s with
  | Some rest => rest
  | None =>
      match s with
      | EmptyString => EmptyString
      | String c s' => String c (remove_first pat s')
      end
  end.

(** [req.headers['authorization']?.replace('Bearer ', '')]. *)
Definition bearer_token (authorization : option string) : option string :=
  remove_first "Bearer " <$> authorization.

(** Lines 41-44 of [POST /api/encrypt]: the payload under the DEK. *)
Definition encrypt_payload (dekBuf plainData entropy : bytes) : result bytes :=
  let iv := randomBytes 16 entropy in
  c ← aes256cbc_encrypt dekBuf iv (pkcs7Pad plainData);
  Ok (iv ++ c).

(** Lines 47-50: the DEK under the master key. *)
Definition wrap_dek (masterKey dekBuf entropy2 : bytes) : result bytes :=
  let iv2 := randomBytes 16 entropy2 in
  c2 ← aes256cbc_encrypt masterKey iv2 (pkcs7Pad dekBuf);
  Ok (iv2 ++ c2).

(** Lines 81-86 of [POST /api/decrypt-dek]: the DEK back from its blob. *)
Definition unwrap_dek (masterKey encryptedDek : bytes) : result bytes :=
  let iv := slice encryptedDek 0 16 in
  let ciphertext := slice_from encryptedDek 16 in
  paddedDek ← aes256cbc_decrypt masterKey iv ciphertext;
  Ok (pkcs7Unpad paddedDek).

Section Service.

Variable ROOT_KEY : bytes.
Variable jwt_verify : string -> option jwt_payload.

(** The body of the [try] of [POST /api/encrypt]. *)
Definition encrypt_body (d : db) (plainData : bytes) (dek : string)
    (entropy entropy2 : bytes) : result (bytes * bytes) :=
  mk ← getActiveMasterKey ROOT_KEY d;
  let masterKey := keyMaterial mk in
  if negb (length masterKey =? 32) then Throw (Error "Invalid master key length")
  else
    let dekBuf := from_hex dek in
    if negb (length dekBuf =? 32) then Throw (Error "Invalid DEK length")
    else
      encryptedKey ← encrypt_payload dekBuf plainData entropy;
      encryptedDek ← wrap_dek masterKey dekBuf entropy2;
      Ok (encryptedKey, encryptedDek).

Definition encrypt (d : db) (base64Data : option base64_text)
    (dek : option string) (entropy entropy2 : bytes) : response :=
  if negb (truthy_buf base64Data) || negb (truthy dek)
  then Status 400 "Missing fields"
  else match encrypt_body d (from_base64 (default EmptyText base64Data))
               (default EmptyString dek) entropy entropy2 with
       | Ok (encryptedKey, encryptedDek) => EncryptOk encryptedKey encryptedDek
       | Throw _ => Status 500 "Encryption failed"
       end.

(** The body of the second [try] of [POST /api/decrypt-dek]. *)
Definition decrypt_dek_body (d : db) (encryptedDek : bytes) : result string :=
  mk ← getActiveMasterKey ROOT_KEY d;
  let masterKey := keyMaterial mk in
  if negb (length masterKey =? 32) then Throw (Error "Invalid master key length")
  else
    dek ← unwrap_dek masterKey encryptedDek;
    Ok (toString_hex dek).

Definition decrypt_dek (d : db) (authorization : option string)
    (encrypted_dek : option base64_text) : response :=
  let token := bearer_token authorization in
  if negb (truthy token) || negb (truthy_buf encrypted_dek)
  then Status 400 "Missing fields"
  else match post_verify jwt_verify token with
       | Throw _ => Status 401 "Token verification failed"
       | Ok reply =>
           if negb (truthy (jwt_id (payload reply)))
           then Status 401 "Invalid token payload"
           else match decrypt_dek_body d
                        (from_base64 (default EmptyText encrypted_dek)) with
                | Ok dekHex => DekOk dekHex
                | Throw _ => Status 500 "Decryption failed"
                end
       end.

End Service.

End Vault.

(** ** key-server/index.js *)

Module KeyServer.
Import GF256 Node NodeStrings Db MasterKeyManager Auth Vault.

Section Service.

Variable ROOT_KEY : bytes.
Variable jwt_verify : string -> option jwt_payload.
Variable jwt_sign : jwt_payload -> string.

(** [INSERT INTO kms_keys (user_id, encrypted_key, encrypted_dek,
    created_at) VALUES (?, ?, ?, ?)]; [user_id] is the primary key. *)
Definition insert_envelope (t : kms_table) (user_id : string)
    (encrypted_key encrypted_dek : bytes) (now : Z) : result kms_table :=
  if 64 <? String.length user_id then Throw (SqlError "ER_DATA_TOO_LONG")
  else if existsb (fun r => String.eqb (kr_user_id r) user_id) (kt_rows t)
  then Throw (SqlError "ER_DUP_ENTRY")
  else Ok (KmsTable (kt_extra_columns t)
             (kt_rows t ++ [KmsRow user_id (Some encrypted_key) (Some encrypted_dek)
                              (Some now) ∅])).

(** [POST /api/keys]: the reply and the database it leaves. *)
Definition post_keys (d : db) (data user_id : option string) (now : Z)
    (dek_entropy entropy entropy2 : bytes) : response * db :=
  if negb (truthy data) || negb (truthy user_id)
  then (Status 400 "User ID and data are required", d)
  else
    let plainData := list_byte_of_string (default EmptyString data) in
    let dek := toString_hex (randomBytes 32 dek_entropy) in
    match Vault.encrypt ROOT_KEY d (Some (to_base64 plainData)) (Some dek)
            entropy entropy2 with
    | EncryptOk encrypted_key encrypted_dek =>
        match insert_envelope (kms_keys d) (default EmptyString user_id)
                encrypted_key encrypted_dek now with
        | Throw _ => (Status 500 "App B error or DB error", d)
        | Ok t =>
            let token := post_issue jwt_sign (JwtPayload user_id) in
            if negb (truthy (Some token))
            then (Status 500 "Failed to issue token", set_kms_keys d t)
            else (Stored token, set_kms_keys d t)
        end
    | _ => (Status 500 "App B error or DB error", d)
    end.

(** Lines 121-129 of [GET /api/keys] up to [paddedPlain.slice(0, -padLen)]:
    the bytes of the payload. *)
Definition decrypt_payload_bytes (encrypted_key : bytes) (dek : string)
    : result bytes :=
  let encryptedKeyBuf := encrypted_key in
  let dekBuf := from_hex dek in
  let iv := slice encryptedKeyBuf 0 16 in
  let ciphertext := slice_from encryptedKeyBuf 16 in
  paddedPlain ← aes256cbc_decrypt dekBuf iv ciphertext;
  let padLen := buf_index paddedPlain (Z.of_nat (length paddedPlain) - 1) in
  Ok (slice paddedPlain 0 (neg_index padLen)).

(** Lines 121-129 in full: [plain], those bytes read as text by
    [toString()]. *)
Definition decrypt_payload (encrypted_key : bytes) (dek : string) : result string :=
  unpadded ← decrypt_payload_bytes encrypted_key dek;
  Ok (toString_utf8 unpadded).

(** [SELECT * FROM kms_keys WHERE user_id = ?]. *)
Definition select_by_user (t : kms_table) (user_id : string) : list kms_row :=
  filter (fun r => kr_user_id r = user_id) (kt_rows t).

Definition get_keys (d : db) (authorization : option string) : response :=
  let token := bearer_token authorization in
  if negb (truthy token) then Status 401 "Missing token"
  else match post_verify jwt_verify token with
       | Throw _ => Status 401 "Invalid token"
       | Ok reply =>
           if negb (valid reply) || negb (truthy (jwt_id (payload reply)))
           then Status 500 "Failed to verify token"
           else
             let user_id := default EmptyString (jwt_id (payload reply)) in
             match select_by_user (kms_keys d) user_id with
             | [] => Status 404 "Key not found"
             | row :: _ =>
                 if negb (String.eqb (kr_user_id row) user_id)
                 then Status 403 "Unauthorized"
                 else
                   match Vault.decrypt_dek ROOT_KEY jwt_verify d
                           (Some ("Bearer " ++ default EmptyString token)%string)
                           (to_base64 <$> kr_encrypted_dek row) with
                   | DekOk dek =>
                       match kr_encrypted_key row with
                       | None => Status 500 "Decryption failed or App B error"
                       | Some encrypted_key =>
                           match decrypt_payload encrypted_key dek with
                           | Ok plain => DataOk plain
                           | Throw _ => Status 500 "Decryption failed or App B error"
                           end
                       end
                   | _ => Status 500 "Decryption failed or App B error"
                   end
             end
       end.

End Service.

End KeyServer.

(** ** master-key-server/rotate-mk.js *)

Module RotateMk.
Import GF256 Node NodeStrings Db MasterKeyManager.

(** What [decryptDek] and [encryptDek] receive as [masterKey]: the key
    manager hands out [Buffer]s, the two functions are written for text. *)
Inductive js_value : Type :=
| JsBuffer (b : bytes)
| JsString (s : string).

Definition pkcs7Pad (buf : bytes) : bytes :=
  let padLen := 16 - (length buf mod 16) in
  let padding := replicate padLen (byte_of_nat padLen) in
  buf ++ padding.

Definition pkcs7Unpad (buf : bytes) : bytes :=
  let padLen := buf_index buf (Z.of_nat (length buf) - 1) in
  slice buf 0 (Vault.neg_index padLen).

(** [s.padEnd(n, '0')]: [n] is a length in UTF-16 code units. *)
Definition padEnd (n : nat) (s : string) : string :=
  (s ++ string_of_list_ascii (replicate (n - utf16_length s) "0"%char))%string.

(** [masterKey.padEnd(32, '0')] then [Buffer.from(..)]: a [Buffer] has no
    [padEnd], the call throws.  For text the bytes are the UTF-8 bytes of
    the padded string, more than its code units unless the text is
    ASCII. *)
Definition mk_bytes (masterKey : js_value) : result bytes :=
  match masterKey with
  | JsBuffer _ => Throw (TypeError "masterKey.padEnd is not a function")
  | JsString s => Ok (list_byte_of_string (padEnd 32 s))
  end.

(** [Buffer.from(encryptedDekB64, 'base64')]; a NULL cell is [null]. *)
Definition from_base64_cell (cell : option bytes) : result bytes :=
  match cell with
  | Some b => Ok b
  | None => Throw (TypeError "The first argument must be of type string")
  end.

Definition decryptDek (encryptedDekB64 : option bytes) (masterKey : js_value)
    : result bytes :=
  encryptedDek ← from_base64_cell encryptedDekB64;
  mkBytes ← mk_bytes masterKey;
  let iv := slice encryptedDek 0 16 in
  let ciphertext := slice_from encryptedDek 16 in
  padded ← aes256cbc_decrypt mkBytes iv ciphertext;
  Ok (pkcs7Unpad padded).

Definition encryptDek (dekBytes : bytes) (masterKey : js_value) (entropy : bytes)
    : result bytes :=
  mkBytes ← mk_bytes masterKey;
  let iv := randomBytes 16 entropy in
  let padded := pkcs7Pad dekBytes in
  c ← aes256cbc_encrypt mkBytes iv padded;
  Ok (iv ++ c).

(** A row object of [SELECT key_id, encrypted_dek FROM kms_keys]. *)
Record rot_row : Type := RotRow {
  key_id : sqlval;
  encrypted_dek : option bytes
}.

Definition extra_cell (r : kms_row) (col : string) : sqlval :=
  default SqlNull (kr_extra r !! col).

(** The key server's table has no [key_id] column; the statement is
    rejected unless the table carries one. *)
Definition select_key_id_encrypted_dek (t : kms_table) : result (list rot_row) :=
  if bool_decide ("key_id" ∈ kt_extra_columns t)
  then Ok (map (fun r => RotRow (extra_cell r "key_id") (kr_encrypted_dek r))
             (kt_rows t))
  else Throw (SqlError "ER_BAD_FIELD_ERROR").

(** SQL [key_id = ?]: never true of NULL. *)
Definition sql_eq (a b : sqlval) : bool :=
  match a, b with
  | SqlNull, _ | _, SqlNull => false
  | _, _ => bool_decide (a = b)
  end.

(** [UPDATE kms_keys SET encrypted_dek = ? WHERE key_id = ?]. *)
Definition update_encrypted_dek (t : kms_table) (newEncryptedDek : bytes)
    (k : sqlval) : result kms_table :=
  if bool_decide ("key_id" ∈ kt_extra_columns t)
  then Ok (KmsTable (kt_extra_columns t)
             (map (fun r =>
                     if sql_eq (extra_cell r "key_id") k
                     then KmsRow (kr_user_id r) (kr_encrypted_key r)
                            (Some newEncryptedDek) (kr_created_at r) (kr_extra r)
                     else r) (kt_rows t)))
  else Throw (SqlError "ER_BAD_FIELD_ERROR").

(** What the loop writes to the console for a row. *)
Inductive log_entry : Type :=
| Rotated (key_id : sqlval)
| Failed (key_id : sqlval) (err : js_error).

(** The [try] block of the loop body. *)
Definition rotate_try (OLD NEW : js_value) (entropy : bytes) (t : kms_table)
    (row : rot_row) : result kms_table :=
  dekBytes ← decryptDek (encrypted_dek row) OLD;
  newEncryptedDek ← encryptDek dekBytes NEW entropy;
  update_encrypted_dek t newEncryptedDek (key_id row).

(** One iteration: [try { ... } catch (err) { console.error(..) }]. *)
Definition rotate_row (OLD NEW : js_value) (entropy : bytes) (t : kms_table)
    (row : rot_row) : kms_table * log_entry :=
  match rotate_try OLD NEW entropy t row with
  | Ok t' => (t', Rotated (key_id row))
  | Throw err => (t, Failed (key_id row) err)
  end.

(** [for (const row of rows) { ... }]; [rand i] is the entropy of
    iteration [i]. *)
Fixpoint rotate_rows (OLD NEW : js_value) (rand : nat -> bytes) (i : nat)
    (t : kms_table) (rows : list rot_row) : kms_table * list log_entry :=
  match rows with
  | [] => (t, [])
  | row :: rows' =>
      let '(t1, entry) := rotate_row OLD NEW (rand i) t row in
      let '(t2, log) := rotate_rows OLD NEW rand (S i) t1 rows' in
      (t2, entry :: log)
  end.

Section RootKey.

Variable ROOT_KEY : bytes.

Definition rotateMasterKey (rand : nat -> bytes) (d : db)
    : result (db * list log_entry) :=
  active_key ← getActiveMasterKey ROOT_KEY d;
  retired_keys ← getRetiredMasterKeys ROOT_KEY d;
  match retired_keys with
  | [] => Throw (Error "No retired (old) master key found.")
  | retired0 :: _ =>
      let OLD_MASTER_KEY := JsBuffer (keyMaterial retired0) in
      let NEW_MASTER_KEY := JsBuffer (keyMaterial active_key) in
      rows ← select_key_id_encrypted_dek (kms_keys d);
      let '(t, log) := rotate_rows OLD_MASTER_KEY NEW_MASTER_KEY rand 0
                         (kms_keys d) rows in
      Ok (set_kms_keys d t, log)
  end.

End RootKey.

End RotateMk.

(** ** Notions the properties are stated with *)

Module Properties.
Import GF256 AES Node Db MasterKeyManager Vault RotateMk.

(** Exactly one record is active; every other record is retired. *)
Definition exactly_one_active (t : list master_key_row) : Prop :=
  exists pre r post,
    t = pre ++ r :: post /\ mk_status r = active /\
    Forall (fun x => mk_status x = retired) (pre ++ post).

(** One call of [addMasterKey(keyId, hexKey)], with its clock and entropy. *)
Record add_call : Type := AddCall {
  call_keyId : string;
  call_hexKey : string;
  call_now : Z;
  call_entropy : bytes
}.

Definition add_call_result (ROOT_KEY : bytes) (c : add_call) (d : db) : result db :=
  addMasterKey ROOT_KEY (call_keyId c) (call_hexKey c) (call_now c) (call_entropy c) d.

(** A rejected call leaves the database as it was. *)
Definition add_step (ROOT_KEY : bytes) (d : db) (c : add_call) : db :=
  match add_call_result ROOT_KEY c d with
  | Ok d' => d'
  | Throw _ => d
  end.

Definition add_all (ROOT_KEY : bytes) (calls : list add_call) (d : db) : db :=
  foldl (add_step ROOT_KEY) d calls.

Definition retire_row (r : master_key_row) : master_key_row :=
  MasterKeyRow (mk_key_id r) (mk_key_material r) (mk_created_at r) retired
    (mk_description r).

Definition entry_key (e : log_entry) : sqlval :=
  match e with
  | Rotated k => k
  | Failed k _ => k
  end.

(** Everything of an envelope row but its wrapped DEK. *)
Definition same_frame (r r' : kms_row) : Prop :=
  kr_user_id r = kr_user_id r' /\ kr_encrypted_key r = kr_encrypted_key r' /\
  kr_created_at r = kr_created_at r' /\ kr_extra r = kr_extra r'.

Definition same_frames (t t' : kms_table) : Prop :=
  kt_extra_columns t = kt_extra_columns t' /\
  Forall2 same_frame (kt_rows t) (kt_rows t').

(** The database a run leaves: a run that throws has written nothing. *)
Definition db_after (d : db) (r : result (db * list log_entry)) : db :=
  match r with
  | Ok (d', _) => d'
  | Throw _ => d
  end.

Definition is_type_error (e : log_entry) : Prop :=
  exists k msg, e = Failed k (TypeError msg).

(** The byte with only bit [k mod 8] set. *)
Definition bit_mask (k : nat) : byte := byte_of_nat (2 ^ (k mod 8)).

(** [buf] with bit [i] flipped (bit [i mod 8] of byte [i / 8]). *)
Definition flip_bit (i : nat) (buf : bytes) : bytes :=
  alter (fun b => bxor b (bit_mask i)) (i / 8) buf.

(** CBC decryption of a buffer that starts with its IV. *)
Definition dec_full (n : nat) (rks : list state) (full : bytes) : bytes :=
  cbc_decrypt_blocks n rks (state_of_list (take 16 full)) (drop 16 full).

(** The first plaintext block: it reads the first 32 bytes only. *)
Definition plain_block (rks : list state) (full : bytes) : bytes :=
  list_of_state (xor_state (state_of_list (take 16 full))
                   (inv_cipher rks (state_of_list (take 16 (drop 16 full))))).

(** The blocks a plaintext needs after the manual padding. *)
Definition padded_blocks (p : bytes) : nat := length p / 16 + 1.

(** The last block as padding removal judges it. *)
Definition evp_block_bad (T : bytes) : bool :=
  match last T with
  | Some b =>
      let n := Byte.to_nat b in
      (n =? 0) || (16 <? n) || negb (forallb (Byte.eqb b) (drop (16 - n) T))
  | None => false
  end.

End Properties.

(** ** A concrete run of the three services *)

Module Scenario.
Import GF256 AES Node NodeStrings Db MasterKeyManager Auth Vault KeyServer RotateMk.
Import Properties.

(** The example vector of FIPS-197, appendix C.3. *)
Definition fips_key : bytes :=
  [x00;x01;x02;x03;x04;x05;x06;x07;x08;x09;x0a;x0b;x0c;x0d;x0e;x0f;
   x10;x11;x12;x13;x14;x15;x16;x17;x18;x19;x1a;x1b;x1c;x1d;x1e;x1f].
Definition fips_plain : bytes :=
  [x00;x11;x22;x33;x44;x55;x66;x77;x88;x99;xaa;xbb;xcc;xdd;xee;xff].
Definition fips_cipher : bytes :=
  [x8e;xa2;xb7;xca;x51;x67;x45;xbf;xea;xfc;x49;x90;x4b;x49;x60;x89].

(** [sha256('caratlane@321')], the root key when [ROOT_KEY] is not set. *)
Definition root_key : bytes :=
  [x46;xee;x4c;xf1;xed;x2b;x2e;x5e;x3f;x82;x9b;x05;x72;x45;xc5;x03;
   x98;x9f;x96;x2e;x5d;xcc;x45;xdf;xcf;x95;xf3;xd3;x74;xaa;xf1;x12].

Definition K1_hex : string :=
  "000102030405060708090a0b0c0d0e0f101112131415161718191a1b1c1d1e1f".
Definition K2_hex : string :=
  "a0a1a2a3a4a5a6a7a8a9aaabacadaeafb0b1b2b3b4b5b6b7b8b9babbbcbdbebf".

Definition entropy (seed : byte) : bytes := replicate 32 seed.

Definition db0 : db := Database [] kms_keys_created.

Definition after (r : result db) : db :=
  match r with Ok d => d | Throw _ => db0 end.

(** The auth service of the run: token [tok-N] carries [id = user-N]. *)
Definition jwt_verify (token : string) : option jwt_payload :=
  match strip_prefix "tok-" token with
  | Some n => Some (JwtPayload (Some ("user-" ++ n)%string))
  | None => None
  end.

Definition jwt_sign (p : jwt_payload) : string :=
  match jwt_id p with
  | Some u => match strip_prefix "user-" u with
              | Some n => ("tok-" ++ n)%string
              | None => "tok"%string
              end
  | None => "tok"%string
  end.

Definition db1 : db := after (addMasterKey root_key "key-1" K1_hex 1000 (entropy x11) db0).

Definition stored : response * db :=
  post_keys root_key jwt_sign db1 (Some "secret-1"%string) (Some "user-7"%string)
    2000 (entropy x22) (entropy x33) (entropy x44).

Definition db2 : db := snd stored.

Definition db3 : db := after (addMasterKey root_key "key-2" K2_hex 3000 (entropy x55) db2).

Definition K1 : bytes := from_hex K1_hex.

Definition K2 : bytes := from_hex K2_hex.

Definition K3_hex : string :=
  "c0c1c2c3c4c5c6c7c8c9cacbcccdcecfd0d1d2d3d4d5d6d7d8d9dadbdcdddedf".

(** The DEK of user-7's envelope, as [post_keys] drew it. *)
Definition dek7 : bytes := replicate 32 x22.

(** The wrapped DEK stored for user-7, wrapped under key-1. *)
Definition blob7 : bytes :=
  from_hex ("44444444444444444444444444444444bdb649fa8084cad3605b6b2ad7c8baa4"
         ++ "578a09ef78b91ef239e5d8a9551e1b550d833afe438ebe1de1df7e2b327cd7a3"
         ++ "7551b38071c374e20bebff1f9c719905").

Definition rand6 (i : nat) : bytes := entropy x66.

Definition padEnd_error : js_error :=
  TypeError "masterKey.padEnd is not a function".

(** A [kms_keys] table that does carry a [key_id] column, filled with the
    owner's id. *)
Definition with_key_id (d : db) : db :=
  set_kms_keys d
    (KmsTable ["key_id"%string]
       (map (fun r => KmsRow (kr_user_id r) (kr_encrypted_key r) (kr_encrypted_dek r)
                        (kr_created_at r)
                        (<["key_id"%string := SqlText (kr_user_id r)]> (kr_extra r)))
          (kt_rows (kms_keys d)))).

Definition db3k : db := with_key_id db3.

(** A second envelope, stored after key-2 became active. *)
Definition db4 : db :=
  snd (post_keys root_key jwt_sign db3 (Some "secret-2"%string) (Some "user-8"%string)
         4000 (entropy x77) (entropy x88) (entropy x99)).

Definition db4k : db := with_key_id db4.

(** The wrapped DEK stored for user-8, wrapped under key-2. *)
Definition blob8 : bytes :=
  from_hex ("99999999999999999999999999999999f6dc188e8f901c75fbf7428fbeacc1c6"
         ++ "e007a18d1d001652872836f9e8848297120a2500c7bc8ca2333e78f791c4156b"
         ++ "cc1ad3cfc45672bc4448655a08f75dfc").

(** A third master key: key-1 and key-2 are both retired. *)
Definition db5 : db :=
  after (addMasterKey root_key "key-3" K3_hex 5000 (entropy xbb) db3).

(** A blob that unwraps to no bytes at all: the key-1 encryption of the
    empty buffer. *)
Definition empty_dek_blob : bytes :=
  from_hex "aaaaaaaaaaaaaaaaaaaaaaaaaaaaaaaa6e74e8cfafb5cc960f74aa1550e7a9a0".

(** A blob that unwraps to five bytes. *)
Definition short_dek_blob : bytes :=
  from_hex "aaaaaaaaaaaaaaaaaaaaaaaaaaaaaaaad8ec0c8fc297d47cb1cefda09a875d43".

Definition call1 : add_call := AddCall "key-1" K1_hex 1000 (entropy x11).

Definition call2 : add_call := AddCall "key-2" K2_hex 3000 (entropy x55).

(** The loop as written for text keys: with the keys given as strings the
    row is re-wrapped, and only its [encrypted_dek] changes. *)
Definition text_old : js_value := JsString "old-master-key".

Definition text_new : js_value := JsString "new-master-key".

Definition text_table : kms_table :=
  KmsTable ["key_id"%string]
    [KmsRow "user-7" (Some [x01; x02])
       (match encryptDek dek7 text_old (entropy x44) with
        | Ok b => Some b
        | Throw _ => None
        end)
       (Some 2000%Z) {["key_id"%string := SqlText "e-7"]}].

(** A plaintext of two blocks and its stored blob; bit 128 of the blob is
    the lowest bit of the first ciphertext byte. *)
Definition p32 : bytes := list_byte_of_string "0123456789abcdef0123456789abcdef".

Definition blob32 : bytes :=
  from_hex ("3333333333333333333333333333333378959cb7c4a91954834b709c757c0681"
         ++ "f02ed8dbc8370a27d2a93787cc0e780962b5c8ca9fdeafecd320824d753ac7e8"
         ++ "d77bdbdbd21b31b98decdb2a31ebb4c2").

(** The stored blobs of the one-byte payloads [ff] and [fe], neither of
    them UTF-8 text. *)
Definition blob_ff : bytes :=
  from_hex ("33333333333333333333333333333333e82ee6e9775caf4ee8dea3525adbda16"
         ++ "3fbe972ca2078680c36bcaa9a9d6f663").

Definition blob_fe : bytes :=
  from_hex ("33333333333333333333333333333333e34b6e921cb534a17ad0c85b402bded4"
         ++ "7aa8d8b46b5626cdb3d92e0c9a198a7f").

(** The key server's database before any key change, on a [kms_keys]
    table with a [key_id] column: key-1 is active, no key is retired. *)
Definition db2k : db := with_key_id db2.

(** The rows as [SELECT key_id, encrypted_dek FROM kms_keys] returns
    them. *)
Definition rows_of (t : kms_table) : list rot_row :=
  match select_key_id_encrypted_dek t with
  | Ok rows => rows
  | Throw _ => []
  end.







(** Three envelopes under the old text key; the blob of the second one
    is cut short. *)
Definition dek8 : bytes := replicate 32 x77.

Definition wrapped (dek : bytes) (key : js_value) (entropy : bytes) : option bytes :=
  match encryptDek dek key entropy with
  | Ok b => Some b
  | Throw _ => None
  end.

Definition text_table3 : kms_table :=
  KmsTable ["key_id"%string]
    [KmsRow "user-7" (Some [x01; x02]) (wrapped dek7 text_old (entropy x44))
       (Some 2000%Z) {["key_id"%string := SqlText "e-7"]};
     KmsRow "user-8" (Some [x03; x04]) (Some [x01; x02; x03])
       (Some 2001%Z) {["key_id"%string := SqlText "e-8"]};
     KmsRow "user-9" (Some [x05; x06]) (wrapped dek8 text_old (entropy x55))
       (Some 2002%Z) {["key_id"%string := SqlText "e-9"]}].

(** The rows of [text_table3] as the rotation reads them. *)
Definition row7 : rot_row := RotRow (SqlText "e-7") (wrapped dek7 text_old (entropy x44)).

Definition row8 : rot_row := RotRow (SqlText "e-8") (Some [x01; x02; x03]).

Definition row9 : rot_row := RotRow (SqlText "e-9") (wrapped dek8 text_old (entropy x55)).

End Scenario.

(** ** Numbers and buffers as text *)

Module NodeText.
Import Node.

(** [String(i)] and [`${i}`] for an integer. *)
Definition number_text (i : Z) : string := NilZero.string_of_int (Z.to_int i).

Definition base64_digit (n : Z) : ascii :=
  nth (Z.to_nat n)
    (list_ascii_of_string
       "ABCDEFGHIJKLMNOPQRSTUVWXYZabcdefghijklmnopqrstuvwxyz0123456789+/")
    "A"%char.

Definition byte_value (b : byte) : Z := Z.of_nat (Byte.to_nat b).

(** [buf.toString('base64')]. *)
Fixpoint toString_base64 (buf : bytes) : string :=
  match buf with
  | [] => EmptyString
  | [a] =>
      let n := (byte_value a * 16)%Z in
      String (base64_digit (n / 64)) (String (base64_digit (n mod 64)) "==")
  | [a; b] =>
      let n := ((byte_value a * 256 + byte_value b) * 4)%Z in
      String (base64_digit (n / 4096))
        (String (base64_digit (n / 64 mod 64)) (String (base64_digit (n mod 64)) "="))
  | a :: b :: c :: rest =>
      let n := (byte_value a * 65536 + byte_value b * 256 + byte_value c)%Z in
      String (base64_digit (n / 262144))
        (String (base64_digit (n / 4096 mod 64))
           (String (base64_digit (n / 64 mod 64))
              (String (base64_digit (n mod 64)) (toString_base64 rest))))
  end.

End NodeText.

(** ** master_key_manager.js: [listMasterKeys] *)

Module MasterKeyListing.
Import Node Db MasterKeyManager.

(** A row of [SELECT key_id, created_at, status FROM master_keys]. *)
Record key_listing : Type := KeyListing {
  kl_key_id : string;
  kl_created_at : Z;
  kl_status : key_status
}.

(** [ORDER BY created_at DESC].  MySQL leaves the order of rows of equal
    time open; here a row goes in front of the first row that is not
    newer, so such rows stay in scan order. *)
Fixpoint insert_desc (r : master_key_row) (l : list master_key_row)
    : list master_key_row :=
  match l with
  | [] => [r]
  | x :: l' =>
      if (mk_created_at x <=? mk_created_at r)%Z then r :: l
      else x :: insert_desc r l'
  end.

Definition order_by_created_at_desc (t : list master_key_row)
    : list master_key_row :=
  foldr insert_desc [] t.

(** The order of the result: no row is followed by a newer one. *)
Definition newer_first (a b : master_key_row) : Prop :=
  (mk_created_at b <= mk_created_at a)%Z.

Definition listing (r : master_key_row) : key_listing :=
  KeyListing (mk_key_id r) (mk_created_at r) (mk_status r).

Definition listMasterKeys (d : db) : list key_listing :=
  map listing (order_by_created_at_desc (master_keys d)).

End MasterKeyListing.

(** ** master-key-server/script.js: add a fresh master key *)

Module AddKeyScript.
Import Node Db MasterKeyManager NodeText.

(** [`key-${Date.now()}`]. *)
Definition key_id_at (now : Z) : string := ("key-" ++ number_text now)%string.

(** The whole script: [now] is [Date.now()] of line 5, [key_entropy] feeds
    [crypto.randomBytes(32)] of line 8; [created] and [entropy] are the
    clock and the IV entropy inside [addMasterKey]. *)
Definition run (ROOT_KEY : bytes) (now : Z) (key_entropy : bytes) (created : Z)
    (entropy : bytes) (d : db) : result db :=
  let keyId := key_id_at now in
  let hexKey := toString_hex (randomBytes 32 key_entropy) in
  addMasterKey ROOT_KEY keyId hexKey created entropy d.

End AddKeyScript.

(** ** master_key_manager.js with the rotation built in (the copy of the
    key manager whose [addMasterKey] draws its own key and then calls
    [rotateMasterKey]) *)

Module ManagerWithRotation.
Import Node Db MasterKeyManager RotateMk AddKeyScript.

Section RootKey.

Variable ROOT_KEY : bytes.

Definition getActiveMasterKey (d : db) : result master_key :=
  match select_active_newest (master_keys d) with
  | None => Throw (Error "No active master key found")
  | Some r =>
      material ← decryptKey ROOT_KEY (mk_key_material r);
      Ok (MasterKey (mk_key_id r) material)
  end.

Definition getRetiredMasterKeys (d : db) : result (list master_key) :=
  unwrap_rows ROOT_KEY (select_retired (master_keys d)).

Definition rotateMasterKey (rand : nat -> bytes) (d : db)
    : result (db * list log_entry) :=
  active_key ← getActiveMasterKey d;
  retired_keys ← getRetiredMasterKeys d;
  match retired_keys with
  | [] => Throw (Error "No retired (old) master key found.")
  | retired0 :: _ =>
      let OLD_MASTER_KEY := JsBuffer (keyMaterial retired0) in
      let NEW_MASTER_KEY := JsBuffer (keyMaterial active_key) in
      rows ← select_key_id_encrypted_dek (kms_keys d);
      let '(t, log) := rotate_rows OLD_MASTER_KEY NEW_MASTER_KEY rand 0
                         (kms_keys d) rows in
      Ok (set_kms_keys d t, log)
  end.

(** [addMasterKey()]: the database the call leaves and how the promise
    settles (the log of the rotation, or the error it rejects with).  The
    two statements on [master_keys] are done when [rotateMasterKey] is
    called, so a rejection by the rotation leaves them in place. *)
Definition addMasterKey (now : Z) (key_entropy : bytes) (created : Z)
    (entropy : bytes) (rand : nat -> bytes) (d : db)
    : db * result (list log_entry) :=
  let keyId := key_id_at now in
  let hexKey := toString_hex (randomBytes 32 key_entropy) in
  let keyBuf := from_hex hexKey in
  match encryptKey ROOT_KEY keyBuf entropy with
  | Throw e => (d, Throw e)
  | Ok encrypted =>
      match insert_active (master_keys d) keyId encrypted created with
      | Throw e => (d, Throw e)
      | Ok t =>
          let d1 := set_master_keys d (retire_others t keyId) in
          match rotateMasterKey rand d1 with
          | Ok (d2, log) => (d2, Ok log)
          | Throw e => (d1, Throw e)
          end
      end
  end.

End RootKey.

End ManagerWithRotation.

(** ** scripts/add-user.js and the key server answering it *)

Module AddUserScript.
Import Node Db MasterKeyManager Auth Vault KeyServer NodeText.

(** The body [{ user_id, data }] of a request. *)
Record request : Type := Request {
  req_user_id : string;
  req_data : string
}.

Definition payload (i : nat) : request :=
  Request (number_text (Z.of_nat i)) ("test-data-" ++ number_text (Z.of_nat i)).

(** [for (let i = 1; i <= 2000; i++) axios.post(url, payload)]. *)
Definition payloads : list request := map payload (seq 1 2000).

(** What the key server draws while it handles one request: the clock and
    the entropy of the DEK and of the two IVs. *)
Record draws : Type := Draws {
  at_time : Z;
  dek_entropy : bytes;
  iv_entropy : bytes;
  iv2_entropy : bytes
}.

Section Server.

Variable ROOT_KEY : bytes.
Variable jwt_sign : jwt_payload -> string.

(** The key server answering the requests one after the other, in the
    order [reqs] lists them; [env k] is what it draws for the [k]-th. *)
Fixpoint serve (env : nat -> draws) (k : nat) (reqs : list request) (d : db)
    : list response * db :=
  match reqs with
  | [] => ([], d)
  | q :: reqs' =>
      let '(r, d1) :=
        post_keys ROOT_KEY jwt_sign d (Some (req_data q)) (Some (req_user_id q))
          (at_time (env k)) (dek_entropy (env k)) (iv_entropy (env k))
          (iv2_entropy (env k)) in
      let '(rs, d2) := serve env (S k) reqs' d1 in
      (r :: rs, d2)
  end.

End Server.

End AddUserScript.

(** ** AES-256-GCM as [crypto.createCipheriv('aes-256-gcm', ..)] runs it
    (NIST SP 800-38D, no additional authenticated data) *)

Module Gcm256.
Import GF256 AES Node NodeText.

(** The number a byte string writes, its first byte the most significant. *)
Fixpoint be_value (bs : bytes) (acc : Z) : Z :=
  match bs with
  | [] => acc
  | b :: bs' => be_value bs' (acc * 256 + Z.of_nat (Byte.to_nat b))
  end.

(** A block of 16 bytes as a number; a shorter string is filled with zero
    bytes on the right. *)
Definition block_value (bs : bytes) : Z :=
  be_value (take 16 (bs ++ replicate 16 x00)) 0.

(** The [n] bytes of [v], most significant first. *)
Definition value_bytes (n : nat) (v : Z) : bytes :=
  map (fun k => byte_of_nat (Z.to_nat ((v / 256 ^ Z.of_nat (n - 1 - k)) mod 256)))
    (seq 0 n).

(** The reduction constant [R = 11100001 || 0^120]. *)
Definition gcm_R : Z := Z.shiftl 225 120.

(** The product of two blocks in GF(2^128), bit 0 being the leftmost bit. *)
Fixpoint gf_mul_bits (n : nat) (X V acc : Z) : Z :=
  match n with
  | 0 => acc
  | S n' =>
      let acc' := if Z.testbit X (Z.of_nat n') then Z.lxor acc V else acc in
      let V' := if Z.testbit V 0 then Z.lxor (Z.shiftr V 1) gcm_R else Z.shiftr V 1 in
      gf_mul_bits n' X V' acc'
  end.

Definition gf_mul (X Y : Z) : Z := gf_mul_bits 128 X Y 0.

Fixpoint ghash_blocks (n : nat) (H Y : Z) (data : bytes) : Z :=
  match n with
  | 0 => Y
  | S n' =>
      ghash_blocks n' H (gf_mul (Z.lxor Y (block_value (take 16 data))) H)
        (drop 16 data)
  end.

(** [GHASH_H] of a string whose length is a multiple of 16. *)
Definition ghash (H : Z) (data : bytes) : Z :=
  ghash_blocks (length data / 16) H 0 data.

(** Zero bytes up to the next multiple of 16. *)
Definition pad16 (data : bytes) : bytes :=
  data ++ replicate ((16 - length data mod 16) mod 16) x00.

(** The bit length of [data] on 64 bits. *)
Definition len64 (data : bytes) : bytes :=
  value_bytes 8 (8 * Z.of_nat (length data)).

Definition encrypt_block (rks : list state) (block : bytes) : bytes :=
  list_of_state (cipher rks (state_of_list block)).

(** The pre-counter block [J0]. *)
Definition counter0 (H : Z) (iv : bytes) : bytes :=
  if length iv =? 12 then iv ++ [x00; x00; x00; x01]
  else value_bytes 16 (ghash H (pad16 iv ++ replicate 8 x00 ++ len64 iv)).

(** [inc32]: the last four bytes count, modulo 2^32. *)
Definition inc32 (block : bytes) : bytes :=
  let v := be_value block 0 in
  value_bytes 16 (v / 2 ^ 32 * 2 ^ 32 + (v mod 2 ^ 32 + 1) mod 2 ^ 32).

Definition xor_bytes (x y : bytes) : bytes := zip_with bxor x y.

(** [GCTR]: [n] blocks of key stream from the counter block [cb]. *)
Fixpoint gctr (n : nat) (rks : list state) (cb : bytes) (data : bytes) : bytes :=
  match n with
  | 0 => []
  | S n' =>
      xor_bytes (take 16 data) (encrypt_block rks cb)
        ++ gctr n' rks (inc32 cb) (drop 16 data)
  end.

Definition blocks_of (data : bytes) : nat := (length data + 15) / 16.

Definition hash_key (rks : list state) : Z :=
  block_value (encrypt_block rks (replicate 16 x00)).

(** The ciphertext of [data] (or the plaintext of a ciphertext). *)
Definition gcm_crypt (key iv data : bytes) : bytes :=
  let rks := key_expansion (key_of_list key) in
  gctr (blocks_of data) rks (inc32 (counter0 (hash_key rks) iv)) data.

(** The 16-byte authentication tag of a ciphertext. *)
Definition gcm_tag (key iv ct : bytes) : bytes :=
  let rks := key_expansion (key_of_list key) in
  let H := hash_key rks in
  let S := ghash H (pad16 ct ++ replicate 8 x00 ++ len64 ct) in
  xor_bytes (value_bytes 16 S) (encrypt_block rks (counter0 H iv)).

(** [createCipheriv('aes-256-gcm', key, iv)] / [createDecipheriv]: an
    empty IV and a key that is not 32 bytes are refused. *)
Definition check_gcm (key iv : bytes) : result unit :=
  if length iv =? 0 then Throw ERR_CRYPTO_INVALID_IV
  else if negb (length key =? 32) then Throw ERR_CRYPTO_INVALID_KEYLEN
  else Ok tt.

(** [c.update(data)], [c.final()], [c.getAuthTag()]. *)
Definition aes256gcm_encrypt (key iv data : bytes) : result (bytes * bytes) :=
  _ ← check_gcm key iv;
  let ct := gcm_crypt key iv data in
  Ok (ct, gcm_tag key iv ct).

(** [d.setAuthTag(tag)] accepts tags of 4, 8 and 12 to 16 bytes. *)
Definition valid_tag_length (n : nat) : bool :=
  (n =? 4) || (n =? 8) || ((12 <=? n) && (n <=? 16)).

Fixpoint bytes_eqb (x y : bytes) : bool :=
  match x, y with
  | [], [] => true
  | a :: x', b :: y' => Byte.eqb a b && bytes_eqb x' y'
  | _, _ => false
  end.

(** [d.setAuthTag(tag)], [d.update(ct)], [d.final()]: [final] throws
    unless the tag is the leading part of the tag of [ct]. *)
Definition aes256gcm_decrypt (key iv tag ct : bytes) : result bytes :=
  _ ← check_gcm key iv;
  if negb (valid_tag_length (length tag))
  then Throw (TypeError ("Invalid authentication tag length: "
                           ++ number_text (Z.of_nat (length tag))))
  else if bytes_eqb tag (take (length tag) (gcm_tag key iv ct))
       then Ok (gcm_crypt key iv ct)
       else Throw (Error "Unsupported state or unable to authenticate data").

#[global] Arguments gcm_crypt : simpl never.
#[global] Arguments gcm_tag : simpl never.

End Gcm256.

(** ** scripts/secure-document-manager.js: the cipher of the documents
    and the token cache *)

Module DocumentManager.
Import GF256 AES Node NodeStrings Db MasterKeyManager Auth Vault KeyServer NodeText.
Import Gcm256.
Import AddUserScript.

(** Lines 170-181 of [encryptDocument], from [dataBuffer] on: IV, tag
    and ciphertext in one buffer. *)
Definition encrypt_buffer (dataBuffer : bytes) (dekBuffer : bytes) (entropy : bytes)
    : result bytes :=
  let iv := randomBytes 16 entropy in
  '(encrypted, authTag) ← aes256gcm_encrypt dekBuffer iv dataBuffer;
  Ok (iv ++ authTag ++ encrypted).

(** Lines 195-204 of [decryptDocument], from [encryptedBuffer] up to
    [decrypted]. *)
Definition decrypt_buffer (encryptedBuffer : bytes) (dekBuffer : bytes)
    : result bytes :=
  let iv := slice encryptedBuffer 0 16 in
  let authTag := slice encryptedBuffer 16 (16 + 16) in
  let ciphertext := slice_from encryptedBuffer (16 + 16) in
  aes256gcm_decrypt dekBuffer iv authTag ciphertext.

Section Json.

(** The values of JavaScript with [JSON.stringify], which returns
    [undefined] for [undefined], a function or a symbol and throws on a
    cyclic value or a BigInt, and [JSON.parse], which throws on a text
    that is no JSON text. *)
Variable value : Type.
Variable JSON_stringify : value -> result (option string).
Variable JSON_parse : string -> result value.

(** [encryptDocument(documentData, dek)]: the base64 text of the
    buffer. *)
Definition encryptDocument (documentData : value) (dek : string) (entropy : bytes)
    : result base64_text :=
  let dekBuffer := from_hex dek in
  json ← JSON_stringify documentData;
  match json with
  | None =>
      Throw (TypeError ("The first argument must be of type string or an instance "
                          ++ "of Buffer, ArrayBuffer, or Array or an Array-like "
                          ++ "Object. Received undefined"))
  | Some text =>
      let dataBuffer := list_byte_of_string text in
      result ← encrypt_buffer dataBuffer dekBuffer entropy;
      Ok (to_base64 result)
  end.

(** [decryptDocument(encryptedData, dek)]: the value parsed from the
    decrypted bytes read as text. *)
Definition decryptDocument (encryptedData : base64_text) (dek : string)
    : result value :=
  let dekBuffer := from_hex dek in
  let encryptedBuffer := from_base64 encryptedData in
  decrypted ← decrypt_buffer encryptedBuffer dekBuffer;
  JSON_parse (toString_utf8 decrypted).

End Json.

Section Manager.

Variable ROOT_KEY : bytes.
Variable jwt_sign : jwt_payload -> string.

(** [axios.post(KEY_SERVER_URL + '/api/keys', ..)] and the token read from
    the reply: the promise resolves on the 2xx reply and rejects on the
    4xx and 5xx replies, the only ones that [post_keys] sends with a
    status; the last case is a reply [post_keys] never gives. *)
Definition post_api_keys (d : db) (user_id data : string) (dr : draws)
    : result string * db :=
  match post_keys ROOT_KEY jwt_sign d (Some data) (Some user_id) (at_time dr)
          (dek_entropy dr) (iv_entropy dr) (iv2_entropy dr) with
  | (Stored token, d') => (Ok token, d')
  | (Status code _, d') =>
      (Throw (Error ("Request failed with status code "
                       ++ number_text (Z.of_nat code))), d')
  | (_, d') => (Throw (Error "Request failed"), d')
  end.

(** [getUserToken(userId)]: [userTokens] is the [Map] of the manager
    object; the result, the map and the database after the call. *)
Definition getUserToken (userTokens : gmap string string) (userId : string)
    (d : db) (data_entropy : bytes) (dr : draws)
    : result string * gmap string string * db :=
  match userTokens !! userId with
  | Some token => (Ok token, userTokens, d)
  | None =>
      match post_api_keys d userId (toString_base64 (randomBytes 100 data_entropy)) dr with
      | (Ok token, d') => (Ok token, <[userId := token]> userTokens, d')
      | (Throw e, d') => (Throw e, userTokens, d')
      end
  end.

End Manager.

End DocumentManager.

(** ** Further notions the properties are stated with *)

Module Notions.
Import Node NodeStrings Db MasterKeyManager Properties.

(** The key object a call of [addMasterKey(keyId, hexKey)] installs. *)
Definition key_of (c : add_call) : master_key :=
  MasterKey (call_keyId c) (from_hex (call_hexKey c)).

(** The owners of the envelopes stored. *)
Definition user_ids (d : db) : list string := map kr_user_id (kt_rows (kms_keys d)).

(** A reply that carries an access token. *)
Definition is_stored (r : Vault.response) : Prop :=
  exists token, r = Vault.Stored token.

(** What a character of [utf8_chars] looks like: an ASCII byte, or two
    to four bytes. *)
Definition char_shape (c : bytes) : Prop :=
  (exists b, c = [b] /\ in_range 0x00 0x7f b = true) \/ 2 <= length c <= 4.

(** [pat] occurs in [s]. *)
Definition occurs (pat s : string) : Prop :=
  exists pre post, s = (pre ++ pat ++ post)%string.

End Notions.

(** ** Further concrete runs *)

Module Runs.
Import GF256 AES Node NodeStrings NodeText Db MasterKeyManager Auth Vault KeyServer.
Import RotateMk Properties.
Import Scenario AddKeyScript AddUserScript.

(** script.js run at [Date.now() = 1730000000000]. *)
Definition script_db : db :=
  after (AddKeyScript.run root_key 1730000000000 (entropy xcc) 1730000000001
           (entropy xdd) db0).

(** The key manager with the rotation built in, adding a key to [db2]. *)
Definition variant_step : db * result (list log_entry) :=
  ManagerWithRotation.addMasterKey root_key 1730000000000 (entropy xcc)
    1730000000001 (entropy xdd) rand6 db2.

(** A call of [POST /api/encrypt] while key-1 is active. *)
Definition encrypt_reply : response :=
  Vault.encrypt root_key db1 (Some (Base64 p32)) (Some (toString_hex dek7))
    (entropy x33) (entropy x44).

Definition reply_key (r : response) : bytes :=
  match r with EncryptOk ek _ => ek | _ => [] end.

Definition reply_dek (r : response) : bytes :=
  match r with EncryptOk _ edk => edk | _ => [] end.

(** A first request for user-9, after user-7's. *)
Definition stored9 : response * db :=
  post_keys root_key jwt_sign db2 (Some "secret-9"%string) (Some "user-9"%string)
    6000 (entropy x22) (entropy x33) (entropy x44).

(** The row of [text_table] as the rotation reads it. *)
Definition text_row : rot_row :=
  RotRow (SqlText "e-7") (head (kt_rows text_table) ≫= kr_encrypted_dek).

(** What the key server draws for every request of add-user.js. *)
Definition same_draws (k : nat) : draws :=
  Draws 5000 (entropy x22) (entropy x33) (entropy x44).

(** The documents of the run are whole numbers: [JSON.stringify] writes
    one in decimal and [JSON.parse] reads that text back; a text that is
    no whole number as [JSON.stringify] writes it has no value in this
    run and is refused. *)
Definition stringify_number (n : Z) : result (option string) :=
  Ok (Some (number_text n)).

Definition parse_number (text : string) : result Z :=
  match NilZero.int_of_string text with
  | Some i =>
      if String.eqb (number_text (Z.of_int i)) text then Ok (Z.of_int i)
      else Throw (Error "not a whole number")
  | None => Throw (Error "not a whole number")
  end.

(** A retired record whose key material is no blob of [encryptKey]. *)
Definition unreadable_row : master_key_row := MasterKeyRow "key-0" [] 500 retired None.

Definition unreadable_db : db :=
  set_master_keys db3 (unreadable_row :: master_keys db3).

End Runs.

(** ** The model against published and computed values *)

Module AESTest.
Import GF256 AES Node Scenario.

Example sbox_53 : sbox x53 = xed.
Proof. reflexivity. Qed.

(** FIPS-197, appendix C.3. *)
Example fips197_c3 :
  list_of_state (cipher (key_expansion (key_of_list fips_key)) (state_of_list fips_plain))
    = fips_cipher.
Proof. vm_compute. reflexivity. Qed.

Example fips197_c3_inv :
  list_of_state (inv_cipher (key_expansion (key_of_list fips_key))
                   (state_of_list fips_cipher))
    = fips_plain.
Proof. vm_compute. reflexivity. Qed.

(** AES-256-CBC with automatic padding, as OpenSSL computes it:
    [openssl enc -aes-256-cbc -K 0001..1f -iv 0f0e..00] of [secret-1]. *)
Example cbc_secret_1 :
  aes256cbc_encrypt fips_key (from_hex "0f0e0d0c0b0a09080706050403020100")
    (list_byte_of_string "secret-1")
    = Ok (from_hex "a68dfb03fc8d016bcf5a505afec553e9").
Proof. vm_compute. reflexivity. Qed.

Example cbc_secret_1_back :
  aes256cbc_decrypt fips_key (from_hex "0f0e0d0c0b0a09080706050403020100")
    (from_hex "a68dfb03fc8d016bcf5a505afec553e9")
    = Ok (list_byte_of_string "secret-1").
Proof. vm_compute. reflexivity. Qed.

(** Sixteen bytes that are no ciphertext of padded data, and an input
    that is no whole number of blocks. *)
Example cbc_bad_decrypt :
  aes256cbc_decrypt fips_key (from_hex "0f0e0d0c0b0a09080706050403020100")
    (list_byte_of_string "0123456789abcdef")
    = Throw ERR_OSSL_BAD_DECRYPT.
Proof. vm_compute. reflexivity. Qed.

Example cbc_wrong_length :
  aes256cbc_decrypt fips_key (from_hex "0f0e0d0c0b0a09080706050403020100")
    (list_byte_of_string "0123456789abcde")
    = Throw ERR_OSSL_WRONG_FINAL_BLOCK_LENGTH.
Proof. vm_compute. reflexivity. Qed.

Example cbc_empty_input :
  aes256cbc_decrypt fips_key (from_hex "0f0e0d0c0b0a09080706050403020100") []
    = Throw ERR_OSSL_WRONG_FINAL_BLOCK_LENGTH.
Proof. vm_compute. reflexivity. Qed.

End AESTest.

(** ** The inverse cipher undoes the cipher *)

Module AESFacts.
Import GF256 AES.

Lemma to_bits_inj (a b : byte) : Byte.to_bits a = Byte.to_bits b -> a = b.
Proof.
  intros H. rewrite <- (Byte.of_bits_to_bits a), <- (Byte.of_bits_to_bits b).
  now rewrite H.
Qed.

Lemma to_bits_bxor a b :
  Byte.to_bits (bxor a b) = xor_bits (Byte.to_bits a) (Byte.to_bits b).
Proof. apply Byte.to_bits_of_bits. Qed.

Lemma to_bits_gmul c x :
  Byte.to_bits (gmul c x) = gmul_bits (Byte.to_bits c) (Byte.to_bits x).
Proof. apply Byte.to_bits_of_bits. Qed.

(** Reduce an equation between bytes to one between bit tuples over
    boolean variables, and decide it. *)
Ltac bits_of x :=
  let p := fresh "p" in
  generalize (Byte.to_bits x); intros p;
  destruct p as (?&?&?&?&?&?&?&?).

Ltac byte_eq :=
  apply to_bits_inj;
  unfold xor4;
  repeat (rewrite to_bits_bxor || rewrite to_bits_gmul);
  repeat match goal with
         | |- context [Byte.to_bits ?x] => is_var x; bits_of x
         end;
  cbv [xor_bits gmul_bits xtime_bits sel_bits zero_bits Byte.to_bits andb];
  repeat (f_equal; [btauto|]); try btauto.

Lemma bxor_cancel_r a b : bxor (bxor a b) b = a.
Proof. byte_eq. Qed.

Lemma bxor_comm a b : bxor a b = bxor b a.
Proof. byte_eq. Qed.

Lemma bxor_assoc a b c : bxor a (bxor b c) = bxor (bxor a b) c.
Proof. byte_eq. Qed.

Lemma bxor_0_r a : bxor a x00 = a.
Proof. byte_eq. Qed.

Lemma bxor_nilpotent a : bxor a a = x00.
Proof. byte_eq. Qed.

Lemma inv_sbox_sbox b : inv_sbox (sbox b) = b.
Proof. destruct b; reflexivity. Qed.

Lemma inv_mix_column_mix_column w : inv_mix_column (mix_column w) = w.
Proof.
  destruct w as [[[s0 s1] s2] s3]. unfold mix_column, inv_mix_column.
  repeat f_equal; byte_eq.
Qed.

Lemma mix_column_inv_mix_column w : mix_column (inv_mix_column w) = w.
Proof.
  destruct w as [[[s0 s1] s2] s3]. unfold mix_column, inv_mix_column.
  repeat f_equal; byte_eq.
Qed.

Lemma sbox_inv_sbox b : sbox (inv_sbox b) = b.
Proof. destruct b; reflexivity. Qed.

Lemma word_xor_cancel k w : word_xor (word_xor w k) k = w.
Proof.
  destruct w as [[[a b] c] d], k as [[[a' b'] c'] d']. cbn.
  now rewrite !bxor_cancel_r.
Qed.

Lemma add_round_key_cancel k s : add_round_key k (add_round_key k s) = s.
Proof.
  destruct s as [[[a b] c] d], k as [[[a' b'] c'] d']. cbn.
  now rewrite !word_xor_cancel.
Qed.

Lemma word_xor_comm v w : word_xor v w = word_xor w v.
Proof.
  destruct v as [[[a b] c] d], w as [[[a' b'] c'] d']. cbn.
  now rewrite (bxor_comm a), (bxor_comm b), (bxor_comm c), (bxor_comm d).
Qed.

Lemma add_round_key_comm k s : add_round_key k s = add_round_key s k.
Proof.
  destruct s as [[[a b] c] d], k as [[[a' b'] c'] d']. cbn.
  now rewrite (word_xor_comm a), (word_xor_comm b), (word_xor_comm c),
    (word_xor_comm d).
Qed.

Lemma state_map_inv (f g : word -> word) s :
  (forall w, g (f w) = w) -> state_map g (state_map f s) = s.
Proof.
  intros H. destruct s as [[[a b] c] d]. cbn. now rewrite !H.
Qed.

Lemma word_map_inv (f g : byte -> byte) w :
  (forall b, g (f b) = b) -> word_map g (word_map f w) = w.
Proof.
  intros H. destruct w as [[[a b] c] d]. cbn. now rewrite !H.
Qed.

Lemma inv_sub_bytes_sub_bytes s : inv_sub_bytes (sub_bytes s) = s.
Proof.
  apply state_map_inv. intros w. apply word_map_inv, inv_sbox_sbox.
Qed.

Lemma sub_bytes_inv_sub_bytes s : sub_bytes (inv_sub_bytes s) = s.
Proof.
  apply state_map_inv. intros w. apply word_map_inv, sbox_inv_sbox.
Qed.

Lemma inv_shift_rows_shift_rows s : inv_shift_rows (shift_rows s) = s.
Proof.
  destruct s as [[[[[[a0 a1] a2] a3] [[[b0 b1] b2] b3]] [[[c0 c1] c2] c3]] [[[d0 d1] d2] d3]].
  reflexivity.
Qed.

Lemma shift_rows_inv_shift_rows s : shift_rows (inv_shift_rows s) = s.
Proof.
  destruct s as [[[[[[a0 a1] a2] a3] [[[b0 b1] b2] b3]] [[[c0 c1] c2] c3]] [[[d0 d1] d2] d3]].
  reflexivity.
Qed.

Lemma inv_mix_columns_mix_columns s : inv_mix_columns (mix_columns s) = s.
Proof. apply state_map_inv, inv_mix_column_mix_column. Qed.

Lemma mix_columns_inv_mix_columns s : mix_columns (inv_mix_columns s) = s.
Proof. apply state_map_inv, mix_column_inv_mix_column. Qed.

Lemma dec_enc_rounds ks : forall s, dec_rounds (enc_rounds s ks) ks = s.
Proof.
  induction ks as [|k ks IH]; intros s; [reflexivity|].
  destruct ks as [|k' ks].
  - cbn. now rewrite add_round_key_cancel, inv_shift_rows_shift_rows,
      inv_sub_bytes_sub_bytes.
  - change (enc_rounds s (k :: k' :: ks))
      with (enc_rounds (add_round_key k (mix_columns (shift_rows (sub_bytes s)))) (k' :: ks)).
    change (dec_rounds ?c (k :: k' :: ks))
      with (inv_sub_bytes (inv_shift_rows (inv_mix_columns
              (add_round_key k (dec_rounds c (k' :: ks)))))).
    now rewrite IH, add_round_key_cancel, inv_mix_columns_mix_columns,
      inv_shift_rows_shift_rows, inv_sub_bytes_sub_bytes.
Qed.

Lemma enc_dec_rounds ks : forall s, enc_rounds (dec_rounds s ks) ks = s.
Proof.
  induction ks as [|k ks IH]; intros s; [reflexivity|].
  destruct ks as [|k' ks].
  - cbn. now rewrite sub_bytes_inv_sub_bytes, shift_rows_inv_shift_rows,
      add_round_key_cancel.
  - change (dec_rounds s (k :: k' :: ks))
      with (inv_sub_bytes (inv_shift_rows (inv_mix_columns
              (add_round_key k (dec_rounds s (k' :: ks)))))).
    change (enc_rounds ?c (k :: k' :: ks))
      with (enc_rounds (add_round_key k (mix_columns (shift_rows (sub_bytes c)))) (k' :: ks)).
    now rewrite sub_bytes_inv_sub_bytes, shift_rows_inv_shift_rows,
      mix_columns_inv_mix_columns, add_round_key_cancel, IH.
Qed.

(** The inverse cipher recovers every block, for every key schedule. *)
Theorem inv_cipher_cipher rks s : inv_cipher rks (cipher rks s) = s.
Proof.
  destruct rks as [|k0 ks]; [reflexivity|]. unfold cipher, inv_cipher.
  now rewrite dec_enc_rounds, add_round_key_cancel.
Qed.

Theorem cipher_inv_cipher rks s : cipher rks (inv_cipher rks s) = s.
Proof.
  destruct rks as [|k0 ks]; [reflexivity|]. unfold cipher, inv_cipher.
  now rewrite add_round_key_cancel, enc_dec_rounds.
Qed.

Lemma inv_cipher_inj rks s t : inv_cipher rks s = inv_cipher rks t -> s = t.
Proof.
  intros H. rewrite <- (cipher_inv_cipher rks s), <- (cipher_inv_cipher rks t).
  now rewrite H.
Qed.

Lemma state_of_list_of_state s : state_of_list (list_of_state s) = s.
Proof.
  destruct s as [[[[[[a0 a1] a2] a3] [[[b0 b1] b2] b3]] [[[c0 c1] c2] c3]] [[[d0 d1] d2] d3]].
  reflexivity.
Qed.

Lemma length_list_of_state s : length (list_of_state s) = 16.
Proof.
  destruct s as [[[[[[a0 a1] a2] a3] [[[b0 b1] b2] b3]] [[[c0 c1] c2] c3]] [[[d0 d1] d2] d3]].
  reflexivity.
Qed.

Lemma list_of_state_of_list l : length l = 16 -> list_of_state (state_of_list l) = l.
Proof.
  intros H. do 17 (destruct l as [|? l]; try discriminate H). reflexivity.
Qed.

Lemma state_of_list_app s l : state_of_list (list_of_state s ++ l) = s.
Proof.
  destruct s as [[[[[[a0 a1] a2] a3] [[[b0 b1] b2] b3]] [[[c0 c1] c2] c3]] [[[d0 d1] d2] d3]].
  reflexivity.
Qed.

End AESFacts.

(** ** CBC mode and the automatic padding *)

Module NodeFacts.
Import GF256 AES AESFacts Node.

Lemma to_nat_byte_of_nat n : n <= 255 -> Byte.to_nat (byte_of_nat n) = n.
Proof.
  intros H. unfold byte_of_nat.
  pose proof (Byte.to_of_nat_option_map n) as E.
  destruct (Byte.of_nat n) as [b|]; cbn in E.
  - destruct (Nat.leb_spec n 255); [congruence|lia].
  - destruct (Nat.leb_spec n 255); [discriminate|lia].
Qed.

Lemma byte_eqb_refl b : Byte.eqb b b = true.
Proof. now apply Byte.byte_dec_lb. Qed.

Lemma forallb_replicate_eqb n b : forallb (Byte.eqb b) (replicate n b) = true.
Proof. induction n as [|n IH]; cbn; [reflexivity|]. now rewrite byte_eqb_refl. Qed.

Lemma last_replicate_S {A} n (x : A) : last (replicate (S n) x) = Some x.
Proof.
  induction n as [|n IH]; [reflexivity|].
  change (replicate (S (S n)) x) with (x :: replicate (S n) x).
  now rewrite last_cons, IH.
Qed.

Lemma pad_count_bounds (len : nat) : 1 <= 16 - len mod 16 <= 16.
Proof. pose proof (Nat.mod_upper_bound len 16). lia. Qed.

Lemma length_evp_pad d : length (evp_pad d) = 16 * (length d / 16 + 1).
Proof.
  unfold evp_pad. rewrite length_app, length_replicate.
  pose proof (Nat.div_mod_eq (length d) 16).
  pose proof (Nat.mod_upper_bound (length d) 16). lia.
Qed.

Lemma evp_pad_blocks d : length (evp_pad d) / 16 = length d / 16 + 1.
Proof. rewrite length_evp_pad, Nat.mul_comm. now apply Nat.div_mul. Qed.

Lemma evp_unpad_pad d : evp_unpad (evp_pad d) = Ok d.
Proof.
  unfold evp_pad, evp_unpad.
  pose proof (pad_count_bounds (length d)) as Hn.
  set (n := 16 - length d mod 16) in *.
  destruct n as [|m] eqn:En; [lia|].
  rewrite last_app, last_replicate_S.
  rewrite to_nat_byte_of_nat by lia.
  destruct (Nat.eqb_spec (S m) 0) as [|_]; [lia|].
  destruct (Nat.ltb_spec 16 (S m)) as [|_]; [lia|]. cbn [orb].
  rewrite length_app, length_replicate.
  replace (length d + S m - S m) with (length d) by lia.
  now rewrite drop_app_length, take_app_length, forallb_replicate_eqb.
Qed.

Lemma length_cbc_encrypt_blocks n rks : forall prev data,
  length (cbc_encrypt_blocks n rks prev data) = 16 * n.
Proof.
  induction n as [|n IH]; intros prev data; cbn [cbc_encrypt_blocks]; [reflexivity|].
  rewrite length_app, length_list_of_state, IH. lia.
Qed.

Lemma length_cbc_decrypt_blocks n rks : forall prev ct,
  length (cbc_decrypt_blocks n rks prev ct) = 16 * n.
Proof.
  induction n as [|n IH]; intros prev ct; cbn [cbc_decrypt_blocks]; [reflexivity|].
  rewrite length_app, length_list_of_state, IH. lia.
Qed.

Lemma xor_state_cancel p s : xor_state p (xor_state p s) = s.
Proof. apply add_round_key_cancel. Qed.

Lemma take_list_of_state_app s l : take 16 (list_of_state s ++ l) = list_of_state s.
Proof. rewrite <- (length_list_of_state s) at 1. apply take_app_length. Qed.

Lemma drop_list_of_state_app s l : drop 16 (list_of_state s ++ l) = l.
Proof. rewrite <- (length_list_of_state s) at 1. apply drop_app_length. Qed.

(** CBC decryption undoes CBC encryption on whole blocks. *)
Lemma cbc_decrypt_encrypt n rks : forall prev data,
  length data = 16 * n ->
  cbc_decrypt_blocks n rks prev (cbc_encrypt_blocks n rks prev data) = data.
Proof.
  induction n as [|n IH]; intros prev data Hlen.
  - destruct data; [reflexivity|discriminate].
  - cbn [cbc_encrypt_blocks cbc_decrypt_blocks].
    rewrite take_list_of_state_app, drop_list_of_state_app, state_of_list_of_state.
    rewrite inv_cipher_cipher, xor_state_cancel.
    rewrite IH by (rewrite length_drop; lia).
    rewrite list_of_state_of_list by (rewrite length_take; lia).
    apply take_drop.
Qed.

Lemma check_key_iv_ok key iv :
  check_key_iv key iv = Ok tt <-> length key = 32 /\ length iv = 16.
Proof.
  unfold check_key_iv.
  destruct (Nat.eqb_spec (length iv) 16), (Nat.eqb_spec (length key) 32);
    cbn; split; intros; try discriminate; try tauto; lia.
Qed.

Lemma check_key_iv_cases key iv :
  check_key_iv key iv = Ok tt \/ exists e, check_key_iv key iv = Throw e.
Proof. destruct (check_key_iv key iv) as [[]|e]; eauto. Qed.

Lemma aes256cbc_encrypt_ok key iv data :
  length key = 32 -> length iv = 16 ->
  aes256cbc_encrypt key iv data =
    Ok (cbc_encrypt_blocks (length data / 16 + 1) (key_expansion (key_of_list key))
          (state_of_list iv) (evp_pad data)).
Proof.
  intros Hk Hiv. unfold aes256cbc_encrypt.
  rewrite (proj2 (check_key_iv_ok key iv)) by tauto. cbn [mbind result_bind].
  now rewrite evp_pad_blocks.
Qed.

Lemma aes256cbc_encrypt_inv key iv data ct :
  aes256cbc_encrypt key iv data = Ok ct ->
  length key = 32 /\ length iv = 16 /\
  ct = cbc_encrypt_blocks (length data / 16 + 1) (key_expansion (key_of_list key))
         (state_of_list iv) (evp_pad data).
Proof.
  intros H. unfold aes256cbc_encrypt in H.
  destruct (check_key_iv key iv) as [[]|e] eqn:E; [|discriminate].
  apply check_key_iv_ok in E as [Hk Hiv]. cbn [mbind result_bind] in H.
  rewrite evp_pad_blocks in H. split; [|split]; congruence.
Qed.

(** Decrypting what [aes256cbc_encrypt] produced, under the same key and
    IV, succeeds and gives the data back. *)
Lemma aes256cbc_decrypt_encrypt key iv data ct :
  aes256cbc_encrypt key iv data = Ok ct ->
  aes256cbc_decrypt key iv ct = Ok data.
Proof.
  intros H. apply aes256cbc_encrypt_inv in H as (Hk & Hiv & ->).
  unfold aes256cbc_decrypt.
  rewrite (proj2 (check_key_iv_ok key iv)) by tauto. cbn [mbind result_bind].
  rewrite length_cbc_encrypt_blocks.
  set (n := length data / 16 + 1).
  assert (E : 16 * n / 16 = n) by (rewrite Nat.mul_comm; now apply Nat.div_mul).
  assert (M : (16 * n) mod 16 = 0) by (rewrite Nat.mul_comm; now apply Nat.Div0.mod_mul).
  rewrite E, M.
  destruct (Nat.eqb_spec (16 * n) 0) as [Hz|_]; [unfold n in Hz; lia|].
  cbn [orb negb Nat.eqb].
  rewrite cbc_decrypt_encrypt by (rewrite length_evp_pad; reflexivity).
  apply evp_unpad_pad.
Qed.

Lemma length_aes256cbc_encrypt key iv data ct :
  aes256cbc_encrypt key iv data = Ok ct ->
  length ct = 16 * (length data / 16 + 1).
Proof.
  intros H. apply aes256cbc_encrypt_inv in H as (_ & _ & ->).
  apply length_cbc_encrypt_blocks.
Qed.

End NodeFacts.

(** ** Buffers, padding and hex text *)

Module BufferFacts.
Import GF256 AES Node NodeFacts Vault.

Lemma length_randomBytes n entropy : length (randomBytes n entropy) = n.
Proof.
  unfold randomBytes. rewrite length_take, length_app, length_replicate. lia.
Qed.

Lemma slice_0_16 buf : slice buf 0 16 = take 16 buf.
Proof.
  unfold slice, slice_index. cbn [Z.ltb Z.compare].
  change (Z.to_nat 16) with 16. change (Z.to_nat 0) with 0.
  rewrite Nat.min_0_r, Nat.sub_0_r, drop_0.
  destruct (Nat.le_ge_cases (length buf) 16).
  - rewrite Nat.min_l by lia. now rewrite !take_ge by lia.
  - now rewrite Nat.min_r by lia.
Qed.

Lemma slice_from_16 buf : slice_from buf 16 = drop 16 buf.
Proof.
  unfold slice_from, slice_index. cbn [Z.ltb Z.compare].
  change (Z.to_nat 16) with 16.
  destruct (Nat.le_ge_cases (length buf) 16).
  - rewrite Nat.min_l by lia. now rewrite !drop_ge by lia.
  - now rewrite Nat.min_r by lia.
Qed.

Lemma slice_iv_app iv c : length iv = 16 -> slice (iv ++ c) 0 16 = iv.
Proof. intros H. rewrite slice_0_16, <- H. apply take_app_length. Qed.

Lemma slice_from_iv_app iv c : length iv = 16 -> slice_from (iv ++ c) 16 = c.
Proof. intros H. rewrite slice_from_16, <- H. apply drop_app_length. Qed.

(** [buf.slice(0, -n)] for a byte [n]: all but the last [n] bytes, nothing
    when [n] is 0 or exceeds the length. *)
Lemma slice_0_neg buf (b : byte) :
  slice buf 0 (neg_index (Some b)) =
    if Byte.to_nat b =? 0 then [] else take (length buf - Byte.to_nat b) buf.
Proof.
  unfold slice, neg_index, slice_index. cbn [Z.ltb Z.compare].
  rewrite Nat.min_0_r, Nat.sub_0_r, drop_0.
  destruct (Nat.eqb_spec (Byte.to_nat b) 0) as [E|E].
  - rewrite E. change (- Z.of_nat 0)%Z with 0%Z. cbn [Z.ltb Z.compare].
    change (Z.to_nat 0) with 0. now rewrite Nat.min_0_r.
  - destruct (Z.ltb_spec (- Z.of_nat (Byte.to_nat b)) 0); [|lia].
    f_equal. lia.
Qed.

Lemma buf_index_last buf : buf_index buf (Z.of_nat (length buf) - 1) = last buf.
Proof.
  unfold buf_index. destruct buf as [|x buf']; [reflexivity|].
  destruct (Z.ltb_spec (Z.of_nat (length (x :: buf')) - 1) 0) as [H|H];
    [cbn [length] in H; lia|].
  replace (Z.to_nat (Z.of_nat (length (x :: buf')) - 1)) with (length buf')
    by (cbn [length]; lia).
  rewrite last_lookup. reflexivity.
Qed.

Lemma pkcs7Unpad_spec buf :
  pkcs7Unpad buf =
    match last buf with
    | None => []
    | Some b => if Byte.to_nat b =? 0 then []
                else take (length buf - Byte.to_nat b) buf
    end.
Proof.
  unfold pkcs7Unpad. rewrite buf_index_last.
  destruct (last buf) as [b|] eqn:E; [apply slice_0_neg|].
  apply last_None in E. now subst.
Qed.

Lemma pkcs7Unpad_pkcs7Pad p : pkcs7Unpad (pkcs7Pad p) = p.
Proof.
  rewrite pkcs7Unpad_spec. unfold pkcs7Pad.
  pose proof (pad_count_bounds (length p)) as Hn.
  set (n := 16 - length p mod 16) in *.
  destruct n as [|m] eqn:En; [lia|].
  rewrite last_app, last_replicate_S, to_nat_byte_of_nat by lia.
  cbn [Nat.eqb].
  rewrite length_app, length_replicate.
  replace (length p + S m - S m) with (length p) by lia.
  apply take_app_length.
Qed.

Lemma length_pkcs7Pad p : length (pkcs7Pad p) = 16 * (length p / 16 + 1).
Proof. apply length_evp_pad. Qed.

Lemma hex_value_digit n : n < 16 -> hex_value (hex_digit n) = Some n.
Proof.
  intros H. do 16 (destruct n as [|n]; [reflexivity|]). lia.
Qed.

Lemma byte_of_nat_to_nat b : byte_of_nat (Byte.to_nat b) = b.
Proof. unfold byte_of_nat. now rewrite Byte.of_to_nat. Qed.

Lemma from_hex_toString_hex buf : from_hex (toString_hex buf) = buf.
Proof.
  induction buf as [|b buf IH]; [reflexivity|].
  cbn [toString_hex from_hex].
  pose proof (Byte.to_nat_bounded b) as Hb.
  rewrite !hex_value_digit.
  - rewrite IH. f_equal.
    rewrite <- (byte_of_nat_to_nat b) at 3. f_equal.
    pose proof (Nat.div_mod_eq (Byte.to_nat b) 16). lia.
  - apply Nat.mod_upper_bound. lia.
  - apply Nat.Div0.div_lt_upper_bound. lia.
Qed.

Lemma truthy_toString_hex buf : buf <> [] -> Auth.truthy (Some (toString_hex buf)) = true.
Proof. destruct buf; [congruence|reflexivity]. Qed.

End BufferFacts.

(** ** The vault's encryption and the key server's retrieval *)

Module VaultFacts.
Import GF256 AES Node NodeStrings NodeFacts Db MasterKeyManager Auth Vault KeyServer.
Import BufferFacts.

Lemma bind_ok {A B} (r : result A) (f : A -> result B) (b : B) :
  r ≫= f = Ok b -> exists a, r = Ok a /\ f a = Ok b.
Proof. destruct r as [a|e]; cbn; [eauto|discriminate]. Qed.

Lemma encrypt_payload_inv dekBuf p entropy blob :
  encrypt_payload dekBuf p entropy = Ok blob ->
  exists c, aes256cbc_encrypt dekBuf (randomBytes 16 entropy) (pkcs7Pad p) = Ok c /\
            blob = randomBytes 16 entropy ++ c.
Proof.
  unfold encrypt_payload. intros H. apply bind_ok in H as (c & Hc & H).
  exists c. split; [assumption|congruence].
Qed.

Lemma encrypt_payload_ok dekBuf p entropy :
  length dekBuf = 32 -> exists blob, encrypt_payload dekBuf p entropy = Ok blob.
Proof.
  intros H. unfold encrypt_payload.
  rewrite aes256cbc_encrypt_ok by (auto using length_randomBytes). cbn. eauto.
Qed.

Lemma wrap_dek_ok masterKey dekBuf entropy :
  length masterKey = 32 -> exists blob, wrap_dek masterKey dekBuf entropy = Ok blob.
Proof.
  intros H. unfold wrap_dek.
  rewrite aes256cbc_encrypt_ok by (auto using length_randomBytes). cbn. eauto.
Qed.

(** The bytes [decrypt_payload_bytes] returns are the unpadded CBC plaintext. *)
Lemma decrypt_payload_unfold blob dek :
  decrypt_payload_bytes blob dek =
    paddedPlain ← aes256cbc_decrypt (from_hex dek) (take 16 blob) (drop 16 blob);
    Ok (pkcs7Unpad paddedPlain).
Proof. unfold decrypt_payload_bytes. now rewrite slice_0_16, slice_from_16. Qed.

(** What [GET /api/keys] makes of the bytes: their text when there are
    bytes, the same error when there are none. *)
Lemma decrypt_payload_ok blob dek unpadded :
  decrypt_payload_bytes blob dek = Ok unpadded ->
  decrypt_payload blob dek = Ok (toString_utf8 unpadded).
Proof. intros H. unfold decrypt_payload. now rewrite H. Qed.

Lemma decrypt_payload_throw blob dek e :
  decrypt_payload_bytes blob dek = Throw e -> decrypt_payload blob dek = Throw e.
Proof. intros H. unfold decrypt_payload. now rewrite H. Qed.

Lemma unwrap_dek_unfold masterKey blob :
  unwrap_dek masterKey blob =
    paddedDek ← aes256cbc_decrypt masterKey (take 16 blob) (drop 16 blob);
    Ok (pkcs7Unpad paddedDek).
Proof. unfold unwrap_dek. now rewrite slice_0_16, slice_from_16. Qed.

Lemma decrypt_encrypt_payload dek p entropy blob :
  encrypt_payload dek p entropy = Ok blob ->
  decrypt_payload_bytes blob (toString_hex dek) = Ok p.
Proof.
  intros H. apply encrypt_payload_inv in H as (c & Hc & ->).
  rewrite decrypt_payload_unfold, from_hex_toString_hex.
  rewrite <- (length_randomBytes 16 entropy) at 1 3.
  rewrite take_app_length, drop_app_length.
  rewrite (aes256cbc_decrypt_encrypt _ _ _ _ Hc). cbn.
  now rewrite pkcs7Unpad_pkcs7Pad.
Qed.

(** Unwrapping what [wrap_dek] produced under the same master key gives the
    DEK back. *)
Lemma unwrap_wrap_dek masterKey dek entropy blob :
  wrap_dek masterKey dek entropy = Ok blob ->
  unwrap_dek masterKey blob = Ok dek.
Proof.
  unfold wrap_dek. intros H. apply bind_ok in H as (c & Hc & H).
  injection H as <-.
  rewrite unwrap_dek_unfold.
  rewrite <- (length_randomBytes 16 entropy) at 1 3.
  rewrite take_app_length, drop_app_length.
  rewrite (aes256cbc_decrypt_encrypt _ _ _ _ Hc). cbn.
  now rewrite pkcs7Unpad_pkcs7Pad.
Qed.

Lemma encrypt_inv ROOT_KEY d data dek entropy entropy2 ek edk :
  encrypt ROOT_KEY d data dek entropy entropy2 = EncryptOk ek edk ->
  exists p dek_text mk,
    data = Some (Base64 p) /\ dek = Some dek_text /\
    getActiveMasterKey ROOT_KEY d = Ok mk /\
    length (keyMaterial mk) = 32 /\ length (from_hex dek_text) = 32 /\
    encrypt_payload (from_hex dek_text) p entropy = Ok ek /\
    wrap_dek (keyMaterial mk) (from_hex dek_text) entropy2 = Ok edk.
Proof.
  unfold encrypt.
  destruct data as [[|p]|]; cbn [truthy_buf negb orb]; try discriminate.
  destruct dek as [[|c s]|]; cbn [truthy negb orb]; try discriminate.
  cbn [default from_option id from_base64]. unfold encrypt_body.
  destruct (getActiveMasterKey ROOT_KEY d) as [mk|e]; cbn [mbind result_bind];
    [|discriminate].
  destruct (Nat.eqb_spec (length (keyMaterial mk)) 32) as [Hk|]; cbn [negb];
    [|discriminate].
  destruct (Nat.eqb_spec (length (from_hex (String c s))) 32) as [Hd|]; cbn [negb];
    [|discriminate].
  destruct (encrypt_payload _ _ _) as [ek'|] eqn:E1; cbn [mbind result_bind];
    [|discriminate].
  destruct (wrap_dek _ _ _) as [edk'|] eqn:E2; cbn [mbind result_bind];
    [|discriminate].
  intros [= <- <-]. exists p, (String c s), mk. auto 10.
Qed.

(** Bytes that are the encoding of a string read back as that string. *)
Lemma toString_utf8_text text :
  utf8_text text -> toString_utf8 (list_byte_of_string text) = text.
Proof. exact id. Qed.

(** C6 (as amended). Round trip of the payload through the vault's
    payload encryption (lines 41-44: a random IV followed by the
    AES-256-CBC ciphertext of the PKCS#7-padded plaintext) and the key
    server's retrieval path (lines 121-129), for every byte string [p]
    and every 32-byte DEK: the bytes decrypted are exactly [p], and the
    path returns them read as UTF-8 text.  So a payload that is text,
    the bytes of a string, comes back as exactly that string; in any
    other [p] each ill-formed sequence comes back as U+FFFD.  The same
    holds of the [encrypted_key] of every successful
    [POST /api/encrypt]. *)
Theorem C6_payload_round_trip (p dek entropy : bytes) :
  length dek = 32 ->
  (exists blob,
     encrypt_payload dek p entropy = Ok blob /\
     decrypt_payload_bytes blob (toString_hex dek) = Ok p /\
     decrypt_payload blob (toString_hex dek) = Ok (toString_utf8 p) /\
     (forall text,
        utf8_text text -> p = list_byte_of_string text ->
        decrypt_payload blob (toString_hex dek) = Ok text)) /\
  (forall ROOT_KEY d entropy2 encrypted_key encrypted_dek,
     Vault.encrypt ROOT_KEY d (Some (Base64 p)) (Some (toString_hex dek))
         entropy entropy2
       = EncryptOk encrypted_key encrypted_dek ->
     decrypt_payload encrypted_key (toString_hex dek) = Ok (toString_utf8 p)).
Proof.
  intros Hlen. split.
  - destruct (encrypt_payload_ok dek p entropy Hlen) as [blob Hb].
    pose proof (decrypt_encrypt_payload _ _ _ _ Hb) as Hback.
    assert (Htext : decrypt_payload blob (toString_hex dek) = Ok (toString_utf8 p)).
    { unfold decrypt_payload. now rewrite Hback. }
    exists blob. split; [assumption|]. split; [assumption|]. split; [assumption|].
    intros text Htxt ->. now rewrite Htext, (toString_utf8_text _ Htxt).
  - intros ROOT_KEY d entropy2 ek edk H.
    apply encrypt_inv in H as (p' & dt & mk & [= <-] & [= <-] & _ & _ & _ & H & _).
    rewrite from_hex_toString_hex in H.
    unfold decrypt_payload. now rewrite (decrypt_encrypt_payload _ _ _ _ H).
Qed.

Lemma getActiveMasterKey_ext ROOT_KEY d d' :
  master_keys d' = master_keys d ->
  getActiveMasterKey ROOT_KEY d' = getActiveMasterKey ROOT_KEY d.
Proof. unfold getActiveMasterKey. now intros ->. Qed.

Lemma post_verify_ok_truthy jwt_verify token reply :
  post_verify jwt_verify token = Ok reply -> truthy token = true.
Proof.
  unfold post_verify. destruct (truthy token); [reflexivity|discriminate].
Qed.

Lemma aes256cbc_decrypt_ok_lengths key iv ct p :
  aes256cbc_decrypt key iv ct = Ok p -> length key = 32 /\ length iv = 16.
Proof.
  unfold aes256cbc_decrypt. intros H.
  destruct (check_key_iv key iv) as [[]|e] eqn:E; [|discriminate].
  now apply check_key_iv_ok.
Qed.

(** The reply of [POST /api/decrypt-dek] once the token is verified and
    carries an id. *)
Lemma decrypt_dek_verified ROOT_KEY jwt_verify d authorization blob reply :
  post_verify jwt_verify (bearer_token authorization) = Ok reply ->
  truthy (jwt_id (payload reply)) = true ->
  decrypt_dek ROOT_KEY jwt_verify d authorization (Some (Base64 blob)) =
    match decrypt_dek_body ROOT_KEY d blob with
    | Ok dekHex => DekOk dekHex
    | Throw _ => Status 500 "Decryption failed"
    end.
Proof.
  intros Hv Hid. unfold decrypt_dek.
  rewrite (post_verify_ok_truthy _ _ _ Hv), Hv, Hid. reflexivity.
Qed.

(** C10. [POST /api/decrypt-dek] does not check the length of the DEK it
    recovers: for a verified token with an id and every blob whose CBC
    decryption under the active master key succeeds, the reply is the hex
    text of the unpadded bytes, whatever their number; [POST /api/encrypt]
    answers every DEK that is not 32 bytes long with an error status. *)
Theorem C10_decrypt_dek_no_length_check ROOT_KEY jwt_verify d authorization
    blob reply mk padded :
  post_verify jwt_verify (bearer_token authorization) = Ok reply ->
  truthy (jwt_id (payload reply)) = true ->
  getActiveMasterKey ROOT_KEY d = Ok mk ->
  aes256cbc_decrypt (keyMaterial mk) (slice blob 0 16) (slice_from blob 16)
    = Ok padded ->
  decrypt_dek ROOT_KEY jwt_verify d authorization (Some (Base64 blob))
    = DekOk (toString_hex (pkcs7Unpad padded)) /\
  (forall data dek entropy entropy2,
     length (from_hex dek) <> 32 ->
     exists code msg,
       Vault.encrypt ROOT_KEY d data (Some dek) entropy entropy2 = Status code msg).
Proof.
  intros Hv Hid Hmk Hdec.
  pose proof (aes256cbc_decrypt_ok_lengths _ _ _ _ Hdec) as [Hk Hiv].
  split.
  - rewrite (decrypt_dek_verified _ _ _ _ _ _ Hv Hid).
    unfold decrypt_dek_body, unwrap_dek. rewrite Hmk. cbn [mbind result_bind].
    rewrite Hk, Hdec. reflexivity.
  - intros data dek entropy entropy2 Hlen. unfold Vault.encrypt.
    destruct (negb (truthy_buf data) || negb (truthy (Some dek))); [eauto|].
    unfold encrypt_body. rewrite Hmk. cbn [mbind result_bind default from_option id].
    rewrite Hk. cbn [Nat.eqb negb].
    destruct (Nat.eqb_spec (length (from_hex dek)) 32); [contradiction|].
    cbn [negb]. eauto.
Qed.

(** C1 (as amended). [POST /api/decrypt-dek] returns no DEK unless the
    token verifies and its payload carries an id: otherwise the request is
    rejected, with 400 'Missing fields' when the token or the blob is
    missing and with 401 when both are present, whatever the blob.  The
    token's subject is not compared with the owner of any envelope: the
    reply is the same for every content of the envelope table, and a
    verified token with an id is answered with the unwrapped DEK of the
    blob it sends. *)
Theorem C1_gate_checks_token_only ROOT_KEY jwt_verify d authorization encrypted_dek :
  (truthy (bearer_token authorization) = false \/ truthy_buf encrypted_dek = false ->
   decrypt_dek ROOT_KEY jwt_verify d authorization encrypted_dek
     = Status 400 "Missing fields") /\
  ((forall reply,
      post_verify jwt_verify (bearer_token authorization) = Ok reply ->
      truthy (jwt_id (payload reply)) = false) ->
   exists code msg,
     decrypt_dek ROOT_KEY jwt_verify d authorization encrypted_dek = Status code msg /\
     (code = 400 \/ code = 401) /\
     (truthy (bearer_token authorization) = true ->
      truthy_buf encrypted_dek = true -> code = 401)) /\
  (forall d',
     master_keys d' = master_keys d ->
     decrypt_dek ROOT_KEY jwt_verify d' authorization encrypted_dek =
     decrypt_dek ROOT_KEY jwt_verify d authorization encrypted_dek) /\
  (forall reply blob,
     encrypted_dek = Some (Base64 blob) ->
     post_verify jwt_verify (bearer_token authorization) = Ok reply ->
     truthy (jwt_id (payload reply)) = true ->
     decrypt_dek ROOT_KEY jwt_verify d authorization encrypted_dek =
       match decrypt_dek_body ROOT_KEY d blob with
       | Ok dekHex => DekOk dekHex
       | Throw _ => Status 500 "Decryption failed"
       end).
Proof.
  assert (H400 : truthy (bearer_token authorization) = false \/
                 truthy_buf encrypted_dek = false ->
                 decrypt_dek ROOT_KEY jwt_verify d authorization encrypted_dek
                   = Status 400 "Missing fields").
  { unfold decrypt_dek. intros [-> | ->]; [reflexivity|]. now rewrite orb_true_r. }
  split; [exact H400|]. split; [|split].
  - intros Hno.
    destruct (truthy (bearer_token authorization)) eqn:Ht.
    + destruct (truthy_buf encrypted_dek) eqn:Hb.
      * unfold decrypt_dek. rewrite Ht, Hb. cbn [negb orb].
        destruct (post_verify jwt_verify (bearer_token authorization))
          as [reply|e] eqn:Hv.
        -- rewrite (Hno reply eq_refl). cbn [negb]. eauto 10.
        -- eauto 10.
      * rewrite H400 by auto. exists 400, "Missing fields"%string.
        split; [reflexivity|]. split; [auto|]. intros _ [=].
    + rewrite H400 by auto. exists 400, "Missing fields"%string.
      split; [reflexivity|]. split; [auto|]. intros [=].
  - intros d' Hd. unfold decrypt_dek, decrypt_dek_body.
    now rewrite (getActiveMasterKey_ext ROOT_KEY d d' Hd).
  - intros reply blob -> Hv Hid. now apply decrypt_dek_verified with reply.
Qed.


End VaultFacts.

(** ** The master-key table *)

Module MasterKeyFacts.
Import GF256 AES Node NodeFacts Db MasterKeyManager BufferFacts.
Import Properties.

Lemma insert_active_inv t keyId encrypted now t' :
  insert_active t keyId encrypted now = Ok t' ->
  t' = t ++ [MasterKeyRow keyId encrypted now active None] /\
  Forall (fun r => mk_key_id r <> keyId) t /\ String.length keyId <= 64.
Proof.
  unfold insert_active.
  destruct (Nat.ltb_spec 64 (String.length keyId)); [discriminate|].
  destruct (existsb _ t) eqn:E; [discriminate|].
  intros [= <-]. split; [reflexivity|]. split; [|assumption].
  apply Forall_forall. intros r Hr Heq.
  apply not_true_iff_false in E. apply E.
  apply existsb_exists. exists r. split; [now apply list_elem_of_In|].
  now apply String.eqb_eq.
Qed.

Lemma retire_others_fresh t keyId :
  Forall (fun r => mk_key_id r <> keyId) t ->
  retire_others t keyId = map retire_row t.
Proof.
  induction 1 as [|r t Hr _ IH]; [reflexivity|].
  unfold retire_others in *. cbn [map]. rewrite IH. f_equal.
  apply String.eqb_neq in Hr. rewrite Hr. cbn [negb andb].
  destruct r as [k m c [] dsc]; reflexivity.
Qed.

Lemma retire_others_new t keyId encrypted now :
  Forall (fun r => mk_key_id r <> keyId) t ->
  retire_others (t ++ [MasterKeyRow keyId encrypted now active None]) keyId
    = map retire_row t ++ [MasterKeyRow keyId encrypted now active None].
Proof.
  intros H. pose proof (retire_others_fresh t keyId H) as E.
  unfold retire_others in *. rewrite map_app, E. f_equal.
  cbn. now rewrite String.eqb_refl.
Qed.

(** What a completed [addMasterKey] leaves in the table: the earlier
    records, all retired, followed by the new active record. *)
Lemma addMasterKey_inv ROOT_KEY keyId hexKey now entropy d d' :
  addMasterKey ROOT_KEY keyId hexKey now entropy d = Ok d' ->
  exists encrypted,
    encryptKey ROOT_KEY (from_hex hexKey) entropy = Ok encrypted /\
    master_keys d' =
      map retire_row (master_keys d) ++ [MasterKeyRow keyId encrypted now active None] /\
    kms_keys d' = kms_keys d /\
    Forall (fun r => mk_key_id r <> keyId) (master_keys d).
Proof.
  unfold addMasterKey. intros H.
  destruct (encryptKey ROOT_KEY (from_hex hexKey) entropy) as [encrypted|] eqn:E;
    [|discriminate].
  cbn [mbind result_bind] in H.
  destruct (insert_active _ _ _ _) as [t'|] eqn:Hi; [|discriminate].
  cbn [mbind result_bind] in H. injection H as <-.
  apply insert_active_inv in Hi as (-> & Hfresh & _).
  exists encrypted. cbn. rewrite retire_others_new by assumption. auto.
Qed.

Lemma addMasterKey_ok ROOT_KEY keyId hexKey now entropy d :
  length ROOT_KEY = 32 -> String.length keyId <= 64 ->
  Forall (fun r => mk_key_id r <> keyId) (master_keys d) ->
  exists d', addMasterKey ROOT_KEY keyId hexKey now entropy d = Ok d'.
Proof.
  intros Hr Hlen Hfresh. unfold addMasterKey, encryptKey.
  rewrite aes256cbc_encrypt_ok by (auto using length_randomBytes).
  cbn [mbind result_bind]. unfold insert_active.
  destruct (Nat.ltb_spec 64 (String.length keyId)); [lia|].
  destruct (existsb _ (master_keys d)) eqn:E.
  - apply existsb_exists in E as (r & Hin & Heq).
    apply String.eqb_eq in Heq. rewrite Forall_forall in Hfresh.
    apply list_elem_of_In in Hin. now destruct (Hfresh r Hin).
  - cbn. eauto.
Qed.

Lemma Forall_retired_map_retire t :
  Forall (fun x => mk_status x = retired) (map retire_row t).
Proof. apply Forall_forall. intros x Hx. apply list_elem_of_fmap in Hx as (y & -> & _). reflexivity. Qed.

Lemma addMasterKey_exactly_one_active ROOT_KEY keyId hexKey now entropy d d' :
  addMasterKey ROOT_KEY keyId hexKey now entropy d = Ok d' ->
  exactly_one_active (master_keys d').
Proof.
  intros H. apply addMasterKey_inv in H as (encrypted & _ & -> & _ & _).
  exists (map retire_row (master_keys d)),
    (MasterKeyRow keyId encrypted now active None), [].
  split; [reflexivity|]. split; [reflexivity|].
  rewrite app_nil_r. apply Forall_retired_map_retire.
Qed.

(** C3. Single Active invariant: for every finite sequence of
    [addMasterKey] calls run one after the other from an empty master-key
    table, after each call that completes exactly one record has status
    active and every other record has status retired; the active record is
    the one the call inserted. *)
Theorem C3_single_active ROOT_KEY (calls : list add_call) (c : add_call)
    (envelopes : kms_table) (d' : db) :
  add_call_result ROOT_KEY c (add_all ROOT_KEY calls (Database [] envelopes)) = Ok d' ->
  exactly_one_active (master_keys d') /\
  exists r, last (master_keys d') = Some r /\
            mk_key_id r = call_keyId c /\ mk_status r = active.
Proof.
  unfold add_call_result. intros H.
  set (d := add_all ROOT_KEY calls (Database [] envelopes)) in *.
  apply addMasterKey_inv in H as (encrypted & _ & Hkeys & _ & _).
  rewrite Hkeys. split.
  - exists (map retire_row (master_keys d)),
      (MasterKeyRow (call_keyId c) encrypted (call_now c) active None), [].
    rewrite app_nil_r. split; [reflexivity|]. split; [reflexivity|].
    apply Forall_retired_map_retire.
  - exists (MasterKeyRow (call_keyId c) encrypted (call_now c) active None).
    rewrite last_snoc. auto.
Qed.

(** A call that is rejected changes nothing, so the invariant also holds
    of every state a sequence of calls reaches once one call completed. *)
Lemma add_all_invariant ROOT_KEY calls d :
  master_keys d = [] \/ exactly_one_active (master_keys d) ->
  master_keys (add_all ROOT_KEY calls d) = [] \/
  exactly_one_active (master_keys (add_all ROOT_KEY calls d)).
Proof.
  revert d. induction calls as [|c calls IH]; intros d H; [exact H|].
  cbn [add_all foldl]. apply IH. unfold add_step, add_call_result.
  destruct (addMasterKey _ _ _ _ _ d) as [d'|] eqn:E; [|exact H].
  right. now apply addMasterKey_exactly_one_active in E.
Qed.

Lemma unwrap_rows_keyIds ROOT_KEY rows l :
  unwrap_rows ROOT_KEY rows = Ok l -> map keyId l = map mk_key_id rows.
Proof.
  revert l. induction rows as [|r rows IH]; intros l H; cbn in H.
  - now injection H as <-.
  - destruct (decryptKey ROOT_KEY (mk_key_material r)) as [m|]; [|discriminate].
    cbn in H. destruct (unwrap_rows ROOT_KEY rows) as [rest|]; [|discriminate].
    cbn in H. injection H as <-. cbn. f_equal. now apply IH.
Qed.

Lemma unwrap_rows_materials ROOT_KEY rows l :
  unwrap_rows ROOT_KEY rows = Ok l ->
  Forall2 (fun r k => keyId k = mk_key_id r /\
                      decryptKey ROOT_KEY (mk_key_material r) = Ok (keyMaterial k))
    rows l.
Proof.
  revert l. induction rows as [|r rows IH]; intros l H; cbn in H.
  - injection H as <-. constructor.
  - destruct (decryptKey ROOT_KEY (mk_key_material r)) as [m|] eqn:E; [|discriminate].
    cbn in H. destruct (unwrap_rows ROOT_KEY rows) as [rest|]; [|discriminate].
    cbn in H. injection H as <-. constructor; [now split|]. now apply IH.
Qed.

(** [getRetiredMasterKeys] returns every retired record, unwrapped under
    the root key, in the order of the table scan. *)
Lemma getRetiredMasterKeys_spec ROOT_KEY d l :
  getRetiredMasterKeys ROOT_KEY d = Ok l ->
  Forall2 (fun r k => keyId k = mk_key_id r /\
                      decryptKey ROOT_KEY (mk_key_material r) = Ok (keyMaterial k))
    (filter (fun r => mk_status r = retired) (master_keys d)) l.
Proof. apply unwrap_rows_materials. Qed.

End MasterKeyFacts.

(** ** The rotation run *)

Module RotateFacts.
Import GF256 AES Node NodeFacts Db MasterKeyManager Vault RotateMk BufferFacts.
Import Properties.

Lemma same_frame_refl r : same_frame r r.
Proof. unfold same_frame. auto. Qed.

Lemma same_frames_refl t : same_frames t t.
Proof.
  split; [reflexivity|]. induction (kt_rows t); constructor;
    auto using same_frame_refl.
Qed.

Lemma same_frames_trans t1 t2 t3 :
  same_frames t1 t2 -> same_frames t2 t3 -> same_frames t1 t3.
Proof.
  intros [Hc1 Hr1] [Hc2 Hr2]. split; [congruence|].
  revert Hr2. generalize (kt_rows t3). induction Hr1 as [|r1 r2 l1 l2 H12 _ IH];
    intros l3 Hr2; inversion Hr2 as [|? r3 ? l3' H23 Hr2']; subst; constructor.
  - destruct H12 as (? & ? & ? & ?), H23 as (? & ? & ? & ?).
    unfold same_frame. repeat split; congruence.
  - now apply IH.
Qed.

(** The [UPDATE] statement writes [encrypted_dek] and nothing else. *)
Lemma update_encrypted_dek_frame t newEncryptedDek k t' :
  update_encrypted_dek t newEncryptedDek k = Ok t' -> same_frames t t'.
Proof.
  unfold update_encrypted_dek.
  destruct (bool_decide _); [|discriminate]. intros [= <-].
  split; [reflexivity|]. cbn.
  induction (kt_rows t) as [|r rows IH]; cbn; constructor; [|exact IH].
  destruct (sql_eq _ _); unfold same_frame; cbn; auto.
Qed.

Lemma rotate_row_frame OLD NEW entropy t row :
  same_frames t (fst (rotate_row OLD NEW entropy t row)).
Proof.
  unfold rotate_row. destruct (rotate_try OLD NEW entropy t row) as [t'|e] eqn:E;
    cbn [fst]; [|apply same_frames_refl].
  unfold rotate_try in E.
  destruct (decryptDek _ _) as [dekBytes|]; [|discriminate].
  cbn [mbind result_bind] in E.
  destruct (encryptDek _ _ _) as [newEnc|]; [|discriminate].
  cbn [mbind result_bind] in E.
  now apply update_encrypted_dek_frame in E.
Qed.

Lemma rotate_rows_cons OLD NEW rand i t row rows :
  rotate_rows OLD NEW rand i t (row :: rows) =
    (fst (rotate_rows OLD NEW rand (S i) (fst (rotate_row OLD NEW (rand i) t row)) rows),
     snd (rotate_row OLD NEW (rand i) t row)
       :: snd (rotate_rows OLD NEW rand (S i) (fst (rotate_row OLD NEW (rand i) t row)) rows)).
Proof.
  cbn [rotate_rows]. destruct (rotate_row OLD NEW (rand i) t row) as [t1 entry].
  cbn [fst snd]. now destruct (rotate_rows OLD NEW rand (S i) t1 rows).
Qed.

Lemma rotate_rows_frame OLD NEW rand rows : forall i t,
  same_frames t (fst (rotate_rows OLD NEW rand i t rows)).
Proof.
  induction rows as [|row rows IH]; intros i t; [apply same_frames_refl|].
  rewrite rotate_rows_cons. cbn [fst].
  eapply same_frames_trans; [apply rotate_row_frame|apply IH].
Qed.

(** The loop over [rows1 ++ rows2] is the loop over [rows1] followed by
    the loop over [rows2] on the table the first one left. *)
Lemma rotate_rows_app OLD NEW rand rows1 rows2 : forall i t,
  rotate_rows OLD NEW rand i t (rows1 ++ rows2) =
    (fst (rotate_rows OLD NEW rand (i + length rows1)
            (fst (rotate_rows OLD NEW rand i t rows1)) rows2),
     snd (rotate_rows OLD NEW rand i t rows1)
       ++ snd (rotate_rows OLD NEW rand (i + length rows1)
                 (fst (rotate_rows OLD NEW rand i t rows1)) rows2)).
Proof.
  induction rows1 as [|row rows1 IH]; intros i t.
  - cbn [app length rotate_rows fst snd]. rewrite Nat.add_0_r.
    now destruct (rotate_rows OLD NEW rand i t rows2).
  - rewrite <- app_comm_cons, !rotate_rows_cons, IH. cbn [fst snd length].
    replace (S i + length rows1) with (i + S (length rows1)) by lia.
    reflexivity.
Qed.

(** Every row of the row set gets its line in the log, in order. *)
Lemma rotate_rows_log_keys OLD NEW rand rows : forall i t,
  map entry_key (snd (rotate_rows OLD NEW rand i t rows)) = map key_id rows.
Proof.
  induction rows as [|row rows IH]; intros i t; [reflexivity|].
  rewrite rotate_rows_cons. cbn [snd map]. rewrite IH. f_equal.
  unfold rotate_row. now destruct (rotate_try _ _ _ _ _).
Qed.

(** A row whose [try] block throws is logged as failed and leaves the
    table as it was. *)
Lemma rotate_row_failed OLD NEW entropy t row err :
  rotate_try OLD NEW entropy t row = Throw err ->
  rotate_row OLD NEW entropy t row = (t, Failed (key_id row) err).
Proof. unfold rotate_row. now intros ->. Qed.

(** With the [Buffer]s the key manager returns, [masterKey.padEnd] throws
    in every iteration. *)
Lemma rotate_try_buffer o NEW entropy t row :
  exists msg, rotate_try (JsBuffer o) NEW entropy t row = Throw (TypeError msg).
Proof.
  unfold rotate_try, decryptDek.
  destruct (encrypted_dek row); cbn; eauto.
Qed.

Lemma rotate_rows_buffer o NEW rand rows : forall i t,
  fst (rotate_rows (JsBuffer o) NEW rand i t rows) = t /\
  Forall is_type_error (snd (rotate_rows (JsBuffer o) NEW rand i t rows)).
Proof.
  induction rows as [|row rows IH]; intros i t; [split; [reflexivity|constructor]|].
  rewrite rotate_rows_cons.
  destruct (rotate_try_buffer o NEW (rand i) t row) as [msg Hmsg].
  rewrite (rotate_row_failed _ _ _ _ _ _ Hmsg). cbn [fst snd].
  destruct (IH (S i) t) as [Ht Hlog]. split; [assumption|].
  constructor; [|assumption]. now exists (key_id row), msg.
Qed.

Lemma set_kms_keys_same d : set_kms_keys d (kms_keys d) = d.
Proof. now destruct d. Qed.

(** What a completed run returns. *)
Lemma rotateMasterKey_inv ROOT_KEY rand d d' log :
  rotateMasterKey ROOT_KEY rand d = Ok (d', log) ->
  exists active_key retired0 rest rows,
    getActiveMasterKey ROOT_KEY d = Ok active_key /\
    getRetiredMasterKeys ROOT_KEY d = Ok (retired0 :: rest) /\
    select_key_id_encrypted_dek (kms_keys d) = Ok rows /\
    (d', log) =
      (set_kms_keys d
         (fst (rotate_rows (JsBuffer (keyMaterial retired0))
                 (JsBuffer (keyMaterial active_key)) rand 0 (kms_keys d) rows)),
       snd (rotate_rows (JsBuffer (keyMaterial retired0))
              (JsBuffer (keyMaterial active_key)) rand 0 (kms_keys d) rows)).
Proof.
  unfold rotateMasterKey. intros H.
  destruct (getActiveMasterKey ROOT_KEY d) as [ak|]; [|discriminate].
  cbn [mbind result_bind] in H.
  destruct (getRetiredMasterKeys ROOT_KEY d) as [[|r0 rest]|]; try discriminate.
  cbn [mbind result_bind] in H.
  destruct (select_key_id_encrypted_dek (kms_keys d)) as [rows|]; [|discriminate].
  cbn [mbind result_bind] in H.
  destruct (rotate_rows _ _ rand 0 (kms_keys d) rows) as [t lg] eqn:E.
  injection H as <- <-. exists ak, r0, rest, rows. rewrite E. cbn [fst snd]. auto.
Qed.

(** The run as the program makes it never rewrites an envelope. *)
Lemma rotateMasterKey_unchanged ROOT_KEY rand d d' log :
  rotateMasterKey ROOT_KEY rand d = Ok (d', log) ->
  d' = d /\ Forall is_type_error log.
Proof.
  intros H. apply rotateMasterKey_inv in H as (ak & r0 & rest & rows & _ & _ & _ & H).
  injection H as -> ->.
  destruct (rotate_rows_buffer (keyMaterial r0) (JsBuffer (keyMaterial ak)) rand rows 0
              (kms_keys d)) as [-> Hlog].
  split; [apply set_kms_keys_same|assumption].
Qed.

(** C9. Frame of a rotation run: whatever the run does to an envelope row,
    the row's [user_id] (owner), [encrypted_key] (payload), [created_at]
    and every other column but [encrypted_dek] are as before, and so are
    the set of rows and the master-key table.  This holds of the row loop
    for every pair of keys, and of [rotateMasterKey] as a whole. *)
Theorem C9_rotation_frame ROOT_KEY rand d :
  (forall OLD NEW i t rows,
     same_frames t (fst (rotate_rows OLD NEW rand i t rows))) /\
  same_frames (kms_keys d) (kms_keys (db_after d (rotateMasterKey ROOT_KEY rand d))) /\
  master_keys (db_after d (rotateMasterKey ROOT_KEY rand d)) = master_keys d.
Proof.
  split; [intros; apply rotate_rows_frame|].
  destruct (rotateMasterKey ROOT_KEY rand d) as [[d' log]|e] eqn:E; cbn [db_after].
  - apply rotateMasterKey_inv in E as (ak & r0 & rest & rows & _ & _ & _ & H).
    injection H as -> ->. cbn. split; [apply rotate_rows_frame|reflexivity].
  - split; [apply same_frames_refl|reflexivity].
Qed.

(** The run fails before the loop or not at all. *)
Lemma rotateMasterKey_throws ROOT_KEY rand d e :
  rotateMasterKey ROOT_KEY rand d = Throw e <->
  getActiveMasterKey ROOT_KEY d = Throw e \/
  (exists active_key,
     getActiveMasterKey ROOT_KEY d = Ok active_key /\
     (getRetiredMasterKeys ROOT_KEY d = Throw e \/
      (getRetiredMasterKeys ROOT_KEY d = Ok [] /\
       e = Error "No retired (old) master key found.") \/
      (exists retired0 rest,
         getRetiredMasterKeys ROOT_KEY d = Ok (retired0 :: rest) /\
         select_key_id_encrypted_dek (kms_keys d) = Throw e))).
Proof.
  unfold rotateMasterKey.
  destruct (getActiveMasterKey ROOT_KEY d) as [ak|e1]; cbn [mbind result_bind].
  2:{ split; [intros [= ->]; now left|].
      intros [[= ->]|(ak & [=] & _)]. reflexivity. }
  destruct (getRetiredMasterKeys ROOT_KEY d) as [[|r0 rest]|e2];
    cbn [mbind result_bind].
  - split.
    + intros [= <-]. right. exists ak. split; [reflexivity|]. right. left. auto.
    + intros [[=]|(ak' & _ & [[=]|[[_ ->]|(r0 & rest & [=] & _)]])]. reflexivity.
  - destruct (select_key_id_encrypted_dek (kms_keys d)) as [rows|e3];
      cbn [mbind result_bind].
    + destruct (rotate_rows _ _ rand 0 (kms_keys d) rows). split; [discriminate|].
      intros [[=]|(ak' & _ & [[=]|[[[=] _]|(r0' & rest' & _ & [=])]])].
    + split.
      * intros [= ->]. right. exists ak. split; [reflexivity|]. right. right.
        exists r0, rest. auto.
      * intros [[=]|(ak' & _ & [[=]|[[[=] _]|(r0' & rest' & _ & [= ->])]])].
        reflexivity.
  - split.
    + intros [= ->]. right. exists ak. split; [reflexivity|]. now left.
    + intros [[=]|(ak' & _ & [[= ->]|[[[=] _]|(r0 & rest & [=] & _)]])]. reflexivity.
Qed.

(** C8 (as amended). Per-row failure isolation.  In the loop, for every
    pair of keys, a row whose processing throws is recorded as failed
    with its error, the table is passed on unchanged, and the rows after
    it are processed as if it were not there.  The run as a whole fails
    only before the loop: when the active key or the retired keys cannot
    be loaded, when there is no retired key, or when the row set cannot
    be read; in every other case it completes, and the log has one line
    per row, in order. *)
Theorem C8_row_failure_isolated ROOT_KEY rand d :
  (forall OLD NEW i t pre row post err,
     rotate_try OLD NEW (rand (i + length pre))
       (fst (rotate_rows OLD NEW rand i t pre)) row = Throw err ->
     rotate_rows OLD NEW rand i t (pre ++ row :: post) =
       (fst (rotate_rows OLD NEW rand (S (i + length pre))
               (fst (rotate_rows OLD NEW rand i t pre)) post),
        snd (rotate_rows OLD NEW rand i t pre)
          ++ Failed (key_id row) err
          :: snd (rotate_rows OLD NEW rand (S (i + length pre))
                    (fst (rotate_rows OLD NEW rand i t pre)) post))) /\
  (forall e,
     rotateMasterKey ROOT_KEY rand d = Throw e <->
     getActiveMasterKey ROOT_KEY d = Throw e \/
     (exists active_key,
        getActiveMasterKey ROOT_KEY d = Ok active_key /\
        (getRetiredMasterKeys ROOT_KEY d = Throw e \/
         (getRetiredMasterKeys ROOT_KEY d = Ok [] /\
          e = Error "No retired (old) master key found.") \/
         (exists retired0 rest,
            getRetiredMasterKeys ROOT_KEY d = Ok (retired0 :: rest) /\
            select_key_id_encrypted_dek (kms_keys d) = Throw e)))) /\
  (forall active_key retired0 rest rows,
     getActiveMasterKey ROOT_KEY d = Ok active_key ->
     getRetiredMasterKeys ROOT_KEY d = Ok (retired0 :: rest) ->
     select_key_id_encrypted_dek (kms_keys d) = Ok rows ->
     exists t log,
       rotateMasterKey ROOT_KEY rand d = Ok (set_kms_keys d t, log) /\
       map entry_key log = map key_id rows).
Proof.
  split; [|split].
  - intros OLD NEW i t pre row post err Herr.
    rewrite rotate_rows_app, rotate_rows_cons.
    rewrite (rotate_row_failed _ _ _ _ _ _ Herr). reflexivity.
  - intros e. apply rotateMasterKey_throws.
  - intros ak r0 rest rows Ha Hr Hsel. unfold rotateMasterKey.
    rewrite Ha, Hr. cbn [mbind result_bind]. rewrite Hsel. cbn [mbind result_bind].
    destruct (rotate_rows _ _ rand 0 (kms_keys d) rows) as [t log] eqn:E.
    exists t, log. split; [reflexivity|].
    change log with (snd (t, log)). rewrite <- E. apply rotate_rows_log_keys.
Qed.




End RotateFacts.

(** ** A flipped bit in a stored payload blob *)

Module TamperFacts.
Import GF256 AES AESFacts Node NodeStrings NodeFacts Vault KeyServer BufferFacts.
Import VaultFacts Properties.

Lemma dec_full_S n rks full :
  dec_full (S n) rks full = plain_block rks full ++ dec_full n rks (drop 16 full).
Proof. reflexivity. Qed.

Lemma length_plain_block rks full : length (plain_block rks full) = 16.
Proof. apply length_list_of_state. Qed.

Lemma length_dec_full n rks full : length (dec_full n rks full) = 16 * n.
Proof. apply length_cbc_decrypt_blocks. Qed.

(** Plaintext from block [k] on is read from the buffer from block [k] on. *)
Lemma dec_full_drop rks k : forall n full,
  drop (16 * k) (dec_full (k + n) rks full) = dec_full n rks (drop (16 * k) full).
Proof.
  induction k as [|k IH]; intros n full; [reflexivity|].
  change (S k + n) with (S (k + n)). rewrite dec_full_S.
  replace (16 * S k) with (16 + 16 * k) by lia.
  rewrite <- !drop_drop. unfold plain_block at 1.
  now rewrite drop_list_of_state_app, IH.
Qed.

Lemma dec_full_block rks k n full :
  take 16 (drop (16 * k) (dec_full (k + S n) rks full))
    = plain_block rks (drop (16 * k) full).
Proof.
  rewrite dec_full_drop, dec_full_S. unfold plain_block at 1.
  apply take_list_of_state_app.
Qed.

Lemma dec_full_iv_app n rks iv c :
  length iv = 16 ->
  dec_full n rks (iv ++ c) = cbc_decrypt_blocks n rks (state_of_list iv) c.
Proof.
  intros H. unfold dec_full.
  now rewrite (take_app_length' iv c 16 (eq_sym H)), (drop_app_length' iv c 16 (eq_sym H)).
Qed.

Lemma length_pkcs7Pad_blocks p : length (pkcs7Pad p) = 16 * padded_blocks p.
Proof. apply length_pkcs7Pad. Qed.

Lemma evp_pad_aligned q m :
  length q = 16 * m -> evp_pad q = q ++ replicate 16 x10.
Proof.
  intros H. unfold evp_pad. rewrite H, Nat.mul_comm, Nat.Div0.mod_mul.
  reflexivity.
Qed.

(** The stored blob: the IV, then the CBC blocks of the twice-padded
    plaintext; decrypting it block by block gives that plaintext back. *)
Lemma encrypt_payload_shape dek p entropy blob :
  encrypt_payload dek p entropy = Ok blob ->
  length dek = 32 /\
  length blob = 16 * (padded_blocks p + 2) /\
  dec_full (padded_blocks p + 1) (key_expansion (key_of_list dek)) blob
    = pkcs7Pad p ++ replicate 16 x10.
Proof.
  intros H. apply encrypt_payload_inv in H as (c & Hc & ->).
  apply aes256cbc_encrypt_inv in Hc as (Hk & Hiv & ->).
  rewrite length_pkcs7Pad_blocks in *.
  replace (16 * padded_blocks p / 16) with (padded_blocks p)
    by (rewrite Nat.mul_comm; symmetry; now apply Nat.div_mul).
  split; [assumption|]. split.
  - rewrite length_app, Hiv, length_cbc_encrypt_blocks. lia.
  - rewrite dec_full_iv_app by assumption.
    rewrite cbc_decrypt_encrypt.
    + apply (evp_pad_aligned _ (padded_blocks p)), length_pkcs7Pad_blocks.
    + rewrite (evp_pad_aligned _ (padded_blocks p)) by apply length_pkcs7Pad_blocks.
      rewrite length_app, length_replicate, length_pkcs7Pad_blocks. lia.
Qed.

(** Decryption on the key server, on a buffer of at least two blocks. *)
Lemma decrypt_payload_full dek full n :
  length dek = 32 -> length full = 16 * (n + 2) ->
  decrypt_payload_bytes full (toString_hex dek) =
    q ← evp_unpad (dec_full (n + 1) (key_expansion (key_of_list dek)) full);
    Ok (pkcs7Unpad q).
Proof.
  intros Hk Hlen. rewrite decrypt_payload_unfold, from_hex_toString_hex.
  unfold aes256cbc_decrypt.
  rewrite (proj2 (check_key_iv_ok dek (take 16 full)))
    by (split; [assumption|rewrite length_take; lia]).
  cbn [mbind result_bind]. rewrite length_drop, Hlen.
  replace (16 * (n + 2) - 16) with (16 * (n + 1)) by lia.
  assert (E : 16 * (n + 1) / 16 = n + 1) by (rewrite Nat.mul_comm; now apply Nat.div_mul).
  assert (M : (16 * (n + 1)) mod 16 = 0) by (rewrite Nat.mul_comm; now apply Nat.Div0.mod_mul).
  rewrite E, M.
  destruct (Nat.eqb_spec (16 * (n + 1)) 0) as [Hz|_]; [lia|].
  reflexivity.
Qed.

Lemma length_flip_bit i buf : length (flip_bit i buf) = length buf.
Proof. apply length_alter. Qed.

(** A flip before byte [n] leaves the buffer from byte [n] on as it was. *)
Lemma drop_flip_bit_lt i n buf : i / 8 < n -> drop n (flip_bit i buf) = drop n buf.
Proof. intros H. now apply drop_alter_lt. Qed.

Lemma evp_unpad_full_block q : evp_unpad (q ++ replicate 16 x10) = Ok q.
Proof.
  unfold evp_unpad.
  assert (E : last (q ++ replicate 16 x10) = Some x10)
    by (rewrite last_app; reflexivity).
  rewrite E. change (Byte.to_nat x10) with 16. cbn [Nat.eqb Nat.ltb Nat.leb orb].
  rewrite length_app, length_replicate.
  replace (length q + 16 - 16) with (length q) by lia.
  now rewrite drop_app_length, take_app_length.
Qed.

Lemma bit_mask_cases i : In (bit_mask i) [x01; x02; x04; x08; x10; x20; x40; x80].
Proof.
  unfold bit_mask. assert (H : i mod 8 < 8) by (apply Nat.mod_upper_bound; lia).
  destruct (i mod 8) as [|[|[|[|[|[|[|[|n]]]]]]]]; [| | | | | | | |lia].
  all: vm_compute; auto 10.
Qed.

Lemma bxor_cancel_l x m : bxor (bxor x m) x = m.
Proof. byte_eq. Qed.

Lemma bxor_mask_ne x i : bxor x (bit_mask i) <> x.
Proof.
  intros H. pose proof (bxor_cancel_l x (bit_mask i)) as E.
  rewrite H, bxor_nilpotent in E.
  pose proof (bit_mask_cases i) as Hc. rewrite <- E in Hc.
  cbn in Hc. intuition discriminate.
Qed.

Lemma alter_ne {A} (f : A -> A) (l : list A) j :
  j < length l -> (forall x, f x <> x) -> alter f j l <> l.
Proof.
  intros Hj Hf E. destruct (lookup_lt_is_Some_2 l j Hj) as [x Hx].
  pose proof (list_lookup_alter_eq f l j) as H.
  rewrite E, Hx in H. cbn in H. injection H as H. now apply (Hf x).
Qed.

Lemma plain_block_ne rks F F' :
  take 16 F' = take 16 F ->
  length (take 16 (drop 16 F)) = 16 ->
  length (take 16 (drop 16 F')) = 16 ->
  take 16 (drop 16 F') <> take 16 (drop 16 F) ->
  plain_block rks F' <> plain_block rks F.
Proof.
  intros Hiv Hl Hl' Hne E. unfold plain_block in E. rewrite Hiv in E.
  apply (f_equal state_of_list) in E. rewrite !state_of_list_of_state in E.
  apply (f_equal (xor_state (state_of_list (take 16 F)))) in E.
  rewrite !xor_state_cancel in E. apply inv_cipher_inj in E.
  apply (f_equal list_of_state) in E.
  rewrite !list_of_state_of_list in E by assumption. contradiction.
Qed.

Lemma pkcs7Unpad_prefix buf : exists c, pkcs7Unpad buf = take c buf.
Proof.
  rewrite pkcs7Unpad_spec. destruct (last buf) as [b|].
  - destruct (Byte.to_nat b =? 0); [exists 0; now rewrite take_0|eauto].
  - exists 0. now rewrite take_0.
Qed.

Lemma length_p_lower p : 16 * (padded_blocks p - 1) <= length p.
Proof.
  unfold padded_blocks. pose proof (Nat.div_mod_eq (length p) 16). lia.
Qed.

(** A flipped bit before the last two blocks of the blob goes unnoticed;
    in a ciphertext block it changes what is returned. *)
Lemma flip_early dek p entropy blob i :
  encrypt_payload dek p entropy = Ok blob ->
  i / 8 < 16 * padded_blocks p ->
  exists p',
    decrypt_payload_bytes (flip_bit i blob) (toString_hex dek) = Ok p' /\
    (16 <= i / 8 -> p' <> p).
Proof.
  intros Henc Hi. apply encrypt_payload_shape in Henc as (Hk & Hlen & Hdec).
  set (m := padded_blocks p) in *. set (rks := key_expansion (key_of_list dek)) in *.
  set (Y' := dec_full (m + 1) rks (flip_bit i blob)).
  assert (Htail : drop (16 * m) Y' = replicate 16 x10).
  { unfold Y'. rewrite dec_full_drop, drop_flip_bit_lt by assumption.
    rewrite <- dec_full_drop, Hdec.
    apply drop_app_length'. symmetry. apply length_pkcs7Pad_blocks. }
  exists (pkcs7Unpad (take (16 * m) Y')). split.
  - rewrite (decrypt_payload_full dek _ m Hk)
      by (rewrite length_flip_bit; exact Hlen).
    fold rks. fold Y'. rewrite <- (take_drop (16 * m) Y') at 1.
    rewrite Htail, evp_unpad_full_block. reflexivity.
  - intros Hct Heq.
    set (j := i / 8) in *. set (k := j / 16 - 1).
    assert (Hb : 1 <= j / 16 < m).
    { split; [apply Nat.div_le_lower_bound; lia|apply Nat.Div0.div_lt_upper_bound; lia]. }
    assert (Hj : 16 * (j / 16) <= j < 16 * (j / 16) + 16).
    { pose proof (Nat.div_mod_eq j 16). pose proof (Nat.mod_upper_bound j 16). lia. }
    (* block k of the plaintext differs from the original *)
    assert (Hblk : take 16 (drop (16 * k) Y') <>
                   take 16 (drop (16 * k) (pkcs7Pad p ++ replicate 16 x10))).
    { rewrite <- Hdec. unfold Y'.
      replace (m + 1) with (k + S (m - k)) by (unfold k; lia).
      rewrite !dec_full_block. unfold flip_bit. fold j.
      rewrite drop_alter_ge by (unfold k; lia).
      apply plain_block_ne.
      - apply take_alter_ge. unfold k. lia.
      - rewrite length_take, !length_drop, Hlen. unfold k. lia.
      - rewrite length_take, !length_drop, length_alter, length_drop, Hlen.
        unfold k. lia.
      - rewrite drop_alter_ge by (unfold k; lia).
        rewrite take_alter_lt by (unfold k; lia).
        apply alter_ne; [|intros x; apply bxor_mask_ne].
        rewrite length_take, !length_drop, Hlen. unfold k. lia. }
    apply Hblk.
    (* but the returned bytes are a prefix of both *)
    destruct (pkcs7Unpad_prefix (take (16 * m) Y')) as [c Hc].
    rewrite Hc in Heq.
    pose proof (length_p_lower p) as Hp. fold m in Hp.
    assert (Hlc : 16 * (k + 1) <= length p) by (unfold k; lia).
    assert (Hpre : take (16 * (k + 1)) Y' = take (16 * (k + 1)) p).
    { rewrite <- Heq, !take_take. f_equal.
      rewrite <- Heq, length_take, length_take in Hlc. lia. }
    rewrite !take_drop_commute.
    replace (16 * k + 16) with (16 * (k + 1)) by lia.
    rewrite Hpre. f_equal. unfold pkcs7Pad.
    rewrite <- app_assoc. symmetry. now apply take_app_le.
Qed.

(** Flipping a bit of the previous ciphertext block flips that bit of the
    plaintext block. *)
Lemma xor_alter (m : byte) (C : bytes) (Z : state) j :
  length C = 16 -> j < 16 ->
  list_of_state (xor_state (state_of_list (alter (fun b => bxor b m) j C)) Z)
    = alter (fun b => bxor b m) j (list_of_state (xor_state (state_of_list C) Z)).
Proof.
  intros Hlen Hj.
  do 17 (destruct C as [|? C]; try discriminate Hlen).
  destruct Z as [[[[[[z0 z1] z2] z3] [[[z4 z5] z6] z7]] [[[z8 z9] z10] z11]]
                   [[[z12 z13] z14] z15]].
  do 16 (destruct j as [|j]; [cbn -[bxor]; now rewrite bxor_assoc|]). lia.
Qed.

Lemma evp_unpad_bad_block q T :
  length T = 16 -> evp_block_bad T = true ->
  evp_unpad (q ++ T) = Throw ERR_OSSL_BAD_DECRYPT.
Proof.
  intros Hlen Hbad. unfold evp_unpad, evp_block_bad in *.
  rewrite last_app. destruct (last T) as [b|]; [|discriminate].
  destruct ((Byte.to_nat b =? 0) || (16 <? Byte.to_nat b)) eqn:E; [reflexivity|].
  apply orb_false_iff in E as [_ E]. apply Nat.ltb_ge in E.
  cbn [orb] in Hbad. apply negb_true_iff in Hbad.
  rewrite length_app, Hlen, drop_app_ge by lia.
  replace (length q + 16 - Byte.to_nat b - length q) with (16 - Byte.to_nat b) by lia.
  now rewrite Hbad.
Qed.

Lemma flipped_pad_block_bad i j :
  j < 16 ->
  evp_block_bad (alter (fun b => bxor b (bit_mask i)) j (replicate 16 x10)) = true.
Proof.
  intros Hj.
  assert (H : forallb (fun k => forallb (fun j' =>
                evp_block_bad (alter (fun b => bxor b (byte_of_nat (2 ^ k))) j'
                                 (replicate 16 x10))) (seq 0 16)) (seq 0 8) = true)
    by (vm_compute; reflexivity).
  rewrite forallb_forall in H.
  assert (Hk : In (i mod 8) (seq 0 8))
    by (apply in_seq; pose proof (Nat.mod_upper_bound i 8); lia).
  specialize (H _ Hk). rewrite forallb_forall in H.
  apply H, in_seq. lia.
Qed.

(** A flipped bit in the second-to-last block of the blob breaks the
    padding of the last plaintext block. *)
Lemma flip_second_last dek p entropy blob i :
  encrypt_payload dek p entropy = Ok blob ->
  16 * padded_blocks p <= i / 8 < 16 * (padded_blocks p + 1) ->
  decrypt_payload_bytes (flip_bit i blob) (toString_hex dek) = Throw ERR_OSSL_BAD_DECRYPT.
Proof.
  intros Henc Hi. apply encrypt_payload_shape in Henc as (Hk & Hlen & Hdec).
  set (m := padded_blocks p) in *. set (rks := key_expansion (key_of_list dek)) in *.
  set (Y' := dec_full (m + 1) rks (flip_bit i blob)).
  set (f := fun b => bxor b (bit_mask i)).
  assert (Hlast : plain_block rks (drop (16 * m) blob) = replicate 16 x10).
  { transitivity (drop (16 * m) (dec_full (m + 1) rks blob)).
    - rewrite dec_full_drop. change 1 with (S 0). rewrite dec_full_S.
      cbn [dec_full cbc_decrypt_blocks]. now rewrite app_nil_r.
    - rewrite Hdec. apply drop_app_length'. symmetry. apply length_pkcs7Pad_blocks. }
  assert (Htail : drop (16 * m) Y' = alter f (i / 8 - 16 * m) (replicate 16 x10)).
  { unfold Y'. rewrite dec_full_drop. change 1 with (S 0). rewrite dec_full_S.
    cbn [dec_full cbc_decrypt_blocks]. rewrite app_nil_r.
    unfold flip_bit. fold f. rewrite drop_alter_ge by lia.
    rewrite <- Hlast. unfold plain_block.
    rewrite take_alter_lt, drop_alter_lt by lia.
    unfold f. apply xor_alter; rewrite ?length_take, ?length_drop; lia. }
  rewrite (decrypt_payload_full dek _ m Hk)
    by (rewrite length_flip_bit; exact Hlen).
  fold rks. fold Y'. rewrite <- (take_drop (16 * m) Y') at 1.
  rewrite Htail, evp_unpad_bad_block; [reflexivity| |].
  - rewrite length_alter, length_replicate. reflexivity.
  - apply flipped_pad_block_bad. lia.
Qed.

(** C2 (as amended). The stored payload blob is an IV followed by
    AES-256-CBC ciphertext and carries no authentication tag.  For every
    plaintext [p] and every 32-byte DEK: a flipped bit in the second-to-last
    16-byte block of the blob makes decryption fail with an explicit error,
    and so does the retrieval path; a flipped bit in any earlier block is
    not detected, decryption succeeds, the retrieval path answers with the
    text of the bytes found, and when the bit lies in a ciphertext block
    (after the IV) the bytes found differ from [p]. *)
Theorem C2_flipped_bit (p dek entropy blob : bytes) (i : nat) :
  length dek = 32 ->
  encrypt_payload dek p entropy = Ok blob ->
  (8 * (length blob - 32) <= i < 8 * (length blob - 16) ->
   decrypt_payload_bytes (flip_bit i blob) (toString_hex dek)
     = Throw ERR_OSSL_BAD_DECRYPT /\
   decrypt_payload (flip_bit i blob) (toString_hex dek)
     = Throw ERR_OSSL_BAD_DECRYPT) /\
  (i < 8 * (length blob - 32) ->
   exists p',
     decrypt_payload_bytes (flip_bit i blob) (toString_hex dek) = Ok p' /\
     decrypt_payload (flip_bit i blob) (toString_hex dek) = Ok (toString_utf8 p') /\
     (128 <= i -> p' <> p)).
Proof.
  intros _ Henc.
  pose proof (encrypt_payload_shape _ _ _ _ Henc) as (_ & Hlen & _).
  rewrite Hlen. split.
  - intros Hi.
    assert (Hthrow : decrypt_payload_bytes (flip_bit i blob) (toString_hex dek)
                     = Throw ERR_OSSL_BAD_DECRYPT).
    { apply (flip_second_last dek p entropy); [assumption|].
      split.
      - apply Nat.div_le_lower_bound; lia.
      - apply Nat.Div0.div_lt_upper_bound. lia. }
    split; [exact Hthrow|]. now apply decrypt_payload_throw.
  - intros Hi.
    destruct (flip_early dek p entropy blob i Henc) as (p' & Hd & Hne).
    + apply Nat.Div0.div_lt_upper_bound. lia.
    + exists p'. split; [assumption|]. split; [now apply decrypt_payload_ok|].
      intros H. apply Hne. apply Nat.div_le_lower_bound; lia.
Qed.

End TamperFacts.

(** ** The properties on the concrete run *)

Module Checks.
Import GF256 AES Node NodeStrings Db MasterKeyManager Auth Vault KeyServer RotateMk.
Import Scenario Properties.
Import VaultFacts MasterKeyFacts RotateFacts TamperFacts.

(** Split a conjunction of closed facts and evaluate each. *)
Ltac split_all := repeat match goal with |- _ /\ _ => split end.

(** Scenario 1 of the specification: the key added last is the active one,
    the one before it is retired. *)
Example add_then_get_active :
  getActiveMasterKey root_key db1 = Ok (MasterKey "key-1" K1) /\
  getActiveMasterKey root_key db3 = Ok (MasterKey "key-2" K2) /\
  map (fun r => (mk_key_id r, mk_status r)) (master_keys db3)
    = [("key-1"%string, retired); ("key-2"%string, active)].
Proof. split_all; vm_compute; reflexivity. Qed.

Example retrieval_before_key_change :
  get_keys root_key jwt_verify db2 (Some "Bearer tok-7"%string) = DataOk "secret-1".
Proof. vm_compute. reflexivity. Qed.

Lemma C6_witness :
  (exists blob,
     encrypt_payload dek7 (list_byte_of_string "secret-1") (entropy x33) = Ok blob /\
     decrypt_payload_bytes blob (toString_hex dek7)
       = Ok (list_byte_of_string "secret-1") /\
     decrypt_payload blob (toString_hex dek7)
       = Ok (toString_utf8 (list_byte_of_string "secret-1")) /\
     (forall text,
        utf8_text text -> list_byte_of_string "secret-1" = list_byte_of_string text ->
        decrypt_payload blob (toString_hex dek7) = Ok text)) /\
  (forall ROOT_KEY d entropy2 encrypted_key encrypted_dek,
     Vault.encrypt ROOT_KEY d (Some (Base64 (list_byte_of_string "secret-1")))
         (Some (toString_hex dek7)) (entropy x33) entropy2
       = EncryptOk encrypted_key encrypted_dek ->
     decrypt_payload encrypted_key (toString_hex dek7)
       = Ok (toString_utf8 (list_byte_of_string "secret-1"))).
Proof.
  apply (C6_payload_round_trip (list_byte_of_string "secret-1") dek7 (entropy x33)).
  reflexivity.
Defined.

Example secret_1_is_text :
  toString_utf8 (list_byte_of_string "secret-1") = "secret-1"%string.
Proof. vm_compute. reflexivity. Qed.

(** A payload that is no UTF-8 text does not come back: the vault takes
    the byte [ff], and the retrieval path returns U+FFFD, three other
    bytes, as it does for the byte [fe]. *)
Lemma C6_counterexample :
  length dek7 = 32 /\
  (exists encrypted_dek,
     Vault.encrypt root_key db1 (Some (Base64 [xff])) (Some (toString_hex dek7))
         (entropy x33) (entropy x44)
       = EncryptOk blob_ff encrypted_dek) /\
  encrypt_payload dek7 [xff] (entropy x33) = Ok blob_ff /\
  decrypt_payload blob_ff (toString_hex dek7)
    = Ok (string_of_list_byte [xef; xbf; xbd]) /\
  list_byte_of_string (string_of_list_byte [xef; xbf; xbd]) <> [xff] /\
  encrypt_payload dek7 [xfe] (entropy x33) = Ok blob_fe /\
  decrypt_payload blob_fe (toString_hex dek7)
    = Ok (string_of_list_byte [xef; xbf; xbd]).
Proof.
  split_all; try (vm_compute; reflexivity).
  - eexists. vm_compute. reflexivity.
  - vm_compute. discriminate.
Qed.

Example decrypt_dek_five_bytes :
  decrypt_dek root_key jwt_verify db1 (Some "Bearer tok-7"%string)
      (Some (Base64 short_dek_blob))
    = DekOk "0102030405".
Proof. vm_compute. reflexivity. Qed.

Lemma C10_witness :
  decrypt_dek root_key jwt_verify db1 (Some "Bearer tok-7"%string)
      (Some (Base64 empty_dek_blob))
    = DekOk "" /\
  (forall data dek entropy entropy2,
     length (from_hex dek) <> 32 ->
     exists code msg,
       Vault.encrypt root_key db1 data (Some dek) entropy entropy2 = Status code msg).
Proof.
  apply (C10_decrypt_dek_no_length_check root_key jwt_verify db1
           (Some "Bearer tok-7"%string) empty_dek_blob
           (VerifyData true (JwtPayload (Some "user-7"%string)))
           (MasterKey "key-1" K1) []).
  - vm_compute. reflexivity.
  - vm_compute. reflexivity.
  - vm_compute. reflexivity.
  - vm_compute. reflexivity.
Defined.

(** The envelope of user-7 is served to the holder of a token for user-42. *)
Lemma C1_counterexample :
  map kr_user_id (kt_rows (kms_keys db2)) = ["user-7"%string] /\
  map kr_encrypted_dek (kt_rows (kms_keys db2)) = [Some blob7] /\
  post_verify jwt_verify (bearer_token (Some "Bearer tok-42"%string))
    = Ok (VerifyData true (JwtPayload (Some "user-42"%string))) /\
  "user-42"%string <> "user-7"%string /\
  decrypt_dek root_key jwt_verify db2 (Some "Bearer tok-42"%string)
      (Some (Base64 blob7))
    = DekOk (toString_hex dek7).
Proof.
  split_all; try (vm_compute; reflexivity). discriminate.
Qed.

Lemma C1_witness :
  decrypt_dek root_key jwt_verify db2 (Some "Bearer tok-7"%string) (Some EmptyText)
    = Status 400 "Missing fields" /\
  (exists code msg,
     decrypt_dek root_key jwt_verify db2 (Some "Bearer forged"%string)
         (Some (Base64 blob7))
       = Status code msg /\ (code = 400 \/ code = 401) /\
     (truthy (bearer_token (Some "Bearer forged"%string)) = true ->
      truthy_buf (Some (Base64 blob7)) = true -> code = 401)) /\
  decrypt_dek root_key jwt_verify (Database (master_keys db2) kms_keys_created)
    (Some "Bearer forged"%string) (Some (Base64 blob7))
    = decrypt_dek root_key jwt_verify db2 (Some "Bearer forged"%string)
        (Some (Base64 blob7)).
Proof.
  destruct (C1_gate_checks_token_only root_key jwt_verify db2
              (Some "Bearer tok-7"%string) (Some EmptyText)) as (Hmissing & _).
  destruct (C1_gate_checks_token_only root_key jwt_verify db2
              (Some "Bearer forged"%string) (Some (Base64 blob7)))
    as (_ & Hreject & Hext & _).
  split; [|split].
  - apply Hmissing. right. reflexivity.
  - apply Hreject. intros reply H. vm_compute in H. discriminate H.
  - apply Hext. reflexivity.
Defined.

(** A text that is not empty and carries no bytes counts as present: the
    request is refused for its token, not for a missing field. *)
Example decrypt_dek_text_without_bytes :
  decrypt_dek root_key jwt_verify db2 (Some "Bearer forged"%string) (Some (Base64 []))
    = Status 401 "Token verification failed" /\
  decrypt_dek root_key jwt_verify db2 (Some "Bearer tok-7"%string) (Some (Base64 []))
    = Status 500 "Decryption failed" /\
  exists encrypted_key encrypted_dek,
    Vault.encrypt root_key db2 (Some (Base64 [])) (Some (toString_hex dek7))
        (entropy x33) (entropy x44)
      = EncryptOk encrypted_key encrypted_dek.
Proof.
  split; [vm_compute; reflexivity|]. split; [vm_compute; reflexivity|].
  eexists _, _. vm_compute. reflexivity.
Qed.

Lemma C3_witness :
  exactly_one_active
    (master_keys (after (add_call_result root_key call2
                           (add_all root_key [call1] db0)))) /\
  exists r,
    last (master_keys (after (add_call_result root_key call2
                                (add_all root_key [call1] db0)))) = Some r /\
    mk_key_id r = call_keyId call2 /\ mk_status r = active.
Proof.
  apply (C3_single_active root_key [call1] call2 kms_keys_created).
  vm_compute. reflexivity.
Defined.

(** C7. On a table with two retired keys, [getRetiredMasterKeys] lists the
    older one first: the query has no [ORDER BY], the rows come in table
    order.  (The claim asks for newest first, key-2 before key-1.) *)
Theorem C7_retired_oldest_first :
  map (fun r => (mk_key_id r, mk_created_at r, mk_status r)) (master_keys db5)
    = [("key-1"%string, 1000%Z, retired); ("key-2"%string, 3000%Z, retired);
       ("key-3"%string, 5000%Z, active)] /\
  getRetiredMasterKeys root_key db5
    = Ok [MasterKey "key-1" K1; MasterKey "key-2" K2].
Proof. split; vm_compute; reflexivity. Qed.

(** C4. After key-2 replaced key-1, the rotation run does not re-wrap the
    envelope stored under key-1.  On the key server's table the run stops
    at its [SELECT key_id ...]; on a table with a [key_id] column it
    completes, every row failing with the [padEnd] type error.  Either way
    the stored wrapped DEK still unwraps under the retired key-1 and does
    not unwrap under the active key-2. *)
Theorem C4_rotation_leaves_old_wrap :
  map kr_encrypted_dek (kt_rows (kms_keys db3)) = [Some blob7] /\
  map kr_encrypted_dek (kt_rows (kms_keys db3k)) = [Some blob7] /\
  getActiveMasterKey root_key db3 = Ok (MasterKey "key-2" K2) /\
  getRetiredMasterKeys root_key db3 = Ok [MasterKey "key-1" K1] /\
  unwrap_dek K1 blob7 = Ok dek7 /\
  rotateMasterKey root_key rand6 db3 = Throw (SqlError "ER_BAD_FIELD_ERROR") /\
  rotateMasterKey root_key rand6 db3k
    = Ok (db3k, [Failed (SqlText "user-7") padEnd_error]) /\
  unwrap_dek K2 blob7 = Throw ERR_OSSL_BAD_DECRYPT.
Proof. split_all; vm_compute; reflexivity. Qed.



(** The row set can be read and the run fails all the same: no key has
    been retired yet. *)
Lemma C8_counterexample :
  select_key_id_encrypted_dek (kms_keys db2k)
    = Ok [RotRow (SqlText "user-7") (Some blob7)] /\
  getActiveMasterKey root_key db2k = Ok (MasterKey "key-1" K1) /\
  getRetiredMasterKeys root_key db2k = Ok [] /\
  rotateMasterKey root_key rand6 db2k
    = Throw (Error "No retired (old) master key found.").
Proof. split_all; vm_compute; reflexivity. Qed.

(** Three rows, the second with a blob cut short: it is recorded as
    failed, and the first and the third are wrapped under the new key. *)
Lemma C8_witness :
  rotate_rows text_old text_new rand6 0 text_table3 ([row7] ++ row8 :: [row9]) =
    (fst (rotate_rows text_old text_new rand6 (S (0 + length [row7]))
            (fst (rotate_rows text_old text_new rand6 0 text_table3 [row7])) [row9]),
     snd (rotate_rows text_old text_new rand6 0 text_table3 [row7])
       ++ Failed (key_id row8) ERR_CRYPTO_INVALID_IV
       :: snd (rotate_rows text_old text_new rand6 (S (0 + length [row7]))
                 (fst (rotate_rows text_old text_new rand6 0 text_table3 [row7]))
                 [row9])).
Proof.
  destruct (C8_row_failure_isolated root_key rand6 db3k) as (Hrow & _).
  apply Hrow. vm_compute. reflexivity.
Defined.

Example three_rows_one_failure :
  rows_of text_table3 = [row7; row8; row9] /\
  snd (rotate_rows text_old text_new rand6 0 text_table3 (rows_of text_table3))
    = [Rotated (SqlText "e-7"); Failed (SqlText "e-8") ERR_CRYPTO_INVALID_IV;
       Rotated (SqlText "e-9")] /\
  map (fun r => decryptDek (kr_encrypted_dek r) text_new)
      (kt_rows (fst (rotate_rows text_old text_new rand6 0 text_table3
                       (rows_of text_table3))))
    = [Ok dek7; Throw ERR_CRYPTO_INVALID_IV; Ok dek8] /\
  map kr_encrypted_dek
      (kt_rows (fst (rotate_rows text_old text_new rand6 0 text_table3
                       (rows_of text_table3))))
    !! 1 = Some (Some [x01; x02; x03]).
Proof. split_all; vm_compute; reflexivity. Qed.

Example rotate_rows_text_keys :
  exists t blob,
    rotate_rows text_old text_new rand6 0 text_table
      [RotRow (SqlText "e-7") (head (kt_rows text_table) ≫= kr_encrypted_dek)]
      = (t, [Rotated (SqlText "e-7")]) /\
    kt_rows t = [KmsRow "user-7" (Some [x01; x02]) (Some blob) (Some 2000%Z)
                   {["key_id"%string := SqlText "e-7"]}] /\
    decryptDek (Some blob) text_new = Ok dek7 /\
    kr_encrypted_dek <$> kt_rows t <> kr_encrypted_dek <$> kt_rows text_table.
Proof.
  eexists _, _. split; [vm_compute; reflexivity|].
  split; [vm_compute; reflexivity|]. split; [vm_compute; reflexivity|].
  vm_compute. discriminate.
Qed.

Lemma C2_counterexample :
  length dek7 = 32 /\
  encrypt_payload dek7 p32 (entropy x33) = Ok blob32 /\
  128 < 8 * length blob32 /\
  decrypt_payload_bytes (flip_bit 128 blob32) (toString_hex dek7)
    = Ok (from_hex "400ab77603ccf9ebd384afcf5ac762f731313233343536373839616263646566") /\
  from_hex "400ab77603ccf9ebd384afcf5ac762f731313233343536373839616263646566" <> p32 /\
  decrypt_payload blob32 (toString_hex dek7) = Ok (string_of_list_byte p32) /\
  exists text,
    decrypt_payload (flip_bit 128 blob32) (toString_hex dek7) = Ok text /\
    text <> string_of_list_byte p32.
Proof.
  split; [reflexivity|]. split; [vm_compute; reflexivity|].
  split; [vm_compute; lia|]. split; [vm_compute; reflexivity|].
  split; [vm_compute; discriminate|]. split; [vm_compute; reflexivity|].
  eexists. split; [vm_compute; reflexivity|]. vm_compute. discriminate.
Qed.

Lemma C2_witness :
  (8 * (length blob32 - 32) <= 400 < 8 * (length blob32 - 16) ->
   decrypt_payload_bytes (flip_bit 400 blob32) (toString_hex dek7)
     = Throw ERR_OSSL_BAD_DECRYPT /\
   decrypt_payload (flip_bit 400 blob32) (toString_hex dek7)
     = Throw ERR_OSSL_BAD_DECRYPT) /\
  (400 < 8 * (length blob32 - 32) ->
   exists p',
     decrypt_payload_bytes (flip_bit 400 blob32) (toString_hex dek7) = Ok p' /\
     decrypt_payload (flip_bit 400 blob32) (toString_hex dek7)
       = Ok (toString_utf8 p') /\
     (128 <= 400 -> p' <> p32)).
Proof.
  apply (C2_flipped_bit p32 dek7 (entropy x33) blob32 400).
  - reflexivity.
  - vm_compute. reflexivity.
Defined.

Example flipped_bit_400_detected :
  decrypt_payload_bytes (flip_bit 400 blob32) (toString_hex dek7)
    = Throw ERR_OSSL_BAD_DECRYPT /\
  decrypt_payload (flip_bit 400 blob32) (toString_hex dek7)
    = Throw ERR_OSSL_BAD_DECRYPT.
Proof. split; vm_compute; reflexivity. Qed.

End Checks.

(** ** The cipher of the documents against published and computed values *)

Module GcmTest.
Import GF256 AES Node NodeText Gcm256 DocumentManager Scenario.

(** The GCM specification, test cases 13 and 14 (a zero key of 256 bits,
    a zero IV of 96 bits). *)
Example gcm_test_case_13 :
  aes256gcm_encrypt (replicate 32 x00) (replicate 12 x00) []
    = Ok ([], from_hex "530f8afbc74536b9a963b4f1c4cb738b").
Proof. vm_compute. reflexivity. Qed.

Example gcm_test_case_14 :
  aes256gcm_encrypt (replicate 32 x00) (replicate 12 x00) (replicate 16 x00)
    = Ok (from_hex "cea7403d4d606b6e074ec5d3baf39d18",
          from_hex "d0d1c8a799996bf0265b98b5d48ab919").
Proof. vm_compute. reflexivity. Qed.

(** An IV of 16 bytes, as the program draws it, goes through [GHASH]:
    the values OpenSSL computes for the key [00 01 .. 1f]. *)
Example gcm_iv_16 :
  aes256gcm_encrypt fips_key (from_hex "000102030405060708090a0b0c0d0e0f")
    (from_hex ("000102030405060708090a0b0c0d0e0f101112131415161718191a1b1c1d1e1f"
            ++ "2021222324252627"))
    = Ok (from_hex ("676da2753de14c2f95f6d12259a922bc44a279b27398c5545c2757ce92e4d2d5"
                 ++ "485eabd75965f6e9"),
          from_hex "c9bec6b94a475e4d67c8a7828eaf24c0").
Proof. vm_compute. reflexivity. Qed.

Example gcm_iv_16_empty :
  aes256gcm_encrypt fips_key (replicate 16 xaa) []
    = Ok ([], from_hex "dad4505374e125ae31f2d2fb77dce870").
Proof. vm_compute. reflexivity. Qed.

Example gcm_iv_5 :
  aes256gcm_encrypt fips_key (replicate 5 x07)
    (list_byte_of_string "hello world, this is a test of gcm")
    = Ok (from_hex ("f9b5e5e8e0e5dc80257bf4847322ef32d00e11f62b057dcf97e5ea6737e8c10d"
                 ++ "670b"),
          from_hex "4de9b95cd4d33d408798ef8f7c8481b8").
Proof. vm_compute. reflexivity. Qed.

Example gcm_iv_16_back :
  aes256gcm_decrypt fips_key (replicate 16 x33)
    (from_hex "961d176ac0f5eecae20c47ab090ee257") (from_hex "c3f7c3480d863a")
    = Ok (from_hex "7b2261223a317d").
Proof. vm_compute. reflexivity. Qed.

(** A tag cut to 12 bytes is accepted, one of 3 bytes is refused, and a
    changed tag does not authenticate. *)
Example gcm_short_tag :
  aes256gcm_decrypt fips_key (replicate 16 x33)
    (from_hex "961d176ac0f5eecae20c47ab") (from_hex "c3f7c3480d863a")
    = Ok (from_hex "7b2261223a317d").
Proof. vm_compute. reflexivity. Qed.

Example gcm_tag_of_3 :
  aes256gcm_decrypt fips_key (replicate 16 x33)
    (from_hex "961d17") (from_hex "c3f7c3480d863a")
    = Throw (TypeError "Invalid authentication tag length: 3").
Proof. vm_compute. reflexivity. Qed.

Example gcm_changed_tag :
  aes256gcm_decrypt fips_key (replicate 16 x33)
    (from_hex "971d176ac0f5eecae20c47ab090ee257") (from_hex "c3f7c3480d863a")
    = Throw (Error "Unsupported state or unable to authenticate data").
Proof. vm_compute. reflexivity. Qed.

(** The buffer [encryptDocument] builds: IV, tag, ciphertext. *)
Example encrypt_buffer_value :
  encrypt_buffer (from_hex "7b2261223a317d") fips_key (entropy x33)
    = Ok (from_hex ("33333333333333333333333333333333"
                 ++ "961d176ac0f5eecae20c47ab090ee257" ++ "c3f7c3480d863a")).
Proof. vm_compute. reflexivity. Qed.

(** RFC 4648, section 10. *)
Example base64_foobar :
  map (fun s => toString_base64 (list_byte_of_string s))
    ["f"; "fo"; "foo"; "foob"; "fooba"; "foobar"]%string
    = ["Zg=="; "Zm8="; "Zm9v"; "Zm9vYg=="; "Zm9vYmE="; "Zm9vYmFy"]%string.
Proof. vm_compute. reflexivity. Qed.

Example number_text_values :
  map number_text [0; 7; 2000; 1730000000000; -12]%Z
    = ["0"; "7"; "2000"; "1730000000000"; "-12"]%string.
Proof. vm_compute. reflexivity. Qed.

End GcmTest.

(** ** Text and bytes on known values *)

Module StringTest.
Import GF256 Node NodeStrings NodeText RotateMk DocumentManager Scenario Runs.

Ltac split_values := repeat match goal with |- _ /\ _ => split end.

(** [toString()] of bytes that are no UTF-8: each ill-formed sequence
    reads as U+FFFD, a truncated sequence as one, the bytes of a
    surrogate and an overlong form byte by byte; well-formed bytes are
    kept. *)
Example toString_values :
  toString_utf8 [x61; xff; x62] = string_of_list_byte [x61; xef; xbf; xbd; x62] /\
  toString_utf8 [xe2; x82] = string_of_list_byte [xef; xbf; xbd] /\
  toString_utf8 [xe2; x82; x41] = string_of_list_byte [xef; xbf; xbd; x41] /\
  toString_utf8 [xed; xa0; x80]
    = string_of_list_byte [xef; xbf; xbd; xef; xbf; xbd; xef; xbf; xbd] /\
  toString_utf8 [xc0; xaf] = string_of_list_byte [xef; xbf; xbd; xef; xbf; xbd] /\
  toString_utf8 [xf0; x9f; x98; x80] = string_of_list_byte [xf0; x9f; x98; x80] /\
  toString_utf8 (list_byte_of_string "secret-1") = "secret-1"%string.
Proof. split_values; vm_compute; reflexivity. Qed.

(** [.length] counts UTF-16 code units: one for a character of up to
    three bytes, two for one of four. *)
Example utf16_length_values :
  utf16_length "old-master-key" = 14 /\
  utf16_length (string_of_list_byte [x63; x6c; xc3; xa9]) = 3 /\
  utf16_length (string_of_list_byte [xe2; x82; xac]) = 1 /\
  utf16_length (string_of_list_byte [xf0; x9f; x98; x80]) = 2.
Proof. split_values; vm_compute; reflexivity. Qed.

(** The text key of three characters c, l, e acute: [padEnd] adds 29
    zeros, the buffer has 33 bytes, and the cipher refuses the key. *)
Example non_ascii_key_refused :
  utf8_text (string_of_list_byte [x63; x6c; xc3; xa9]) /\
  length <$> mk_bytes (JsString (string_of_list_byte [x63; x6c; xc3; xa9])) = Ok 33 /\
  encryptDek dek7 (JsString (string_of_list_byte [x63; x6c; xc3; xa9])) (entropy x66)
    = Throw ERR_CRYPTO_INVALID_KEYLEN /\
  decryptDek (encrypted_dek text_row)
      (JsString (string_of_list_byte [x63; x6c; xc3; xa9]))
    = Throw ERR_CRYPTO_INVALID_KEYLEN.
Proof. split_values; vm_compute; reflexivity. Qed.

(** The document 2024 comes back from its blob; a blob that is authentic
    but holds no JSON text is refused by [JSON.parse]. *)
Example document_2024 :
  (blob ← encryptDocument Z stringify_number 2024%Z (toString_hex dek7) (entropy x33);
   decryptDocument Z parse_number blob (toString_hex dek7)) = Ok 2024%Z /\
  (blob ← encrypt_buffer (list_byte_of_string "{") dek7 (entropy x33);
   decryptDocument Z parse_number (to_base64 blob) (toString_hex dek7))
    = Throw (Error "not a whole number").
Proof. split_values; vm_compute; reflexivity. Qed.

End StringTest.

(** ** Numbers and strings as text *)

Module TextFacts.
Import GF256 Node Auth NodeText.

Lemma to_int_printable z :
  Z.to_int z <> Decimal.Pos Decimal.Nil /\ Z.to_int z <> Decimal.Neg Decimal.Nil.
Proof.
  destruct z as [|p|p]; cbn; split; try discriminate;
    intros [= H]; now apply Unsigned.to_uint_nonnil in H.
Qed.

(** Different integers are written differently. *)
Lemma number_text_inj i j : number_text i = number_text j -> i = j.
Proof.
  unfold number_text. intros H. apply DecimalZ.to_int_inj.
  destruct (to_int_printable i) as [Hp1 Hn1], (to_int_printable j) as [Hp2 Hn2].
  pose proof (NilZero.isi _ Hp1 Hn1) as E1. pose proof (NilZero.isi _ Hp2 Hn2) as E2.
  rewrite H in E1. congruence.
Qed.

Lemma string_of_uint_nonempty d : NilZero.string_of_uint d <> EmptyString.
Proof. destruct d; discriminate. Qed.

Lemma number_text_nonempty i : truthy (Some (number_text i)) = true.
Proof.
  unfold number_text. destruct (Z.to_int i) as [d|d]; cbn [NilZero.string_of_int].
  - pose proof (string_of_uint_nonempty d).
    now destruct (NilZero.string_of_uint d).
  - reflexivity.
Qed.

Lemma base64_nonempty buf : buf <> [] -> truthy (Some (toString_base64 buf)) = true.
Proof.
  destruct buf as [|a [|b [|c rest]]]; [congruence| | |]; reflexivity.
Qed.

Lemma length_list_byte_of_string s : length (list_byte_of_string s) = String.length s.
Proof.
  unfold list_byte_of_string. rewrite length_map.
  induction s as [|c s IH]; [reflexivity|]. cbn [list_ascii_of_string length String.length].
  now rewrite IH.
Qed.

Lemma length_string_of_list_ascii l :
  String.length (string_of_list_ascii l) = length l.
Proof.
  induction l as [|c l IH]; [reflexivity|].
  cbn [string_of_list_ascii length String.length]. now rewrite IH.
Qed.

Lemma length_append (s1 s2 : string) :
  String.length (s1 ++ s2) = String.length s1 + String.length s2.
Proof.
  induction s1 as [|c s1 IH]; [reflexivity|].
  change (S (String.length (s1 ++ s2)) = S (String.length s1 + String.length s2)).
  now rewrite IH.
Qed.

Lemma append_assoc (s1 s2 s3 : string) : ((s1 ++ s2) ++ s3 = s1 ++ (s2 ++ s3))%string.
Proof.
  induction s1 as [|c s1 IH]; [reflexivity|].
  change (String c ((s1 ++ s2) ++ s3) = String c (s1 ++ (s2 ++ s3))).
  now rewrite IH.
Qed.

End TextFacts.

(** ** The key manager: storing and reading back master keys *)

Module ManagerFacts.
Import GF256 AES Node NodeFacts Db MasterKeyManager BufferFacts.
Import Properties VaultFacts MasterKeyFacts Notions.

Lemma decryptKey_unfold ROOT_KEY blob :
  decryptKey ROOT_KEY blob = aes256cbc_decrypt ROOT_KEY (take 16 blob) (drop 16 blob).
Proof. unfold decryptKey. now rewrite slice_0_16, slice_from_16. Qed.

Lemma decryptKey_of_encryptKey ROOT_KEY keyBuf entropy blob :
  encryptKey ROOT_KEY keyBuf entropy = Ok blob ->
  decryptKey ROOT_KEY blob = Ok keyBuf.
Proof.
  unfold encryptKey. intros H. apply bind_ok in H as (c & Hc & [= <-]).
  rewrite decryptKey_unfold.
  rewrite <- (length_randomBytes 16 entropy) at 1 3.
  rewrite take_app_length, drop_app_length.
  exact (aes256cbc_decrypt_encrypt _ _ _ _ Hc).
Qed.

Lemma encryptKey_ok ROOT_KEY keyBuf entropy :
  length ROOT_KEY = 32 -> exists blob, encryptKey ROOT_KEY keyBuf entropy = Ok blob.
Proof.
  intros Hroot. unfold encryptKey.
  rewrite aes256cbc_encrypt_ok by (auto using length_randomBytes).
  cbn [mbind result_bind]. eauto.
Qed.

(** X1. Round trip of the stored key material.  Under a root key of 32
    bytes [encryptKey] turns every buffer into a blob that [decryptKey]
    turns back into that buffer; the blob is the 16 bytes of the IV
    followed by the buffer padded to the next multiple of 16, so it is
    [16 * (length / 16 + 2)] bytes long. *)
Theorem decryptKey_encryptKey ROOT_KEY keyBuf entropy :
  length ROOT_KEY = 32 ->
  exists blob,
    encryptKey ROOT_KEY keyBuf entropy = Ok blob /\
    decryptKey ROOT_KEY blob = Ok keyBuf /\
    length blob = 16 * (length keyBuf / 16 + 2).
Proof.
  intros Hroot.
  destruct (aes256cbc_encrypt ROOT_KEY (randomBytes 16 entropy) keyBuf) as [c|e] eqn:Hc.
  - assert (Hblob : encryptKey ROOT_KEY keyBuf entropy = Ok (randomBytes 16 entropy ++ c)).
    { unfold encryptKey. rewrite Hc. reflexivity. }
    exists (randomBytes 16 entropy ++ c). split; [exact Hblob|]. split.
    + now apply decryptKey_of_encryptKey with entropy.
    + rewrite length_app, length_randomBytes, (length_aes256cbc_encrypt _ _ _ _ Hc). lia.
  - rewrite aes256cbc_encrypt_ok in Hc by (auto using length_randomBytes).
    discriminate.
Qed.

Lemma filter_active_retired t :
  filter (fun r => mk_status r = active) (map retire_row t) = [].
Proof.
  induction t as [|r t IH]; [reflexivity|].
  cbn [map]. rewrite filter_cons_False by (cbn; discriminate). exact IH.
Qed.

Lemma filter_retired_retired t :
  filter (fun r => mk_status r = retired) (map retire_row t) = map retire_row t.
Proof.
  induction t as [|r t IH]; [reflexivity|].
  cbn [map]. rewrite filter_cons_True by reflexivity. now rewrite IH.
Qed.

Lemma select_active_after_add t row :
  mk_status row = active ->
  select_active_newest (map retire_row t ++ [row]) = Some row.
Proof.
  intros H. unfold select_active_newest.
  rewrite filter_app, filter_active_retired.
  rewrite filter_cons_True by exact H. reflexivity.
Qed.

Lemma unwrap_rows_retire ROOT_KEY t :
  unwrap_rows ROOT_KEY (map retire_row t) = unwrap_rows ROOT_KEY t.
Proof.
  induction t as [|r t IH]; [reflexivity|].
  cbn [map unwrap_rows]. now rewrite IH.
Qed.

(** The key a completed call stored is the one read back as active. *)
Lemma addMasterKey_active ROOT_KEY keyId hexKey now entropy d d' :
  addMasterKey ROOT_KEY keyId hexKey now entropy d = Ok d' ->
  getActiveMasterKey ROOT_KEY d' = Ok (MasterKey keyId (from_hex hexKey)).
Proof.
  intros H. apply addMasterKey_inv in H as (encrypted & Henc & Hkeys & _ & _).
  unfold getActiveMasterKey. rewrite Hkeys.
  rewrite select_active_after_add by reflexivity.
  cbn [mk_key_material mk_key_id].
  rewrite (decryptKey_of_encryptKey _ _ _ _ Henc). reflexivity.
Qed.

(** The retired keys after a completed call are the records of before. *)
Lemma addMasterKey_retired ROOT_KEY keyId hexKey now entropy d d' :
  addMasterKey ROOT_KEY keyId hexKey now entropy d = Ok d' ->
  getRetiredMasterKeys ROOT_KEY d' = unwrap_rows ROOT_KEY (master_keys d).
Proof.
  intros H. apply addMasterKey_inv in H as (encrypted & Henc & Hkeys & _ & _).
  unfold getRetiredMasterKeys, select_retired. rewrite Hkeys, filter_app.
  rewrite filter_retired_retired, filter_cons_False by (cbn; discriminate).
  rewrite filter_nil, app_nil_r. apply unwrap_rows_retire.
Qed.

(** X2. What a completed [addMasterKey(keyId, hexKey)] leaves to read:
    [getActiveMasterKey] returns that key id with the bytes the hex text
    decodes to, and [getRetiredMasterKeys] returns what unwrapping every
    record of the table before the call gives, in table order: each
    earlier key, whether it was active or retired, is a retired key now. *)
Theorem addMasterKey_then_read ROOT_KEY keyId hexKey now entropy d d' :
  addMasterKey ROOT_KEY keyId hexKey now entropy d = Ok d' ->
  getActiveMasterKey ROOT_KEY d' = Ok (MasterKey keyId (from_hex hexKey)) /\
  getRetiredMasterKeys ROOT_KEY d' = unwrap_rows ROOT_KEY (master_keys d) /\
  (forall l, getRetiredMasterKeys ROOT_KEY d' = Ok l ->
             map MasterKeyManager.keyId l = map mk_key_id (master_keys d)).
Proof.
  intros H.
  pose proof (addMasterKey_retired _ _ _ _ _ _ _ H) as Hret.
  split; [|split].
  - exact (addMasterKey_active _ _ _ _ _ _ _ H).
  - exact Hret.
  - intros l Hl. rewrite Hret in Hl. now apply unwrap_rows_keyIds in Hl.
Qed.

Lemma unwrap_rows_app ROOT_KEY t1 t2 l1 l2 :
  unwrap_rows ROOT_KEY t1 = Ok l1 -> unwrap_rows ROOT_KEY t2 = Ok l2 ->
  unwrap_rows ROOT_KEY (t1 ++ t2) = Ok (l1 ++ l2).
Proof.
  revert l1. induction t1 as [|r t1 IH]; intros l1 H1 H2.
  - injection H1 as <-. exact H2.
  - cbn [unwrap_rows app] in *.
    destruct (decryptKey ROOT_KEY (mk_key_material r)) as [m|]; [|discriminate].
    cbn [mbind result_bind] in *.
    destruct (unwrap_rows ROOT_KEY t1) as [rest|]; [|discriminate].
    cbn [mbind result_bind] in *. injection H1 as <-.
    rewrite (IH rest eq_refl H2). reflexivity.
Qed.

(** What the table holds after a sequence of calls with fresh ids: the
    keys of the calls, in call order. *)
Lemma add_all_history ROOT_KEY calls env :
  length ROOT_KEY = 32 ->
  NoDup (map call_keyId calls) ->
  Forall (fun c => String.length (call_keyId c) <= 64) calls ->
  map mk_key_id (master_keys (add_all ROOT_KEY calls (Database [] env)))
    = map call_keyId calls /\
  unwrap_rows ROOT_KEY (master_keys (add_all ROOT_KEY calls (Database [] env)))
    = Ok (map key_of calls).
Proof.
  intros Hroot. induction calls as [|c calls IH] using rev_ind; intros Hnd Hlen.
  - split; reflexivity.
  - rewrite map_app in Hnd. apply NoDup_app in Hnd as (Hnd & Hfresh & _).
    apply Forall_app in Hlen as (Hlen & Hc). apply Forall_inv in Hc.
    destruct (IH Hnd Hlen) as [Hids Hrows]. clear IH.
    unfold add_all in *. rewrite foldl_snoc.
    set (d := foldl (add_step ROOT_KEY) (Database [] env) calls) in *.
    assert (Hnew : Forall (fun r => mk_key_id r <> call_keyId c) (master_keys d)).
    { apply Forall_forall. intros r Hr Heq.
      apply (Hfresh (call_keyId c)); [|cbn; left].
      rewrite <- Hids, <- Heq. now apply list_elem_of_fmap_2. }
    destruct (addMasterKey_ok ROOT_KEY (call_keyId c) (call_hexKey c) (call_now c)
                (call_entropy c) d Hroot Hc Hnew) as [d' Hd'].
    unfold add_step, add_call_result. rewrite Hd'.
    apply addMasterKey_inv in Hd' as (encrypted & Henc & -> & _ & _).
    split.
    + rewrite !map_app, map_map. cbn [map mk_key_id retire_row]. now rewrite <- Hids.
    + rewrite map_app. apply unwrap_rows_app.
      * now rewrite unwrap_rows_retire.
      * cbn [unwrap_rows mk_key_material mk_key_id map].
        rewrite (decryptKey_of_encryptKey _ _ _ _ Henc). reflexivity.
Qed.

(** X3. The key history.  When [addMasterKey] is called with pairwise
    different key ids of at most 64 characters, starting from an empty
    table and under a root key of 32 bytes, every call completes; the
    key of the last call is the active one and [getRetiredMasterKeys]
    returns the keys of all earlier calls in the order of the calls,
    whatever their time stamps. *)
Theorem key_history ROOT_KEY (calls : list add_call) (c : add_call) (env : kms_table) :
  length ROOT_KEY = 32 ->
  NoDup (map call_keyId (calls ++ [c])) ->
  Forall (fun c => String.length (call_keyId c) <= 64) (calls ++ [c]) ->
  getActiveMasterKey ROOT_KEY (add_all ROOT_KEY (calls ++ [c]) (Database [] env))
    = Ok (key_of c) /\
  getRetiredMasterKeys ROOT_KEY (add_all ROOT_KEY (calls ++ [c]) (Database [] env))
    = Ok (map key_of calls).
Proof.
  intros Hroot Hnd Hlen.
  pose proof Hnd as Hnd'. rewrite map_app in Hnd'.
  apply NoDup_app in Hnd' as (Hnd1 & Hfresh & _).
  pose proof Hlen as Hlen'. apply Forall_app in Hlen' as (Hlen1 & Hc).
  apply Forall_inv in Hc.
  destruct (add_all_history ROOT_KEY calls env Hroot Hnd1 Hlen1) as [Hids Hrows].
  unfold add_all in *. rewrite foldl_snoc.
  set (d := foldl (add_step ROOT_KEY) (Database [] env) calls) in *.
  assert (Hnew : Forall (fun r => mk_key_id r <> call_keyId c) (master_keys d)).
  { apply Forall_forall. intros r Hr Heq.
    apply (Hfresh (call_keyId c)); [|cbn; left].
    rewrite <- Hids, <- Heq. now apply list_elem_of_fmap_2. }
  destruct (addMasterKey_ok ROOT_KEY (call_keyId c) (call_hexKey c) (call_now c)
              (call_entropy c) d Hroot Hc Hnew) as [d' Hd'].
  unfold add_step, add_call_result. rewrite Hd'.
  pose proof (addMasterKey_active _ _ _ _ _ _ _ Hd') as Hact.
  pose proof (addMasterKey_retired _ _ _ _ _ _ _ Hd') as Hret.
  split; [exact Hact|]. now rewrite Hret.
Qed.


Lemma foldl_newest_some b l :
  exists r, foldl newest (Some b) l = Some r /\ (r = b \/ r ∈ l) /\
            (mk_created_at b <= mk_created_at r)%Z /\
            Forall (fun x => (mk_created_at x <= mk_created_at r)%Z) l.
Proof.
  revert b. induction l as [|x l IH]; intros b.
  - exists b. cbn. repeat split; auto; try lia.
  - cbn [foldl newest].
    destruct (Z.ltb_spec (mk_created_at b) (mk_created_at x)) as [Hlt|Hge].
    + destruct (IH x) as (r & Hr & Hin & Hle & Hall).
      exists r. split; [exact Hr|]. split.
      * right. destruct Hin as [->|Hin]; [left|now right].
      * split; [lia|]. constructor; assumption.
    + destruct (IH b) as (r & Hr & Hin & Hle & Hall).
      exists r. split; [exact Hr|]. split.
      * destruct Hin as [->|Hin]; [now left|right; now right].
      * split; [exact Hle|]. constructor; [lia|assumption].
Qed.


Lemma select_active_newest_some t r :
  select_active_newest t = Some r ->
  r ∈ t /\ mk_status r = active /\
  forall r', r' ∈ t -> mk_status r' = active ->
             (mk_created_at r' <= mk_created_at r)%Z.
Proof.
  unfold select_active_newest. intros H.
  destruct (filter (fun r => mk_status r = active) t) as [|x l] eqn:E; [discriminate|].
  cbn [foldl newest] in H.
  destruct (foldl_newest_some x l) as (r0 & Hr0 & Hin & Hle & Hall).
  rewrite Hr0 in H. injection H as ->.
  assert (Hmem : r ∈ filter (fun r => mk_status r = active) t).
  { rewrite E. destruct Hin as [->|Hin]; [left|now right]. }
  apply list_elem_of_filter in Hmem as [Hact Hrt].
  split; [exact Hrt|]. split; [exact Hact|].
  intros r' Hr' Hact'.
  assert (Hmem' : r' ∈ filter (fun r => mk_status r = active) t)
    by (apply list_elem_of_filter; auto).
  rewrite E in Hmem'. apply elem_of_cons in Hmem' as [->|Hmem']; [exact Hle|].
  rewrite Forall_forall in Hall. now apply Hall.
Qed.


(** X5. The key [getActiveMasterKey] returns is read from an active
    record of the table whose [created_at] no other active record
    exceeds, unwrapped under the root key. *)
Theorem getActiveMasterKey_newest ROOT_KEY d k :
  getActiveMasterKey ROOT_KEY d = Ok k ->
  exists r,
    r ∈ master_keys d /\ mk_status r = active /\ mk_key_id r = keyId k /\
    decryptKey ROOT_KEY (mk_key_material r) = Ok (keyMaterial k) /\
    forall r', r' ∈ master_keys d -> mk_status r' = active ->
               (mk_created_at r' <= mk_created_at r)%Z.
Proof.
  unfold getActiveMasterKey. intros H.
  destruct (select_active_newest (master_keys d)) as [r|] eqn:E; [|discriminate].
  apply bind_ok in H as (m & Hm & [= <-]).
  apply select_active_newest_some in E as (Hin & Hact & Hmax).
  exists r. cbn [keyId keyMaterial]. auto.
Qed.

(** The insert of an id the table holds violates its UNIQUE constraint. *)
Lemma addMasterKey_dup_entry ROOT_KEY keyId hexKey now entropy d :
  keyId ∈ map mk_key_id (master_keys d) ->
  length ROOT_KEY = 32 -> String.length keyId <= 64 ->
  addMasterKey ROOT_KEY keyId hexKey now entropy d = Throw (SqlError "ER_DUP_ENTRY").
Proof.
  intros Hin Hroot Hlen.
  assert (Hex : existsb (fun r => String.eqb (mk_key_id r) keyId) (master_keys d) = true).
  { apply list_elem_of_fmap in Hin as (r & -> & Hr).
    apply existsb_exists. exists r. split; [now apply list_elem_of_In|].
    apply String.eqb_refl. }
  unfold addMasterKey, encryptKey.
  rewrite aes256cbc_encrypt_ok by (auto using length_randomBytes).
  cbn [mbind result_bind]. unfold insert_active.
  destruct (Nat.ltb_spec 64 (String.length keyId)); [lia|].
  rewrite Hex. reflexivity.
Qed.

(** X6. A key id is never used twice.  [addMasterKey] with a key id the
    table holds already, active or retired, throws and so writes
    nothing; when the root key is usable and the id fits the column the
    error is the UNIQUE violation ER_DUP_ENTRY.  A retired key can
    therefore not be made active again under its id. *)
Theorem addMasterKey_duplicate ROOT_KEY keyId hexKey now entropy d :
  keyId ∈ map mk_key_id (master_keys d) ->
  (exists e, addMasterKey ROOT_KEY keyId hexKey now entropy d = Throw e) /\
  (length ROOT_KEY = 32 -> String.length keyId <= 64 ->
   addMasterKey ROOT_KEY keyId hexKey now entropy d = Throw (SqlError "ER_DUP_ENTRY")).
Proof.
  intros Hin. split.
  - destruct (addMasterKey ROOT_KEY keyId hexKey now entropy d) as [d'|e] eqn:E; [|eauto].
    apply addMasterKey_inv in E as (_ & _ & _ & _ & Hfresh).
    apply list_elem_of_fmap in Hin as (r & -> & Hr).
    rewrite Forall_forall in Hfresh. now destruct (Hfresh r Hr).
  - intros Hroot Hlen. now apply addMasterKey_dup_entry.
Qed.

End ManagerFacts.

(** ** The listing of the master keys *)

Module ListingFacts.
Import GF256 AES Node NodeFacts Db MasterKeyManager BufferFacts.
Import Properties VaultFacts MasterKeyFacts Notions MasterKeyListing.

Lemma insert_desc_perm r l : insert_desc r l ≡ₚ r :: l.
Proof.
  induction l as [|x l IH]; [reflexivity|].
  cbn [insert_desc]. destruct (mk_created_at x <=? mk_created_at r)%Z; [reflexivity|].
  rewrite IH. apply Permutation_swap.
Qed.

Lemma order_by_perm t : order_by_created_at_desc t ≡ₚ t.
Proof.
  induction t as [|r t IH]; [reflexivity|].
  cbn [order_by_created_at_desc foldr]. rewrite insert_desc_perm.
  now apply Permutation_skip.
Qed.

Lemma insert_desc_sorted r l :
  StronglySorted newer_first l -> StronglySorted newer_first (insert_desc r l).
Proof.
  induction 1 as [|x l Hl IH Hx]; [repeat constructor|].
  cbn [insert_desc].
  destruct (Z.leb_spec (mk_created_at x) (mk_created_at r)) as [Hle|Hgt].
  - constructor; [now constructor|].
    constructor; [exact Hle|].
    eapply Forall_impl; [exact Hx|]. unfold newer_first. cbn. intros; lia.
  - constructor; [exact IH|].
    rewrite insert_desc_perm. constructor; [unfold newer_first; lia|exact Hx].
Qed.

Lemma order_by_sorted t : StronglySorted newer_first (order_by_created_at_desc t).
Proof.
  induction t as [|r t IH]; [constructor|].
  cbn [order_by_created_at_desc foldr]. now apply insert_desc_sorted.
Qed.

Lemma insert_desc_oldest r l :
  Forall (fun x => (mk_created_at r < mk_created_at x)%Z) l ->
  insert_desc r l = l ++ [r].
Proof.
  induction 1 as [|x l Hx _ IH]; [reflexivity|].
  cbn [insert_desc]. destruct (Z.leb_spec (mk_created_at x) (mk_created_at r)); [lia|].
  now rewrite IH.
Qed.

Lemma StronglySorted_map {A B} (f : A -> B) (R : A -> A -> Prop) (S : B -> B -> Prop) l :
  (forall a b, R a b -> S (f a) (f b)) ->
  StronglySorted R l -> StronglySorted S (map f l).
Proof.
  intros HRS. induction 1 as [|x l Hl IH Hx]; [constructor|].
  cbn [map]. constructor; [exact IH|].
  apply Forall_forall. intros y Hy.
  apply list_elem_of_fmap in Hy as (a & -> & Ha).
  rewrite Forall_forall in Hx. auto.
Qed.

(** X7. [listMasterKeys] returns every record of the table exactly once
    (its key id, time stamp and status), no record before a newer one;
    after a completed [addMasterKey] whose time stamp is later than
    every stored one, the new active key is the first entry. *)
Theorem listMasterKeys_newest_first (d : db) :
  listMasterKeys d ≡ₚ map listing (master_keys d) /\
  StronglySorted (fun a b => (kl_created_at b <= kl_created_at a)%Z)
    (listMasterKeys d) /\
  (forall ROOT_KEY keyId hexKey now entropy d',
     addMasterKey ROOT_KEY keyId hexKey now entropy d = Ok d' ->
     Forall (fun r => (mk_created_at r < now)%Z) (master_keys d) ->
     head (listMasterKeys d') = Some (KeyListing keyId now active)).
Proof.
  unfold listMasterKeys. split; [|split].
  - apply Permutation_map, order_by_perm.
  - apply StronglySorted_map with (R := newer_first); [|apply order_by_sorted].
    intros a b H. exact H.
  - intros ROOT_KEY keyId hexKey now entropy d' H Hold.
    apply addMasterKey_inv in H as (encrypted & _ & -> & _ & _).
    set (new := MasterKeyRow keyId encrypted now active None).
    assert (Hfront : forall t,
               Forall (fun r => (mk_created_at r < now)%Z) t ->
               head (order_by_created_at_desc (t ++ [new])) = Some new).
    { induction 1 as [|r t Hr _ IH]; [reflexivity|].
      cbn [app order_by_created_at_desc foldr].
      fold (order_by_created_at_desc (t ++ [new])).
      destruct (order_by_created_at_desc (t ++ [new])) as [|x l]; [discriminate|].
      injection IH as ->. cbn [insert_desc]. subst new. cbn [mk_created_at].
      destruct (Z.leb_spec now (mk_created_at r)); [lia|reflexivity]. }
    assert (Hold' : Forall (fun r => (mk_created_at r < now)%Z)
                      (map retire_row (master_keys d))).
    { apply Forall_forall. intros x Hx.
      apply list_elem_of_fmap in Hx as (y & -> & Hy).
      rewrite Forall_forall in Hold. exact (Hold y Hy). }
    specialize (Hfront _ Hold').
    destruct (order_by_created_at_desc _) as [|x l]; [discriminate|].
    injection Hfront as ->. reflexivity.
Qed.

End ListingFacts.

(** ** script.js *)

Module ScriptFacts.
Import GF256 AES Node NodeFacts Db MasterKeyManager BufferFacts.
Import Properties VaultFacts MasterKeyFacts Notions NodeText AddKeyScript.
Import TextFacts ManagerFacts.

Lemma key_id_at_inj now1 now2 : key_id_at now1 = key_id_at now2 -> now1 = now2.
Proof.
  unfold key_id_at. intros H. apply (String.app_inj "key-") in H.
  now apply number_text_inj.
Qed.

Lemma addMasterKey_ok_conditions ROOT_KEY keyId hexKey now entropy d d' :
  addMasterKey ROOT_KEY keyId hexKey now entropy d = Ok d' ->
  length ROOT_KEY = 32 /\ String.length keyId <= 64.
Proof.
  unfold addMasterKey. intros H.
  apply bind_ok in H as (encrypted & Henc & H).
  apply bind_ok in H as (t & Ht & _).
  apply insert_active_inv in Ht as (_ & _ & Hlen). split; [|exact Hlen].
  unfold encryptKey in Henc. apply bind_ok in Henc as (c & Hc & _).
  now apply aes256cbc_encrypt_inv in Hc as (Hk & _ & _).
Qed.

(** X8. script.js.  A run that completes leaves as active key the one
    named key-<Date.now()> whose material is the 32 random bytes it
    drew.  A second run in the same millisecond is rejected with
    ER_DUP_ENTRY, whatever it draws; a run at another millisecond whose
    id is not in the table completes. *)
Theorem script_installs_key ROOT_KEY now key_entropy created entropy d d' :
  run ROOT_KEY now key_entropy created entropy d = Ok d' ->
  getActiveMasterKey ROOT_KEY d'
    = Ok (MasterKey (key_id_at now) (randomBytes 32 key_entropy)) /\
  length (randomBytes 32 key_entropy) = 32 /\
  (forall key_entropy' created' entropy',
     run ROOT_KEY now key_entropy' created' entropy' d'
       = Throw (SqlError "ER_DUP_ENTRY")) /\
  (forall now' key_entropy' created' entropy',
     key_id_at now' ∉ map mk_key_id (master_keys d) -> now' <> now ->
     String.length (key_id_at now') <= 64 ->
     exists d'', run ROOT_KEY now' key_entropy' created' entropy' d' = Ok d'').
Proof.
  unfold run. intros H.
  destruct (addMasterKey_ok_conditions _ _ _ _ _ _ _ H) as [Hroot Hlen].
  pose proof (addMasterKey_active _ _ _ _ _ _ _ H) as Hact.
  rewrite from_hex_toString_hex in Hact.
  apply addMasterKey_inv in H as (encrypted & _ & Hkeys & _ & _).
  split; [exact Hact|]. split; [apply length_randomBytes|]. split.
  - intros ke' c' e'.
    apply addMasterKey_dup_entry; [|exact Hroot|exact Hlen].
    rewrite Hkeys, map_app. apply elem_of_app. right. cbn. left.
  - intros now' ke' c' e' Hfresh Hneq Hlen'.
    apply addMasterKey_ok; [exact Hroot|exact Hlen'|].
    rewrite Hkeys. apply Forall_app. split.
    + apply Forall_forall. intros r Hr Heq. apply Hfresh.
      apply list_elem_of_fmap in Hr as (y & -> & Hy).
      rewrite <- Heq. cbn [retire_row mk_key_id]. now apply list_elem_of_fmap_2.
    + constructor; [|constructor]. cbn [mk_key_id]. intros Heq.
      apply Hneq. symmetry. now apply key_id_at_inj.
Qed.

End ScriptFacts.

(** ** The key manager with the rotation built in *)

Module VariantFacts.
Import GF256 AES Node NodeFacts Db MasterKeyManager RotateMk BufferFacts.
Import Properties VaultFacts MasterKeyFacts RotateFacts Notions AddKeyScript.
Import ManagerFacts ScriptFacts.

Lemma variant_rotate_inv ROOT_KEY rand d d' log :
  ManagerWithRotation.rotateMasterKey ROOT_KEY rand d = Ok (d', log) ->
  d' = d /\ Forall is_type_error log /\
  "key_id"%string ∈ kt_extra_columns (kms_keys d) /\
  length log = length (kt_rows (kms_keys d)).
Proof.
  unfold ManagerWithRotation.rotateMasterKey. intros H.
  destruct (ManagerWithRotation.getActiveMasterKey ROOT_KEY d) as [ak|]; [|discriminate].
  cbn [mbind result_bind] in H.
  destruct (ManagerWithRotation.getRetiredMasterKeys ROOT_KEY d) as [[|r0 rest]|];
    try discriminate.
  cbn [mbind result_bind] in H.
  destruct (select_key_id_encrypted_dek (kms_keys d)) as [rows|] eqn:Hsel; [|discriminate].
  cbn [mbind result_bind] in H.
  destruct (rotate_rows _ _ rand 0 (kms_keys d) rows) as [t lg] eqn:E.
  injection H as <- <-.
  destruct (rotate_rows_buffer (keyMaterial r0) (JsBuffer (keyMaterial ak)) rand rows 0
              (kms_keys d)) as [Ht Hlog].
  rewrite E in Ht, Hlog. cbn [fst snd] in Ht, Hlog. subst t.
  split; [apply set_kms_keys_same|]. split; [exact Hlog|].
  pose proof (rotate_rows_log_keys (JsBuffer (keyMaterial r0))
                (JsBuffer (keyMaterial ak)) rand rows 0 (kms_keys d)) as Hkeys.
  rewrite E in Hkeys. cbn [snd] in Hkeys.
  unfold select_key_id_encrypted_dek in Hsel.
  destruct (bool_decide_reflect ("key_id"%string ∈ kt_extra_columns (kms_keys d)));
    [|discriminate].
  injection Hsel as <-. split; [assumption|].
  apply (f_equal length) in Hkeys. now rewrite !length_map in Hkeys.
Qed.

Lemma variant_getActive ROOT_KEY d k :
  MasterKeyManager.getActiveMasterKey ROOT_KEY d = Ok k ->
  ManagerWithRotation.getActiveMasterKey ROOT_KEY d = Ok k.
Proof.
  unfold MasterKeyManager.getActiveMasterKey, ManagerWithRotation.getActiveMasterKey.
  destruct (select_active_newest (master_keys d)); [auto|discriminate].
Qed.

(** X9. The key manager with the rotation built in: the first
    [addMasterKey()] on an empty table stores the new key, active and
    readable under the root key, and then rejects with 'No retired (old)
    master key found.': the call fails although the key is in place. *)
Theorem variant_first_key_rejected ROOT_KEY now key_entropy created entropy rand env :
  length ROOT_KEY = 32 ->
  String.length (key_id_at now) <= 64 ->
  exists encrypted,
    ManagerWithRotation.addMasterKey ROOT_KEY now key_entropy created entropy rand
        (Database [] env)
      = (Database [MasterKeyRow (key_id_at now) encrypted created active None] env,
         Throw (Error "No retired (old) master key found.")) /\
    decryptKey ROOT_KEY encrypted = Ok (randomBytes 32 key_entropy).
Proof.
  intros Hroot Hlen.
  destruct (encryptKey_ok ROOT_KEY (randomBytes 32 key_entropy) entropy Hroot)
    as (encrypted & Henc).
  pose proof (decryptKey_of_encryptKey _ _ _ _ Henc) as Hdec.
  exists encrypted. split; [|exact Hdec].
  unfold ManagerWithRotation.addMasterKey.
  rewrite from_hex_toString_hex, Henc. unfold insert_active.
  destruct (Nat.ltb_spec 64 (String.length (key_id_at now))); [lia|].
  cbn [master_keys existsb app set_master_keys retire_others map mk_key_id mk_status
       kms_keys].
  rewrite String.eqb_refl. cbn [negb andb].
  unfold ManagerWithRotation.rotateMasterKey,
    ManagerWithRotation.getActiveMasterKey, ManagerWithRotation.getRetiredMasterKeys.
  unfold select_active_newest, select_retired, set_master_keys.
  cbn [master_keys kms_keys].
  rewrite (filter_cons_True (fun r => mk_status r = active)) by reflexivity.
  rewrite (filter_cons_False (fun r => mk_status r = retired)) by (cbn; discriminate).
  rewrite !filter_nil. cbn [foldl newest mk_key_material mk_key_id].
  rewrite Hdec. reflexivity.
Qed.

(** X10. The key manager with the rotation built in: every
    [addMasterKey()] leaves the table [kms_keys] as it was.  Either the
    database is unchanged and the call threw (the key could not be
    stored), or the new key is the active one and its id the last of
    the table, whatever the rotation did; and when the call resolves,
    the rotation failed with a type error on every envelope row. *)
Theorem variant_add_keeps_envelopes ROOT_KEY now key_entropy created entropy rand d d' r :
  ManagerWithRotation.addMasterKey ROOT_KEY now key_entropy created entropy rand d
    = (d', r) ->
  kms_keys d' = kms_keys d /\
  ((d' = d /\ exists e, r = Throw e) \/
   (MasterKeyManager.getActiveMasterKey ROOT_KEY d'
      = Ok (MasterKey (key_id_at now) (randomBytes 32 key_entropy)) /\
    map mk_key_id (master_keys d') = map mk_key_id (master_keys d) ++ [key_id_at now])) /\
  (forall log, r = Ok log ->
     Forall is_type_error log /\ length log = length (kt_rows (kms_keys d)) /\
     "key_id"%string ∈ kt_extra_columns (kms_keys d)).
Proof.
  unfold ManagerWithRotation.addMasterKey. intros H.
  destruct (encryptKey ROOT_KEY _ entropy) as [encrypted|e] eqn:Henc.
  2:{ injection H as <- <-. split; [reflexivity|]. split; [left; eauto|discriminate]. }
  destruct (insert_active _ _ _ _) as [t|e] eqn:Hins.
  2:{ injection H as <- <-. split; [reflexivity|]. split; [left; eauto|discriminate]. }
  set (d1 := set_master_keys d (retire_others t (key_id_at now))) in *.
  assert (Hadd : addMasterKey ROOT_KEY (key_id_at now)
                   (toString_hex (randomBytes 32 key_entropy)) created entropy d = Ok d1).
  { unfold addMasterKey. rewrite Henc. cbn [mbind result_bind]. rewrite Hins. reflexivity. }
  pose proof (addMasterKey_active _ _ _ _ _ _ _ Hadd) as Hact.
  rewrite from_hex_toString_hex in Hact.
  apply addMasterKey_inv in Hadd as (enc' & _ & Hkeys & Hkms & _).
  assert (Hids : map mk_key_id (master_keys d1)
                 = map mk_key_id (master_keys d) ++ [key_id_at now]).
  { rewrite Hkeys, map_app, map_map. reflexivity. }
  destruct (ManagerWithRotation.rotateMasterKey ROOT_KEY rand d1) as [[d2 log]|e] eqn:Hrot.
  - apply variant_rotate_inv in Hrot as (-> & Hlog & Hcol & Hlen).
    injection H as <- <-. split; [exact Hkms|]. split; [right; auto|].
    intros log' [= <-]. rewrite Hkms in Hcol, Hlen. auto.
  - injection H as <- <-. split; [exact Hkms|]. split; [right; auto|discriminate].
Qed.

(** X11. rotate-mk.js: on every database a run of [rotateMasterKey]
    leaves the database as it was.  A run that completes has logged a
    type error for each envelope row and needs a [key_id] column in
    [kms_keys]; without that column the run throws. *)
Theorem rotateMasterKey_rewrites_nothing ROOT_KEY rand d :
  db_after d (rotateMasterKey ROOT_KEY rand d) = d /\
  (forall d' log,
     rotateMasterKey ROOT_KEY rand d = Ok (d', log) ->
     Forall is_type_error log /\ length log = length (kt_rows (kms_keys d)) /\
     "key_id"%string ∈ kt_extra_columns (kms_keys d)) /\
  ("key_id"%string ∉ kt_extra_columns (kms_keys d) ->
   exists e, rotateMasterKey ROOT_KEY rand d = Throw e).
Proof.
  assert (Hok : forall d' log,
             rotateMasterKey ROOT_KEY rand d = Ok (d', log) ->
             d' = d /\ Forall is_type_error log /\
             length log = length (kt_rows (kms_keys d)) /\
             "key_id"%string ∈ kt_extra_columns (kms_keys d)).
  { intros d' log H.
    destruct (rotateMasterKey_unchanged _ _ _ _ _ H) as [-> Hlog].
    split; [reflexivity|]. split; [exact Hlog|].
    apply rotateMasterKey_inv in H as (ak & r0 & rest & rows & _ & _ & Hsel & H).
    injection H as _ ->.
    pose proof (rotate_rows_log_keys (JsBuffer (keyMaterial r0))
                  (JsBuffer (keyMaterial ak)) rand rows 0 (kms_keys d)) as Hkeys.
    unfold select_key_id_encrypted_dek in Hsel.
    destruct (bool_decide_reflect ("key_id"%string ∈ kt_extra_columns (kms_keys d)));
      [|discriminate].
    injection Hsel as <-. split; [|assumption].
    apply (f_equal length) in Hkeys. now rewrite !length_map in Hkeys. }
  split; [|split].
  - destruct (rotateMasterKey ROOT_KEY rand d) as [[d' log]|e] eqn:E; [|reflexivity].
    cbn [db_after]. now destruct (Hok d' log eq_refl).
  - intros d' log H. destruct (Hok d' log H) as (_ & ? & ? & ?). auto.
  - intros Hcol.
    destruct (rotateMasterKey ROOT_KEY rand d) as [[d' log]|e] eqn:E; [|eauto].
    destruct (Hok d' log eq_refl) as (_ & _ & _ & Hin). contradiction.
Qed.

End VariantFacts.

(** ** The padding helpers *)

Module PaddingFacts.
Import GF256 AES Node NodeFacts Db Vault BufferFacts.

(** X12. [pkcs7Unpad (pkcs7Pad p) = p] for every buffer [p], in the vault
    and in rotate-mk.js alike.  [pkcs7Pad] adds between 1 and 16 bytes,
    each equal to their number, and always at least one: the result is
    [16 * (length p / 16 + 1)] bytes long. *)
Theorem pkcs7_pad_unpad (p : bytes) :
  pkcs7Unpad (pkcs7Pad p) = p /\
  length (pkcs7Pad p) = 16 * (length p / 16 + 1) /\
  (exists n, 1 <= n <= 16 /\ pkcs7Pad p = p ++ replicate n (byte_of_nat n)) /\
  RotateMk.pkcs7Unpad (RotateMk.pkcs7Pad p) = p.
Proof.
  split; [apply pkcs7Unpad_pkcs7Pad|]. split; [apply length_pkcs7Pad|].
  split; [|apply pkcs7Unpad_pkcs7Pad].
  exists (16 - length p mod 16). split; [apply pad_count_bounds|reflexivity].
Qed.

(** X13. [pkcs7Unpad] checks nothing and never throws.  Its result is a
    leading part of its input; it is empty for the empty buffer, for a
    last byte 0 ([slice(0, -0)]) and for a last byte that is at least
    the length; otherwise it drops as many bytes as the last byte says,
    whatever those bytes are. *)
Theorem pkcs7Unpad_unchecked (buf : bytes) :
  (exists rest, buf = pkcs7Unpad buf ++ rest) /\
  (buf = [] -> pkcs7Unpad buf = []) /\
  (forall q b, buf = q ++ [b] -> Byte.to_nat b = 0 -> pkcs7Unpad buf = []) /\
  (forall q b, buf = q ++ [b] -> length buf <= Byte.to_nat b -> pkcs7Unpad buf = []) /\
  (forall q b, buf = q ++ [b] -> 0 < Byte.to_nat b ->
     pkcs7Unpad buf = take (length buf - Byte.to_nat b) q).
Proof.
  rewrite pkcs7Unpad_spec. split; [|split; [|split; [|split]]].
  - destruct (last buf) as [b|]; [|now exists buf].
    destruct (Byte.to_nat b =? 0); [now exists buf|].
    exists (drop (length buf - Byte.to_nat b) buf). now rewrite take_drop.
  - now intros ->.
  - intros q b -> Hb. rewrite last_snoc, Hb. reflexivity.
  - intros q b -> Hb. rewrite last_snoc.
    destruct (Byte.to_nat b =? 0); [reflexivity|].
    replace (length (q ++ [b]) - Byte.to_nat b) with 0 by lia. reflexivity.
  - intros q b -> Hb. rewrite last_snoc.
    destruct (Nat.eqb_spec (Byte.to_nat b) 0); [lia|].
    rewrite take_app_le; [reflexivity|]. rewrite length_app. cbn [length]. lia.
Qed.

End PaddingFacts.

(** ** The envelope as the vault builds and opens it *)

Module EnvelopeFacts.
Import GF256 AES Node NodeStrings NodeFacts Db MasterKeyManager Auth Vault KeyServer.
Import BufferFacts.
Import Properties VaultFacts MasterKeyFacts Notions.

Lemma length_encrypt_payload dekBuf p entropy blob :
  encrypt_payload dekBuf p entropy = Ok blob ->
  length blob = 16 * (length p / 16 + 3) /\
  take 16 blob = randomBytes 16 entropy /\
  aes256cbc_decrypt dekBuf (take 16 blob) (drop 16 blob) = Ok (pkcs7Pad p).
Proof.
  intros H. apply encrypt_payload_inv in H as (c & Hc & ->).
  rewrite length_app, length_randomBytes, (length_aes256cbc_encrypt _ _ _ _ Hc).
  rewrite length_pkcs7Pad.
  rewrite (take_app_length' _ _ 16), (drop_app_length' _ _ 16)
    by (symmetry; apply length_randomBytes).
  split; [|split; [reflexivity|exact (aes256cbc_decrypt_encrypt _ _ _ _ Hc)]].
  replace (16 * (length p / 16 + 1)) with ((length p / 16 + 1) * 16) by lia.
  rewrite Nat.div_mul by lia. lia.
Qed.

Lemma length_wrap_dek masterKey dekBuf entropy blob :
  wrap_dek masterKey dekBuf entropy = Ok blob ->
  length blob = 16 * (length dekBuf / 16 + 3) /\
  take 16 blob = randomBytes 16 entropy.
Proof.
  intros H.
  assert (H' : encrypt_payload masterKey dekBuf entropy = Ok blob) by exact H.
  apply length_encrypt_payload in H' as (? & ? & _). auto.
Qed.

(** X14. The blobs of [POST /api/encrypt].  The payload is padded twice,
    by [pkcs7Pad] and by the cipher: [encrypted_key] is
    [16 * (length / 16 + 3)] bytes and [encrypted_dek] 80 bytes long;
    each starts with its IV, and what the DEK decrypts from
    [encrypted_key] is the payload as [pkcs7Pad] padded it. *)
Theorem encrypt_blob_layout ROOT_KEY d p dek entropy entropy2 encrypted_key encrypted_dek :
  Vault.encrypt ROOT_KEY d (Some (Base64 p)) (Some dek) entropy entropy2
    = EncryptOk encrypted_key encrypted_dek ->
  length encrypted_key = 16 * (length p / 16 + 3) /\
  length encrypted_dek = 80 /\
  take 16 encrypted_key = randomBytes 16 entropy /\
  take 16 encrypted_dek = randomBytes 16 entropy2 /\
  aes256cbc_decrypt (from_hex dek) (take 16 encrypted_key) (drop 16 encrypted_key)
    = Ok (pkcs7Pad p).
Proof.
  intros H.
  apply encrypt_inv in H as (p' & dt & mk & [= <-] & [= <-] & _ & _ & Hd & Hek & Hedk).
  apply length_encrypt_payload in Hek as (Hl & Hiv & Hdec).
  apply length_wrap_dek in Hedk as (Hl2 & Hiv2).
  rewrite Hd in Hl2. auto.
Qed.

Lemma decrypt_dek_body_wrap ROOT_KEY d mk dekBuf entropy blob :
  getActiveMasterKey ROOT_KEY d = Ok mk ->
  length (keyMaterial mk) = 32 ->
  wrap_dek (keyMaterial mk) dekBuf entropy = Ok blob ->
  decrypt_dek_body ROOT_KEY d blob = Ok (toString_hex dekBuf).
Proof.
  intros Hmk Hlen Hw. unfold decrypt_dek_body.
  rewrite Hmk. cbn [mbind result_bind]. rewrite Hlen. cbn [Nat.eqb negb].
  rewrite (unwrap_wrap_dek _ _ _ _ Hw). reflexivity.
Qed.

(** The base64 text of a wrapped DEK is not empty. *)
Lemma wrap_dek_text masterKey dekBuf entropy blob :
  wrap_dek masterKey dekBuf entropy = Ok blob -> to_base64 blob = Base64 blob.
Proof.
  intros H. apply length_wrap_dek in H as [H _].
  destruct blob; [cbn in H; lia|reflexivity].
Qed.

(** A verified caller gets back the DEK that was wrapped under the active
    master key. *)
Lemma decrypt_dek_wrapped ROOT_KEY jwt_verify d authorization reply mk dekBuf entropy
    blob :
  getActiveMasterKey ROOT_KEY d = Ok mk ->
  length (keyMaterial mk) = 32 ->
  wrap_dek (keyMaterial mk) dekBuf entropy = Ok blob ->
  post_verify jwt_verify (bearer_token authorization) = Ok reply ->
  truthy (jwt_id (payload reply)) = true ->
  decrypt_dek ROOT_KEY jwt_verify d authorization (Some (to_base64 blob))
    = DekOk (toString_hex dekBuf).
Proof.
  intros Hmk Hlen Hw Hv Hid.
  rewrite (wrap_dek_text _ _ _ _ Hw), (decrypt_dek_verified _ _ _ _ _ _ Hv Hid).
  now rewrite (decrypt_dek_body_wrap _ _ _ _ _ _ Hmk Hlen Hw).
Qed.

(** X15. Round trip of the DEK through the vault: the [encrypted_dek] of
    a successful [POST /api/encrypt], sent as the base64 text of the
    reply to [POST /api/decrypt-dek] with a token the auth service
    verifies while the master keys are the same, is answered with the
    DEK, as the lower-case hex text of the bytes the request's [dek]
    decoded to. *)
Theorem decrypt_dek_of_encrypt ROOT_KEY jwt_verify d d' data dek entropy entropy2
    encrypted_key encrypted_dek authorization reply :
  Vault.encrypt ROOT_KEY d data (Some dek) entropy entropy2
    = EncryptOk encrypted_key encrypted_dek ->
  master_keys d' = master_keys d ->
  post_verify jwt_verify (bearer_token authorization) = Ok reply ->
  truthy (jwt_id (payload reply)) = true ->
  decrypt_dek ROOT_KEY jwt_verify d' authorization (Some (to_base64 encrypted_dek))
    = DekOk (toString_hex (from_hex dek)).
Proof.
  intros H Hd Hv Hid.
  apply encrypt_inv in H as (p & dt & mk & -> & [= <-] & Hmk & Hlen & _ & _ & Hedk).
  rewrite <- (getActiveMasterKey_ext ROOT_KEY d d' Hd) in Hmk.
  now apply decrypt_dek_wrapped with reply mk entropy2.
Qed.

Lemma encrypt_present ROOT_KEY d data dek entropy entropy2 :
  truthy_buf data = true -> truthy dek = true ->
  Vault.encrypt ROOT_KEY d data dek entropy entropy2 =
    match encrypt_body ROOT_KEY d (from_base64 (default EmptyText data))
            (default EmptyString dek)
            entropy entropy2 with
    | Ok (encryptedKey, encryptedDek) => EncryptOk encryptedKey encryptedDek
    | Throw _ => Status 500 "Encryption failed"
    end.
Proof. intros Hd Hk. unfold Vault.encrypt. now rewrite Hd, Hk. Qed.

Lemma encrypt_body_ok ROOT_KEY d p dek entropy entropy2 :
  (exists r, encrypt_body ROOT_KEY d p dek entropy entropy2 = Ok r) <->
  length (from_hex dek) = 32 /\
  exists mk, getActiveMasterKey ROOT_KEY d = Ok mk /\ length (keyMaterial mk) = 32.
Proof.
  unfold encrypt_body.
  destruct (getActiveMasterKey ROOT_KEY d) as [mk|e]; cbn [mbind result_bind].
  2:{ split; [intros [r [=]]|intros (_ & mk & [=] & _)]. }
  destruct (Nat.eqb_spec (length (keyMaterial mk)) 32) as [Hk|Hk]; cbn [negb].
  2:{ split; [intros [r [=]]|intros (_ & mk' & [= <-] & ?); contradiction]. }
  destruct (Nat.eqb_spec (length (from_hex dek)) 32) as [Hd|Hd]; cbn [negb].
  2:{ split; [intros [r [=]]|intros (? & _); contradiction]. }
  destruct (encrypt_payload_ok (from_hex dek) p entropy Hd) as [ek ->].
  destruct (wrap_dek_ok (keyMaterial mk) (from_hex dek) entropy2 Hk) as [edk ->].
  cbn [mbind result_bind]. split; eauto.
Qed.

Lemma encrypt_succeeds ROOT_KEY d data dek entropy entropy2 :
  truthy_buf data = true -> truthy dek = true ->
  length (from_hex (default EmptyString dek)) = 32 ->
  (exists mk, getActiveMasterKey ROOT_KEY d = Ok mk /\ length (keyMaterial mk) = 32) ->
  exists encrypted_key encrypted_dek,
    Vault.encrypt ROOT_KEY d data dek entropy entropy2
      = EncryptOk encrypted_key encrypted_dek.
Proof.
  intros Hd Hk Hlen Hmk. rewrite encrypt_present by assumption.
  destruct (proj2 (encrypt_body_ok ROOT_KEY d (from_base64 (default EmptyText data))
                     (default EmptyString dek) entropy entropy2) (conj Hlen Hmk))
    as [[ek edk] ->].
  eauto.
Qed.

Lemma encrypt_fails ROOT_KEY d data dek entropy entropy2 :
  truthy_buf data = true -> truthy dek = true ->
  (length (from_hex (default EmptyString dek)) <> 32 \/
   forall mk, getActiveMasterKey ROOT_KEY d = Ok mk -> length (keyMaterial mk) <> 32) ->
  Vault.encrypt ROOT_KEY d data dek entropy entropy2 = Status 500 "Encryption failed".
Proof.
  intros Hd Hk Hbad. rewrite encrypt_present by assumption.
  destruct (encrypt_body _ _ _ _ _ _) as [[ek edk]|] eqn:E; [|reflexivity].
  exfalso.
  destruct (proj1 (encrypt_body_ok ROOT_KEY d (from_base64 (default EmptyText data))
                     (default EmptyString dek) entropy entropy2)
              (ex_intro _ _ E)) as (Hlen & mk & Hmk & Hmklen).
  destruct Hbad as [Hbad|Hbad]; [contradiction|]. exact (Hbad mk Hmk Hmklen).
Qed.

(** X16. The replies of the handler of [POST /api/encrypt], to a request
    whose body [express.json()] has parsed (a body over its limit of
    100 kB is answered 413 by the parser and does not reach the handler)
    and whose fields [data] and [dek] are text where present.  The
    handler succeeds exactly when the two texts are present and not
    empty, [dek] decodes to 32 bytes and an active master key of 32
    bytes can be read; a [data] text that is not empty counts as present
    whatever bytes it carries, none included.  The handler answers 400
    'Missing fields' when a text is missing or empty and 500 'Encryption
    failed' in every other case. *)
Theorem encrypt_outcomes ROOT_KEY d data dek entropy entropy2 :
  ((exists encrypted_key encrypted_dek,
      Vault.encrypt ROOT_KEY d data dek entropy entropy2
        = EncryptOk encrypted_key encrypted_dek) <->
   truthy_buf data = true /\ truthy dek = true /\
   length (from_hex (default EmptyString dek)) = 32 /\
   exists mk, getActiveMasterKey ROOT_KEY d = Ok mk /\ length (keyMaterial mk) = 32) /\
  (truthy_buf data = false \/ truthy dek = false ->
   Vault.encrypt ROOT_KEY d data dek entropy entropy2 = Status 400 "Missing fields") /\
  (truthy_buf data = true -> truthy dek = true ->
   (length (from_hex (default EmptyString dek)) <> 32 \/
    forall mk, getActiveMasterKey ROOT_KEY d = Ok mk -> length (keyMaterial mk) <> 32) ->
   Vault.encrypt ROOT_KEY d data dek entropy entropy2 = Status 500 "Encryption failed").
Proof.
  assert (H400 : truthy_buf data = false \/ truthy dek = false ->
                 Vault.encrypt ROOT_KEY d data dek entropy entropy2
                   = Status 400 "Missing fields").
  { unfold Vault.encrypt. intros [->| ->]; [reflexivity|].
    now rewrite orb_true_r. }
  split; [split|split; [exact H400|]].
  - intros (ek & edk & H).
    destruct (truthy_buf data) eqn:Hd; [|rewrite H400 in H by auto; discriminate].
    destruct (truthy dek) eqn:Hk; [|rewrite H400 in H by auto; discriminate].
    rewrite encrypt_present in H by assumption.
    split; [reflexivity|]. split; [reflexivity|].
    apply encrypt_body_ok with (p := from_base64 (default EmptyText data))
                               (entropy := entropy) (entropy2 := entropy2).
    destruct (encrypt_body _ _ _ _ _ _) as [r|]; [eauto|discriminate].
  - intros (Hd & Hk & Hlen & Hmk). now apply encrypt_succeeds.
  - intros Hd Hk Hbad. now apply encrypt_fails.
Qed.

End EnvelopeFacts.

(** ** The Authorization header *)

Module BearerFacts.
Import GF256 AES Node NodeFacts Db MasterKeyManager Auth Vault KeyServer BufferFacts.
Import Properties VaultFacts Notions.

Lemma strip_prefix_app pat rest : strip_prefix pat (pat ++ rest) = Some rest.
Proof.
  induction pat as [|c pat IH]; [reflexivity|].
  change (strip_prefix (String c pat) (String c (pat ++ rest)) = Some rest).
  cbn [strip_prefix]. now rewrite Ascii.eqb_refl.
Qed.

Lemma strip_prefix_inv pat : forall s rest,
  strip_prefix pat s = Some rest -> s = (pat ++ rest)%string.
Proof.
  induction pat as [|c pat IH]; intros s rest H.
  - cbn in H. now injection H as ->.
  - destruct s as [|c' s]; [discriminate|]. cbn [strip_prefix] in H.
    destruct (Ascii.eqb_spec c c') as [->|]; [|discriminate].
    change (String c' s = String c' (pat ++ rest)). f_equal. now apply IH.
Qed.

Lemma remove_first_unfold pat s :
  remove_first pat s =
    match strip_prefix pat s with
    | Some rest => rest
    | None => match s with
              | EmptyString => EmptyString
              | String c s' => String c (remove_first pat s')
              end
    end.
Proof. destruct s; reflexivity. Qed.

Lemma remove_first_prefix pat t : remove_first pat (pat ++ t) = t.
Proof. now rewrite remove_first_unfold, strip_prefix_app. Qed.

Lemma remove_first_absent pat s : ~ occurs pat s -> remove_first pat s = s.
Proof.
  induction s as [|c s IH]; intros Hno; rewrite remove_first_unfold.
  - destruct (strip_prefix pat EmptyString) as [rest|] eqn:E; [|reflexivity].
    apply strip_prefix_inv in E. destruct Hno. now exists EmptyString, rest.
  - destruct (strip_prefix pat (String c s)) as [rest|] eqn:E.
    + apply strip_prefix_inv in E. destruct Hno. now exists EmptyString, rest.
    + f_equal. apply IH. intros (pre & post & ->).
      apply Hno. now exists (String c pre), post.
Qed.

(** X17. The Authorization header is read with [replace('Bearer ', '')]:
    a header 'Bearer t' gives the token t, and a header t without the
    text 'Bearer ' is taken whole as the token.  So [POST
    /api/decrypt-dek] and [GET /api/keys] answer a bare token as they
    answer the same token sent with the Bearer scheme. *)
Theorem bearer_scheme_optional ROOT_KEY jwt_verify d (t : string) blob :
  ~ occurs "Bearer " t ->
  bearer_token (Some ("Bearer " ++ t)%string) = Some t /\
  bearer_token (Some t) = Some t /\
  decrypt_dek ROOT_KEY jwt_verify d (Some t) blob
    = decrypt_dek ROOT_KEY jwt_verify d (Some ("Bearer " ++ t)%string) blob /\
  get_keys ROOT_KEY jwt_verify d (Some t)
    = get_keys ROOT_KEY jwt_verify d (Some ("Bearer " ++ t)%string).
Proof.
  intros Hno.
  assert (H1 : bearer_token (Some ("Bearer " ++ t)%string) = Some t).
  { unfold bearer_token. cbn [fmap option_fmap option_map].
    now rewrite remove_first_prefix. }
  assert (H2 : bearer_token (Some t) = Some t).
  { unfold bearer_token. cbn [fmap option_fmap option_map].
    now rewrite remove_first_absent. }
  split; [exact H1|]. split; [exact H2|].
  unfold decrypt_dek, get_keys. now rewrite H1, H2.
Qed.

End BearerFacts.

(** ** The key server: storing and serving envelopes *)

Module KeyServerFacts.
Import GF256 AES Node NodeStrings NodeFacts Db MasterKeyManager Auth Vault KeyServer.
Import BufferFacts.
Import Properties VaultFacts Notions EnvelopeFacts BearerFacts.

Lemma insert_envelope_inv t user_id ek edk now t' :
  insert_envelope t user_id ek edk now = Ok t' ->
  t' = KmsTable (kt_extra_columns t)
         (kt_rows t ++ [KmsRow user_id (Some ek) (Some edk) (Some now) ∅]) /\
  Forall (fun r => kr_user_id r <> user_id) (kt_rows t).
Proof.
  unfold insert_envelope.
  destruct (64 <? String.length user_id); [discriminate|].
  destruct (existsb _ (kt_rows t)) eqn:E; [discriminate|].
  intros [= <-]. split; [reflexivity|].
  apply Forall_forall. intros r Hr Heq.
  apply not_true_iff_false in E. apply E.
  apply existsb_exists. exists r. split; [now apply list_elem_of_In|].
  now apply String.eqb_eq.
Qed.

Lemma insert_envelope_dup t user_id ek edk now :
  user_id ∈ map kr_user_id (kt_rows t) ->
  exists e, insert_envelope t user_id ek edk now = Throw e.
Proof.
  intros Hin. unfold insert_envelope.
  destruct (64 <? String.length user_id); [eauto|].
  replace (existsb _ (kt_rows t)) with true; [eauto|].
  symmetry. apply list_elem_of_fmap in Hin as (r & -> & Hr).
  apply existsb_exists. exists r. split; [now apply list_elem_of_In|].
  apply String.eqb_refl.
Qed.

(** The base64 text of the bytes of a string that is not empty is not
    empty. *)
Lemma to_base64_text (text : string) :
  truthy (Some text) = true ->
  to_base64 (list_byte_of_string text) = Base64 (list_byte_of_string text).
Proof. destruct text; [discriminate|reflexivity]. Qed.

(** What a request that was answered [Stored] has done. *)
Lemma post_keys_stored ROOT_KEY jwt_sign d data user_id now dek_entropy entropy entropy2
    token d' :
  post_keys ROOT_KEY jwt_sign d data user_id now dek_entropy entropy entropy2
    = (Stored token, d') ->
  exists text uid ek edk t,
    data = Some text /\ user_id = Some uid /\ truthy (Some uid) = true /\
    Vault.encrypt ROOT_KEY d (Some (Base64 (list_byte_of_string text)))
      (Some (toString_hex (randomBytes 32 dek_entropy))) entropy entropy2
      = EncryptOk ek edk /\
    insert_envelope (kms_keys d) uid ek edk now = Ok t /\
    d' = set_kms_keys d t /\
    token = jwt_sign (JwtPayload (Some uid)) /\ truthy (Some token) = true.
Proof.
  unfold post_keys.
  destruct (truthy data) eqn:Ht; cbn [negb orb]; [|intros [=]].
  destruct (truthy user_id) eqn:Hu; cbn [negb]; [|intros [=]].
  destruct data as [text|]; [|discriminate Ht].
  destruct user_id as [uid|]; [|discriminate Hu].
  cbn [default from_option id]. rewrite (to_base64_text text Ht).
  destruct (Vault.encrypt _ _ _ _ _ _) as [| ek edk | | |] eqn:E;
    [intros [=]| |intros [=]|intros [=]|intros [=]].
  destruct (insert_envelope _ _ _ _ _) as [t|] eqn:Hi; [|intros [=]].
  unfold post_issue.
  destruct (truthy (Some (jwt_sign (JwtPayload (Some uid))))) eqn:Htok; cbn [negb];
    [|intros [=]].
  intros [= <- <-]. exists text, uid, ek, edk, t. auto 10.
Qed.

Lemma select_by_user_app t rows uid :
  select_by_user (KmsTable (kt_extra_columns t) (kt_rows t ++ rows)) uid
    = select_by_user t uid ++ filter (fun r => kr_user_id r = uid) rows.
Proof. unfold select_by_user. cbn [kt_rows]. apply filter_app. Qed.

Lemma select_by_user_fresh t uid :
  Forall (fun r => kr_user_id r <> uid) (kt_rows t) -> select_by_user t uid = [].
Proof.
  unfold select_by_user. induction 1 as [|r rows Hr _ IH]; [reflexivity|].
  now rewrite filter_cons_False.
Qed.

(** X18. Store, then retrieve.  When [POST /api/keys] answered with an
    access token and the auth service verifies that token as the
    user's, [GET /api/keys] with the header 'Bearer <token>' on the
    database the request left returns the data that was stored: its
    bytes read as text, which is the string that was stored itself. *)
Theorem store_then_retrieve ROOT_KEY jwt_verify jwt_sign d (data user_id : string)
    now dek_entropy entropy entropy2 token d' :
  post_keys ROOT_KEY jwt_sign d (Some data) (Some user_id) now dek_entropy entropy
    entropy2 = (Stored token, d') ->
  jwt_verify token = Some (JwtPayload (Some user_id)) ->
  get_keys ROOT_KEY jwt_verify d' (Some ("Bearer " ++ token)%string)
    = DataOk (toString_utf8 (list_byte_of_string data)) /\
  (utf8_text data ->
   get_keys ROOT_KEY jwt_verify d' (Some ("Bearer " ++ token)%string) = DataOk data).
Proof.
  intros H Hjwt.
  assert (Hget : get_keys ROOT_KEY jwt_verify d' (Some ("Bearer " ++ token)%string)
                 = DataOk (toString_utf8 (list_byte_of_string data)));
    [|split; [exact Hget|intros Htext; now rewrite Hget, Htext]].
  apply post_keys_stored in H
    as (text & uid & ek & edk & t & [= <-] & [= <-] & Hu & Henc & Hins & -> & -> & Htok).
  apply insert_envelope_inv in Hins as (-> & Hfresh).
  set (tok := jwt_sign (JwtPayload (Some user_id))) in *.
  assert (Hb : bearer_token (Some ("Bearer " ++ tok)%string) = Some tok).
  { unfold bearer_token. cbn [fmap option_fmap option_map].
    now rewrite remove_first_prefix. }
  assert (Hv : post_verify jwt_verify (Some tok)
               = Ok (VerifyData true (JwtPayload (Some user_id)))).
  { unfold post_verify. rewrite Htok. cbn [negb default from_option id].
    now rewrite Hjwt. }
  unfold get_keys. rewrite Hb, Htok, Hv. cbn [negb valid payload jwt_id orb].
  rewrite Hu. cbn [negb default from_option id kms_keys set_kms_keys].
  rewrite select_by_user_app, (select_by_user_fresh _ _ Hfresh).
  rewrite filter_cons_True by reflexivity. rewrite filter_nil. cbn [app].
  cbn [kr_user_id kr_encrypted_dek kr_encrypted_key fmap option_fmap option_map].
  rewrite String.eqb_refl. cbn [negb].
  apply encrypt_inv in Henc
    as (p & dt & mk & [= <-] & [= <-] & Hmk & Hlen & _ & Hek & Hedk).
  rewrite from_hex_toString_hex in Hek, Hedk.
  rewrite (decrypt_dek_wrapped ROOT_KEY jwt_verify (set_kms_keys d _)
             (Some ("Bearer " ++ tok)%string)
             (VerifyData true (JwtPayload (Some user_id))) mk _ _ _ Hmk Hlen Hedk).
  - unfold decrypt_payload. now rewrite (decrypt_encrypt_payload _ _ _ _ Hek).
  - now rewrite Hb.
  - exact Hu.
Qed.

(** X19. One envelope per user: a [POST /api/keys] for a [user_id] that
    has an envelope already is answered with an error status and leaves
    the database as it was.  An envelope is never replaced. *)
Theorem one_envelope_per_user ROOT_KEY jwt_sign d data (user_id : string) now
    dek_entropy entropy entropy2 :
  user_id ∈ map kr_user_id (kt_rows (kms_keys d)) ->
  exists code msg,
    post_keys ROOT_KEY jwt_sign d data (Some user_id) now dek_entropy entropy entropy2
      = (Status code msg, d).
Proof.
  intros Hin. unfold post_keys.
  destruct (negb (truthy data) || negb (truthy (Some user_id))); [eauto|].
  cbn [default from_option id].
  destruct (Vault.encrypt _ _ _ _ _ _) as [| ek edk | | |]; eauto.
  destruct (insert_envelope_dup (kms_keys d) user_id ek edk now Hin) as [e ->]. eauto.
Qed.

(** What a request to store a key can do to the database. *)
Lemma post_keys_cases ROOT_KEY jwt_sign d data user_id now dek_entropy entropy
    entropy2 r d' :
  post_keys ROOT_KEY jwt_sign d data user_id now dek_entropy entropy entropy2 = (r, d') ->
  (d' = d /\ forall token, r <> Stored token) \/
  exists uid ek edk,
    user_id = Some uid /\ (uid ∉ map kr_user_id (kt_rows (kms_keys d))) /\
    d' = set_kms_keys d
           (KmsTable (kt_extra_columns (kms_keys d))
              (kt_rows (kms_keys d)
                 ++ [KmsRow uid (Some ek) (Some edk) (Some now) ∅])).
Proof.
  unfold post_keys.
  destruct user_id as [uid|].
  2:{ rewrite orb_true_r. intros [= <- <-]. left. split; [reflexivity|discriminate]. }
  destruct (negb (truthy data) || negb (truthy (Some uid))).
  { intros [= <- <-]. left. split; [reflexivity|discriminate]. }
  cbn [default from_option id].
  destruct (Vault.encrypt _ _ _ _ _ _) as [| ek edk | | |];
    try (intros [= <- <-]; left; split; [reflexivity|discriminate]).
  destruct (insert_envelope _ _ _ _ _) as [t|] eqn:Hi.
  2:{ intros [= <- <-]. left. split; [reflexivity|discriminate]. }
  apply insert_envelope_inv in Hi as (-> & Hfresh).
  assert (Hnew : uid ∉ map kr_user_id (kt_rows (kms_keys d))).
  { intros Hin. apply list_elem_of_fmap in Hin as (x & Hx & Hin).
    rewrite Forall_forall in Hfresh. now apply (Hfresh x Hin). }
  intros H. right. exists uid, ek, edk. split; [reflexivity|]. split; [exact Hnew|].
  destruct (negb (truthy (Some (post_issue jwt_sign (JwtPayload (Some uid))))));
    now injection H as _ <-.
Qed.

(** X20. [POST /api/keys] changes the database by at most one appended
    row.  The master keys stay as they are; either the database is
    unchanged, or one row for the request's user, who had none, is
    added after the rows of before.  A reply with an access token comes
    only with a changed database, and user ids that were pairwise
    different stay so. *)
Theorem post_keys_appends_only ROOT_KEY jwt_sign d data user_id now dek_entropy entropy
    entropy2 r d' :
  post_keys ROOT_KEY jwt_sign d data user_id now dek_entropy entropy entropy2 = (r, d') ->
  master_keys d' = master_keys d /\
  (d' = d \/
   exists uid ek edk,
     user_id = Some uid /\ (uid ∉ map kr_user_id (kt_rows (kms_keys d))) /\
     kms_keys d' = KmsTable (kt_extra_columns (kms_keys d))
                     (kt_rows (kms_keys d)
                        ++ [KmsRow uid (Some ek) (Some edk) (Some now) ∅])) /\
  (forall token, r = Stored token -> d' <> d) /\
  (NoDup (map kr_user_id (kt_rows (kms_keys d))) ->
   NoDup (map kr_user_id (kt_rows (kms_keys d')))).
Proof.
  intros H.
  apply post_keys_cases in H as [[-> Hr]|(uid & ek & edk & -> & Hnew & ->)].
  - split; [reflexivity|]. split; [now left|]. split; [|auto].
    intros token ->. now destruct (Hr token).
  - split; [reflexivity|]. split; [|split].
    + right. exists uid, ek, edk. auto.
    + intros _ _ Heq. apply (f_equal (fun x => length (kt_rows (kms_keys x)))) in Heq.
      cbn in Heq. rewrite length_app in Heq. cbn in Heq. lia.
    + intros Hnd. cbn [kms_keys set_kms_keys kt_rows]. rewrite map_app.
      apply NoDup_app. split; [exact Hnd|]. split; [|apply NoDup_singleton].
      intros x Hx Hx'. cbn in Hx'. apply list_elem_of_singleton in Hx'. subst x.
      contradiction.
Qed.





End KeyServerFacts.

(** ** Strings and their encodings *)

Module StringFacts.
Import Node NodeStrings Notions TextFacts.

Lemma sequence_length_1 b : sequence_length b = 1 <-> in_range 0x00 0x7f b = true.
Proof.
  unfold sequence_length.
  destruct (in_range 0 127 b); [tauto|].
  destruct (in_range 194 223 b); [split; discriminate|].
  destruct (in_range 224 239 b); [split; discriminate|].
  destruct (in_range 240 244 b); split; discriminate.
Qed.

(** ASCII bytes read as themselves, one character a byte. *)
Lemma utf8_chars_ascii buf :
  forallb (in_range 0x00 0x7f) buf = true -> utf8_chars buf = map (fun b => [b]) buf.
Proof.
  induction buf as [|b buf IH]; [reflexivity|].
  cbn [forallb]. intros [Hb Hbuf]%andb_true_iff.
  cbn [utf8_chars map]. rewrite (proj2 (sequence_length_1 b) Hb).
  now rewrite IH.
Qed.

Lemma concat_singletons (buf : bytes) : concat (map (fun b => [b]) buf) = buf.
Proof. induction buf as [|b buf IH]; [reflexivity|]. cbn. now rewrite IH. Qed.

Lemma ascii_text_utf8 s : ascii_text s = true -> utf8_text s.
Proof.
  unfold ascii_text, utf8_text, toString_utf8. intros H.
  rewrite (utf8_chars_ascii _ H), concat_singletons.
  apply string_of_list_byte_of_string.
Qed.

Lemma utf16_length_ascii s : ascii_text s = true -> utf16_length s = String.length s.
Proof.
  unfold ascii_text, utf16_length. intros H.
  rewrite (utf8_chars_ascii _ H), <- length_list_byte_of_string.
  clear H. induction (list_byte_of_string s) as [|b buf IH]; [reflexivity|].
  change (code_units [b] + list_sum (map code_units (map (fun x => [x]) buf))
          = S (length buf)).
  now rewrite IH.
Qed.

Lemma utf8_chars_shape_n n : forall buf,
  length buf <= n -> Forall char_shape (utf8_chars buf).
Proof.
  assert (Hrep : char_shape replacement) by (right; cbn; lia).
  induction n as [|n IH]; intros buf Hn.
  { destruct buf; [constructor|cbn in Hn; lia]. }
  destruct buf as [|b0 r0]; [constructor|]. cbn [length] in Hn.
  cbn [utf8_chars].
  destruct (sequence_length b0) as [|[|[|[|[|k]]]]] eqn:E.
  - constructor; [exact Hrep|apply IH; lia].
  - constructor; [|apply IH; lia]. left. exists b0. split; [reflexivity|].
    now apply sequence_length_1.
  - destruct r0 as [|b1 r1]; [repeat constructor; exact Hrep|]. cbn [length] in Hn.
    destruct (second b0 b1).
    + constructor; [right; cbn; lia|apply IH; lia].
    + constructor; [exact Hrep|apply IH; cbn; lia].
  - destruct r0 as [|b1 r1]; [repeat constructor; exact Hrep|]. cbn [length] in Hn.
    destruct (second b0 b1); [|constructor; [exact Hrep|apply IH; cbn; lia]].
    destruct r1 as [|b2 r2]; [repeat constructor; exact Hrep|]. cbn [length] in Hn.
    destruct (continuation b2).
    + constructor; [right; cbn; lia|apply IH; lia].
    + constructor; [exact Hrep|apply IH; cbn; lia].
  - destruct r0 as [|b1 r1]; [repeat constructor; exact Hrep|]. cbn [length] in Hn.
    destruct (second b0 b1); [|constructor; [exact Hrep|apply IH; cbn; lia]].
    destruct r1 as [|b2 r2]; [repeat constructor; exact Hrep|]. cbn [length] in Hn.
    destruct (continuation b2); [|constructor; [exact Hrep|apply IH; cbn; lia]].
    destruct r2 as [|b3 r3]; [repeat constructor; exact Hrep|]. cbn [length] in Hn.
    destruct (continuation b3).
    + constructor; [right; cbn; lia|apply IH; lia].
    + constructor; [exact Hrep|apply IH; cbn; lia].
  - constructor; [exact Hrep|apply IH; lia].
Qed.

Lemma utf8_chars_shape buf : Forall char_shape (utf8_chars buf).
Proof. now apply (utf8_chars_shape_n (length buf)). Qed.

(** A character has at most as many code units as bytes, and as many
    only when it is an ASCII byte. *)
Lemma code_units_le cs :
  Forall char_shape cs ->
  list_sum (map code_units cs) <= length (concat cs) /\
  (list_sum (map code_units cs) = length (concat cs) ->
   forallb (in_range 0x00 0x7f) (concat cs) = true).
Proof.
  induction 1 as [|c cs Hc _ [IHle IHeq]]; [split; [cbn; lia|reflexivity]|].
  change (list_sum (map code_units (c :: cs)))
    with (code_units c + list_sum (map code_units cs)).
  cbn [concat]. rewrite length_app.
  assert (Hu : code_units c <= length c /\
               (code_units c = length c -> forallb (in_range 0x00 0x7f) c = true)).
  { destruct Hc as [(b & -> & Hb)|Hlen].
    - split; [cbn; lia|]. intros _. cbn [forallb]. now rewrite Hb.
    - unfold code_units. destruct (Nat.eqb_spec (length c) 4); split; lia. }
  destruct Hu as [Hule Hueq]. split; [lia|].
  intros Heq. rewrite forallb_app.
  rewrite Hueq by lia. rewrite IHeq by lia. reflexivity.
Qed.

Lemma utf8_text_bytes s :
  utf8_text s -> concat (utf8_chars (list_byte_of_string s)) = list_byte_of_string s.
Proof.
  unfold utf8_text, toString_utf8. intros H.
  apply (f_equal list_byte_of_string) in H.
  now rewrite list_byte_of_string_of_list_byte in H.
Qed.

(** The length of a string in code units is at most its length in bytes,
    and less unless the string is ASCII. *)
Lemma utf16_length_le s : utf8_text s -> utf16_length s <= String.length s.
Proof.
  intros H. unfold utf16_length. rewrite <- length_list_byte_of_string.
  rewrite <- (utf8_text_bytes s H) at 2.
  apply code_units_le, utf8_chars_shape.
Qed.

Lemma utf16_length_lt s :
  utf8_text s -> ascii_text s = false -> utf16_length s < String.length s.
Proof.
  intros H Hna. pose proof (utf16_length_le s H) as Hle.
  destruct (Nat.eq_dec (utf16_length s) (String.length s)) as [Heq|]; [|lia].
  exfalso. unfold utf16_length in Heq. rewrite <- length_list_byte_of_string in Heq.
  rewrite <- (utf8_text_bytes s H) in Heq at 2.
  apply (proj2 (code_units_le _ (utf8_chars_shape _))) in Heq.
  rewrite (utf8_text_bytes s H) in Heq. unfold ascii_text in Hna. congruence.
Qed.

End StringFacts.

(** ** [decryptDek] and [encryptDek] of the rotation, given text keys *)

Module RotateTextFacts.
Import GF256 AES Node NodeStrings NodeFacts Db MasterKeyManager Vault RotateMk.
Import BufferFacts Properties VaultFacts RotateFacts Notions TextFacts StringFacts.
Import EnvelopeFacts.

Lemma list_byte_of_string_app (s1 s2 : string) :
  list_byte_of_string (s1 ++ s2) = list_byte_of_string s1 ++ list_byte_of_string s2.
Proof.
  unfold list_byte_of_string. rewrite <- map_app. f_equal.
  induction s1 as [|c s1 IH]; [reflexivity|].
  change (c :: list_ascii_of_string (s1 ++ s2)
          = c :: (list_ascii_of_string s1 ++ list_ascii_of_string s2)).
  now rewrite IH.
Qed.

Lemma length_padEnd n s :
  String.length (padEnd n s) = String.length s + (n - utf16_length s).
Proof.
  unfold padEnd. now rewrite length_append, length_string_of_list_ascii, length_replicate.
Qed.

Lemma padEnd_zero n s :
  ascii_text s = true -> String.length s < n -> padEnd n (s ++ "0") = padEnd n s.
Proof.
  intros Ha H. unfold padEnd.
  assert (Ha0 : ascii_text (s ++ "0") = true).
  { unfold ascii_text in *. rewrite list_byte_of_string_app, forallb_app, Ha.
    reflexivity. }
  rewrite (utf16_length_ascii _ Ha0), (utf16_length_ascii _ Ha), length_append.
  change (String.length "0") with 1.
  replace (n - String.length s) with (S (n - (String.length s + 1))) by lia.
  cbn [replicate string_of_list_ascii]. now rewrite append_assoc.
Qed.

Lemma mk_bytes_text s :
  ascii_text s = true -> String.length s <= 32 ->
  exists k, mk_bytes (JsString s) = Ok k /\ length k = 32.
Proof.
  intros Ha H. eexists. split; [reflexivity|].
  rewrite length_list_byte_of_string, length_padEnd, (utf16_length_ascii _ Ha). lia.
Qed.

(** A text key that is too long, or not ASCII, gives more than 32
    bytes. *)
Lemma mk_bytes_long s :
  32 < String.length s \/ (utf8_text s /\ ascii_text s = false) ->
  32 < String.length (padEnd 32 s).
Proof.
  rewrite length_padEnd. intros [H|[Ht Ha]]; [lia|].
  pose proof (utf16_length_lt s Ht Ha). lia.
Qed.

Lemma decryptDek_encryptDek k dek entropy blob key key' :
  mk_bytes key = Ok k -> mk_bytes key' = Ok k ->
  encryptDek dek key entropy = Ok blob ->
  decryptDek (Some blob) key' = Ok dek.
Proof.
  unfold encryptDek, decryptDek. intros -> ->. cbn [mbind result_bind from_base64_cell].
  intros H. change (Vault.wrap_dek k dek entropy = Ok blob) in H.
  apply unwrap_wrap_dek in H. exact H.
Qed.

Lemma encryptDek_text s dek entropy :
  ascii_text s = true -> String.length s <= 32 ->
  exists blob,
    encryptDek dek (JsString s) entropy = Ok blob /\
    decryptDek (Some blob) (JsString s) = Ok dek.
Proof.
  intros Ha Hlen. destruct (mk_bytes_text s Ha Hlen) as (k & Hk & Hk32).
  destruct (wrap_dek_ok k dek entropy Hk32) as [blob Hblob].
  assert (Henc : encryptDek dek (JsString s) entropy = Ok blob).
  { unfold encryptDek. rewrite Hk. exact Hblob. }
  exists blob. split; [exact Henc|].
  exact (decryptDek_encryptDek k dek entropy blob _ _ Hk Hk Henc).
Qed.

Lemma encryptDek_long s dek entropy :
  32 < String.length s \/ (utf8_text s /\ ascii_text s = false) ->
  encryptDek dek (JsString s) entropy = Throw ERR_CRYPTO_INVALID_KEYLEN.
Proof.
  intros H. apply mk_bytes_long in H.
  unfold encryptDek. cbn [mk_bytes mbind result_bind].
  unfold aes256cbc_encrypt, check_key_iv.
  rewrite length_randomBytes, length_list_byte_of_string.
  cbn [Nat.eqb negb].
  destruct (Nat.eqb_spec (String.length (padEnd 32 s)) 32); [lia|reflexivity].
Qed.

(** X23. [encryptDek] and [decryptDek] of rotate-mk.js on a master key
    given as text.  For an ASCII key of at most 32 characters
    [decryptDek (encryptDek dek k) k = dek], and the blob is
    [16 * (length dek / 16 + 3)] bytes; [padEnd(32, '0')] makes such a
    key shorter than 32 characters and the same key followed by '0' one
    key.  A key of more than 32 bytes is an invalid key length, and so
    is every key that is not ASCII, since [padEnd] counts UTF-16 code
    units and [Buffer.from] writes UTF-8 bytes; a key given as a Buffer
    is the type error 'masterKey.padEnd is not a function'. *)
Theorem text_key_round_trip (s : string) (dek entropy : bytes) :
  (ascii_text s = true -> String.length s <= 32 ->
   exists blob,
     encryptDek dek (JsString s) entropy = Ok blob /\
     decryptDek (Some blob) (JsString s) = Ok dek /\
     length blob = 16 * (length dek / 16 + 3) /\
     (String.length s < 32 ->
      decryptDek (Some blob) (JsString (s ++ "0")) = Ok dek)) /\
  (32 < String.length s ->
   encryptDek dek (JsString s) entropy = Throw ERR_CRYPTO_INVALID_KEYLEN) /\
  (utf8_text s -> ascii_text s = false ->
   encryptDek dek (JsString s) entropy = Throw ERR_CRYPTO_INVALID_KEYLEN) /\
  (forall b,
     encryptDek dek (JsBuffer b) entropy
       = Throw (TypeError "masterKey.padEnd is not a function") /\
     forall blob, decryptDek (Some blob) (JsBuffer b)
       = Throw (TypeError "masterKey.padEnd is not a function")).
Proof.
  split; [|split; [|split]].
  - intros Ha Hlen. destruct (mk_bytes_text s Ha Hlen) as (k & Hk & Hk32).
    destruct (wrap_dek_ok k dek entropy Hk32) as [blob Hblob].
    assert (Henc : encryptDek dek (JsString s) entropy = Ok blob).
    { unfold encryptDek. rewrite Hk. exact Hblob. }
    exists blob. split; [exact Henc|]. split; [|split].
    + exact (decryptDek_encryptDek k dek entropy blob _ _ Hk Hk Henc).
    + now apply length_wrap_dek in Hblob as [? _].
    + intros Hlt. apply (decryptDek_encryptDek k dek entropy blob (JsString s));
        [exact Hk| |exact Henc].
      cbn [mk_bytes] in *. now rewrite padEnd_zero.
  - intros Hlen. apply encryptDek_long. now left.
  - intros Ht Ha. apply encryptDek_long. now right.
  - intros b. split; [reflexivity|]. intros blob. reflexivity.
Qed.

End RotateTextFacts.

(** ** One turn of the rotation loop, given text keys *)

Module RotateRowFacts.
Import GF256 AES Node NodeStrings NodeFacts Db MasterKeyManager Vault RotateMk.
Import BufferFacts Properties VaultFacts RotateFacts Notions EnvelopeFacts.
Import RotateTextFacts.

Lemma update_null_key blob rows :
  map (fun r =>
         if sql_eq (extra_cell r "key_id") SqlNull
         then KmsRow (kr_user_id r) (kr_encrypted_key r) (Some blob)
                (kr_created_at r) (kr_extra r)
         else r) rows = rows.
Proof.
  induction rows as [|r rows IH]; [reflexivity|].
  cbn [map]. rewrite IH. f_equal.
  unfold sql_eq. now destruct (extra_cell r "key_id").
Qed.

(** X24. One turn of the rotation loop with master keys given as text,
    for a row whose blob unwraps under the old key.  With an ASCII new
    key of at most 32 characters the DEK is wrapped under the new key
    (and unwraps under it), the new blob is written to every row of
    [kms_keys] whose [key_id] equals the row's, and the row is logged as
    rotated; for a row whose [key_id] is NULL nothing is written, since
    [key_id = NULL] matches no row, and the row is logged as rotated all
    the same.  With a new key that is longer or not ASCII the row is
    logged as failed with an invalid key length and nothing is
    written. *)
Theorem rotate_row_text (old new : string) entropy (t : kms_table) (row : rot_row) dek :
  decryptDek (encrypted_dek row) (JsString old) = Ok dek ->
  (ascii_text new = true -> String.length new <= 32 ->
   "key_id"%string ∈ kt_extra_columns t ->
   exists blob,
     encryptDek dek (JsString new) entropy = Ok blob /\
     decryptDek (Some blob) (JsString new) = Ok dek /\
     rotate_row (JsString old) (JsString new) entropy t row =
       (KmsTable (kt_extra_columns t)
          (map (fun r =>
                  if sql_eq (extra_cell r "key_id") (key_id row)
                  then KmsRow (kr_user_id r) (kr_encrypted_key r) (Some blob)
                         (kr_created_at r) (kr_extra r)
                  else r) (kt_rows t)),
        Rotated (key_id row)) /\
     (key_id row = SqlNull ->
      rotate_row (JsString old) (JsString new) entropy t row = (t, Rotated SqlNull))) /\
  (32 < String.length new \/ (utf8_text new /\ ascii_text new = false) ->
   rotate_row (JsString old) (JsString new) entropy t row
     = (t, Failed (key_id row) ERR_CRYPTO_INVALID_KEYLEN)).
Proof.
  intros Hdec. split.
  - intros Ha Hnew Hcol.
    destruct (encryptDek_text new dek entropy Ha Hnew) as (blob & Henc & Hback).
    exists blob. split; [exact Henc|]. split; [exact Hback|].
    assert (Hrow : rotate_row (JsString old) (JsString new) entropy t row =
        (KmsTable (kt_extra_columns t)
           (map (fun r =>
                   if sql_eq (extra_cell r "key_id") (key_id row)
                   then KmsRow (kr_user_id r) (kr_encrypted_key r) (Some blob)
                          (kr_created_at r) (kr_extra r)
                   else r) (kt_rows t)),
         Rotated (key_id row))).
    { unfold rotate_row, rotate_try. rewrite Hdec. cbn [mbind result_bind].
      rewrite Henc. cbn [mbind result_bind]. unfold update_encrypted_dek.
      now rewrite bool_decide_eq_true_2 by exact Hcol. }
    split; [exact Hrow|].
    intros Hnull. rewrite Hrow, Hnull, update_null_key. now destruct t.
  - intros Hlong. unfold rotate_row, rotate_try. rewrite Hdec. cbn [mbind result_bind].
    now rewrite (encryptDek_long new dek entropy Hlong).
Qed.

End RotateRowFacts.

(** ** add-user.js against the key server *)

Module AddUserFacts.
Import GF256 AES Node NodeStrings NodeFacts Db MasterKeyManager Auth Vault KeyServer.
Import BufferFacts.
Import Properties VaultFacts Notions EnvelopeFacts BearerFacts KeyServerFacts.
Import NodeText AddKeyScript AddUserScript TextFacts.

Lemma payload_ids_NoDup : NoDup (map req_user_id payloads).
Proof.
  unfold payloads. rewrite map_map. cbn [payload req_user_id].
  apply NoDup_fmap_2; [|apply NoDup_seq].
  intros i j H. apply number_text_inj in H. lia.
Qed.

Lemma payload_ids_short : Forall (fun q => String.length (req_user_id q) <= 64) payloads.
Proof.
  apply Forall_forall. intros q Hq.
  assert (H : forallb (fun q => String.length (req_user_id q) <=? 64) payloads = true)
    by (vm_compute; reflexivity).
  rewrite forallb_forall in H. apply Nat.leb_le, H. now apply list_elem_of_In.
Qed.

Lemma payload_truthy : Forall (fun q => truthy (Some (req_user_id q)) = true /\
                                        truthy (Some (req_data q)) = true) payloads.
Proof.
  apply Forall_forall. intros q Hq. unfold payloads in Hq.
  apply list_elem_of_fmap in Hq as (i & -> & _). split.
  - apply number_text_nonempty.
  - reflexivity.
Qed.

(** A request for a user without an envelope is answered with a token when
    the vault has a usable master key. *)
Lemma post_keys_ok ROOT_KEY jwt_sign d data user_id now e0 e1 e2 mk :
  getActiveMasterKey ROOT_KEY d = Ok mk -> length (keyMaterial mk) = 32 ->
  (forall p, truthy (Some (jwt_sign p)) = true) ->
  truthy (Some data) = true -> truthy (Some user_id) = true ->
  String.length user_id <= 64 ->
  user_id ∉ map kr_user_id (kt_rows (kms_keys d)) ->
  exists ek edk,
    post_keys ROOT_KEY jwt_sign d (Some data) (Some user_id) now e0 e1 e2 =
      (Stored (jwt_sign (JwtPayload (Some user_id))),
       set_kms_keys d
         (KmsTable (kt_extra_columns (kms_keys d))
            (kt_rows (kms_keys d)
               ++ [KmsRow user_id (Some ek) (Some edk) (Some now) ∅]))).
Proof.
  intros Hmk Hlen Hsign Hdata Huser Hshort Hfresh.
  destruct (encrypt_succeeds ROOT_KEY d (Some (to_base64 (list_byte_of_string data)))
              (Some (toString_hex (randomBytes 32 e0))) e1 e2) as (ek & edk & Henc).
  { destruct data; [discriminate Hdata|reflexivity]. }
  { apply truthy_toString_hex. now destruct (randomBytes 32 e0) eqn:E;
      [apply (f_equal length) in E; rewrite length_randomBytes in E|]. }
  { cbn [default from_option id].
    now rewrite from_hex_toString_hex, length_randomBytes. }
  { eauto. }
  exists ek, edk. unfold post_keys. rewrite Hdata, Huser.
  cbn [negb orb default from_option id]. rewrite Henc.
  unfold insert_envelope.
  destruct (Nat.ltb_spec 64 (String.length user_id)); [lia|].
  destruct (existsb _ (kt_rows (kms_keys d))) eqn:E.
  - apply existsb_exists in E as (r & Hr & Heq). apply String.eqb_eq in Heq.
    destruct Hfresh. rewrite <- Heq. apply list_elem_of_fmap_2.
    now apply list_elem_of_In.
  - unfold post_issue. now rewrite Hsign.
Qed.

Lemma post_keys_dup ROOT_KEY jwt_sign d data user_id now e0 e1 e2 :
  truthy (Some data) = true -> truthy (Some user_id) = true ->
  user_id ∈ map kr_user_id (kt_rows (kms_keys d)) ->
  post_keys ROOT_KEY jwt_sign d (Some data) (Some user_id) now e0 e1 e2 =
    (Status 500 "App B error or DB error", d).
Proof.
  intros Hdata Huser Hin. unfold post_keys. rewrite Hdata, Huser.
  cbn [negb orb default from_option id].
  destruct (Vault.encrypt _ _ _ _ _ _) as [| ek edk | | |]; try reflexivity.
  now destruct (insert_envelope_dup (kms_keys d) user_id ek edk now Hin) as [e ->].
Qed.

Lemma length_serve ROOT_KEY jwt_sign env reqs : forall k d,
  length (fst (serve ROOT_KEY jwt_sign env k reqs d)) = length reqs.
Proof.
  induction reqs as [|q reqs IH]; intros k d; [reflexivity|].
  cbn [serve]. destruct (post_keys _ _ _ _ _ _ _ _ _) as [r d1].
  specialize (IH (S k) d1).
  destruct (serve ROOT_KEY jwt_sign env (S k) reqs d1) as [rs d2].
  cbn [fst length] in *. now rewrite IH.
Qed.

Lemma serve_fresh ROOT_KEY jwt_sign env mk reqs : forall k d,
  getActiveMasterKey ROOT_KEY d = Ok mk -> length (keyMaterial mk) = 32 ->
  (forall p, truthy (Some (jwt_sign p)) = true) ->
  NoDup (map req_user_id reqs) ->
  Forall (fun q => truthy (Some (req_user_id q)) = true /\
                   truthy (Some (req_data q)) = true) reqs ->
  Forall (fun q => String.length (req_user_id q) <= 64) reqs ->
  Forall (fun q => req_user_id q ∉ user_ids d) reqs ->
  Forall is_stored (fst (serve ROOT_KEY jwt_sign env k reqs d)) /\
  master_keys (snd (serve ROOT_KEY jwt_sign env k reqs d)) = master_keys d /\
  user_ids (snd (serve ROOT_KEY jwt_sign env k reqs d))
    = user_ids d ++ map req_user_id reqs.
Proof.
  induction reqs as [|q reqs IH]; intros k d Hmk Hlen Hsign Hnd Htr Hshort Hfresh.
  - cbn. now rewrite app_nil_r.
  - cbn [map] in Hnd. apply NoDup_cons in Hnd as [Hq Hnd].
    apply Forall_cons in Htr as [[Hu Hd] Htr].
    apply Forall_cons in Hshort as [Hs Hshort].
    apply Forall_cons in Hfresh as [Hf Hfresh].
    destruct (post_keys_ok ROOT_KEY jwt_sign d (req_data q) (req_user_id q)
                (at_time (env k)) (dek_entropy (env k)) (iv_entropy (env k))
                (iv2_entropy (env k)) mk Hmk Hlen Hsign Hd Hu Hs Hf) as (ek & edk & Hpost).
    cbn [serve]. rewrite Hpost.
    set (d1 := set_kms_keys d _) in *.
    assert (Hids : user_ids d1 = user_ids d ++ [req_user_id q]).
    { unfold user_ids, d1. cbn. now rewrite map_app. }
    assert (Hmk1 : getActiveMasterKey ROOT_KEY d1 = Ok mk).
    { now rewrite (getActiveMasterKey_ext ROOT_KEY d d1 eq_refl). }
    assert (Hfresh1 : Forall (fun q => req_user_id q ∉ user_ids d1) reqs).
    { apply Forall_forall. intros x Hx. rewrite Hids. intros Hin.
      apply elem_of_app in Hin as [Hin|Hin].
      * rewrite Forall_forall in Hfresh. now apply (Hfresh x Hx).
      * apply list_elem_of_singleton in Hin. apply Hq. rewrite <- Hin.
        now apply list_elem_of_fmap_2. }
    destruct (IH (S k) d1 Hmk1 Hlen Hsign Hnd Htr Hshort Hfresh1) as (Hst & Hkeys & Hrows).
    destruct (serve ROOT_KEY jwt_sign env (S k) reqs d1) as [rs d2].
    cbn [fst snd] in *. split; [|split].
    + constructor; [now eexists|exact Hst].
    + exact Hkeys.
    + rewrite Hrows, Hids, <- app_assoc. reflexivity.
Qed.

Lemma serve_again ROOT_KEY jwt_sign env reqs : forall k d,
  Forall (fun q => truthy (Some (req_user_id q)) = true /\
                   truthy (Some (req_data q)) = true) reqs ->
  Forall (fun q => req_user_id q ∈ user_ids d) reqs ->
  serve ROOT_KEY jwt_sign env k reqs d
    = (replicate (length reqs) (Status 500 "App B error or DB error"), d).
Proof.
  induction reqs as [|q reqs IH]; intros k d Htr Hin; [reflexivity|].
  apply Forall_cons in Htr as [[Hu Hd] Htr]. apply Forall_cons in Hin as [Hq Hin].
  cbn [serve]. rewrite (post_keys_dup _ _ _ _ _ _ _ _ _ Hd Hu Hq).
  now rewrite (IH (S k) d Htr Hin).
Qed.

(** X25. add-user.js against the key server.  With an active master key
    of 32 bytes and none of the 2000 user ids stored, in whatever order
    the server handles the requests each of them is answered with a
    token and the 2000 ids are stored.  A second run of the script is
    answered 500 'App B error or DB error' 2000 times and changes
    nothing. *)
Theorem add_user_script_runs_once ROOT_KEY jwt_sign env env' reqs reqs' d mk :
  getActiveMasterKey ROOT_KEY d = Ok mk -> length (keyMaterial mk) = 32 ->
  (forall p, truthy (Some (jwt_sign p)) = true) ->
  Forall (fun q => req_user_id q ∉ map kr_user_id (kt_rows (kms_keys d))) payloads ->
  reqs ≡ₚ payloads -> reqs' ≡ₚ payloads ->
  Forall is_stored (fst (serve ROOT_KEY jwt_sign env 0 reqs d)) /\
  length (fst (serve ROOT_KEY jwt_sign env 0 reqs d)) = 2000 /\
  map kr_user_id (kt_rows (kms_keys (snd (serve ROOT_KEY jwt_sign env 0 reqs d))))
    = map kr_user_id (kt_rows (kms_keys d)) ++ map req_user_id reqs /\
  serve ROOT_KEY jwt_sign env' 0 reqs' (snd (serve ROOT_KEY jwt_sign env 0 reqs d))
    = (replicate 2000 (Status 500 "App B error or DB error"),
       snd (serve ROOT_KEY jwt_sign env 0 reqs d)).
Proof.
  intros Hmk Hlen Hsign Hfresh Hp Hp'.
  assert (Hnd : NoDup (map req_user_id reqs)).
  { rewrite Hp. apply payload_ids_NoDup. }
  assert (Htr : Forall (fun q => truthy (Some (req_user_id q)) = true /\
                                 truthy (Some (req_data q)) = true) reqs).
  { rewrite Hp. apply payload_truthy. }
  assert (Htr' : Forall (fun q => truthy (Some (req_user_id q)) = true /\
                                  truthy (Some (req_data q)) = true) reqs').
  { rewrite Hp'. apply payload_truthy. }
  assert (Hshort : Forall (fun q => String.length (req_user_id q) <= 64) reqs).
  { rewrite Hp. apply payload_ids_short. }
  assert (Hfresh' : Forall (fun q => req_user_id q ∉ user_ids d) reqs).
  { rewrite Hp. exact Hfresh. }
  destruct (serve_fresh ROOT_KEY jwt_sign env mk reqs 0 d Hmk Hlen Hsign Hnd Htr Hshort
              Hfresh') as (Hst & Hkeys & Hrows).
  assert (Hlen2000 : length reqs = 2000).
  { rewrite Hp. reflexivity. }
  assert (Hlen2000' : length reqs' = 2000).
  { rewrite Hp'. reflexivity. }
  split; [exact Hst|]. split; [|split; [exact Hrows|]].
  - now rewrite length_serve.
  - rewrite <- Hlen2000'. apply serve_again; [exact Htr'|].
    apply Forall_forall. intros q Hq. rewrite Hrows.
    apply elem_of_app. right. apply list_elem_of_fmap_2.
    now rewrite Hp, <- Hp'.
Qed.

End AddUserFacts.

(** ** What a change of the IV does to an envelope *)

Module MalleabilityFacts.
Import GF256 AES AESFacts Node NodeStrings NodeFacts Db MasterKeyManager Auth Vault.
Import KeyServer.
Import BufferFacts Properties VaultFacts TamperFacts Notions EnvelopeFacts.

Lemma pkcs7Pad_alter (f : byte -> byte) j p :
  j < length p -> alter f j (pkcs7Pad p) = pkcs7Pad (alter f j p).
Proof.
  intros Hj. unfold pkcs7Pad. rewrite length_alter.
  now rewrite alter_app_l by exact Hj.
Qed.

(** Decrypting with a changed IV changes the first plaintext block alike. *)
Lemma dec_full_flip_iv n rks full i :
  i / 8 < 16 -> 32 <= length full ->
  dec_full (S n) rks (flip_bit i full)
    = alter (fun b => bxor b (bit_mask i)) (i / 8) (dec_full (S n) rks full).
Proof.
  intros Hi Hlen. rewrite !dec_full_S.
  rewrite drop_flip_bit_lt by exact Hi.
  rewrite alter_app_l by (rewrite length_plain_block; exact Hi).
  f_equal. unfold plain_block, flip_bit.
  rewrite drop_alter_lt, take_alter_lt by exact Hi.
  apply xor_alter; [|exact Hi]. rewrite length_take. lia.
Qed.

Lemma decrypt_payload_flip_iv dek p entropy blob i :
  encrypt_payload dek p entropy = Ok blob ->
  i / 8 < 16 -> i / 8 < length p ->
  decrypt_payload_bytes (flip_bit i blob) (toString_hex dek) = Ok (flip_bit i p).
Proof.
  intros Henc Hi Hp. apply encrypt_payload_shape in Henc as (Hk & Hlen & Hdec).
  set (m := padded_blocks p) in *.
  rewrite (decrypt_payload_full dek _ m Hk) by (rewrite length_flip_bit; exact Hlen).
  replace (m + 1) with (S m) in * by lia.
  rewrite dec_full_flip_iv by (try exact Hi; lia).
  rewrite Hdec.
  assert (Hpad : i / 8 < length (pkcs7Pad p)).
  { unfold pkcs7Pad. rewrite length_app. lia. }
  rewrite alter_app_l by exact Hpad.
  rewrite evp_unpad_full_block. cbn [mbind result_bind].
  rewrite pkcs7Pad_alter by exact Hp.
  now rewrite pkcs7Unpad_pkcs7Pad.
Qed.

(** X26. A changed IV is not detected.  Flipping bit [i] of a stored
    blob, [i] in the IV and within the length of the plaintext, makes
    the decryption of the payload return the payload with its bit [i]
    flipped, which the retrieval path answers as text, and makes the
    vault unwrap a DEK with its bit [i] flipped, which is another DEK. *)
Theorem iv_bit_flips_plaintext_bit (key p entropy blob : bytes) (i : nat) :
  i < 128 -> i < 8 * length p ->
  (encrypt_payload key p entropy = Ok blob ->
   decrypt_payload_bytes (flip_bit i blob) (toString_hex key) = Ok (flip_bit i p) /\
   decrypt_payload (flip_bit i blob) (toString_hex key)
     = Ok (toString_utf8 (flip_bit i p))) /\
  (wrap_dek key p entropy = Ok blob ->
   unwrap_dek key (flip_bit i blob) = Ok (flip_bit i p) /\ flip_bit i p <> p).
Proof.
  intros Hi Hp.
  assert (Hi8 : i / 8 < 16) by (apply Nat.Div0.div_lt_upper_bound; lia).
  assert (Hp8 : i / 8 < length p) by (apply Nat.Div0.div_lt_upper_bound; lia).
  split.
  - intros Henc.
    pose proof (decrypt_payload_flip_iv key p entropy blob i Henc Hi8 Hp8) as H.
    split; [exact H|]. now apply decrypt_payload_ok.
  - intros Hw. split.
    + assert (Henc : encrypt_payload key p entropy = Ok blob) by exact Hw.
      pose proof (decrypt_payload_flip_iv key p entropy blob i Henc Hi8 Hp8) as H.
      rewrite decrypt_payload_unfold, from_hex_toString_hex in H.
      now rewrite unwrap_dek_unfold.
    + unfold flip_bit. apply alter_ne; [exact Hp8|]. intros x. apply bxor_mask_ne.
Qed.

End MalleabilityFacts.

(** ** Master keys the vault cannot use *)

Module KeyChangeFacts.
Import GF256 AES Node NodeStrings NodeFacts Db MasterKeyManager Auth Vault KeyServer.
Import RotateMk.
Import BufferFacts Properties VaultFacts MasterKeyFacts RotateFacts Notions.
Import ManagerFacts EnvelopeFacts.

(** X27. After [addMasterKey] the vault uses the new key only.  If the
    new key is 32 bytes long, [POST /api/decrypt-dek] answers a
    verified request with what unwraps under the new key, or with 500;
    no earlier key is tried.  If the hex text decodes to another
    length, the key has been stored and activated all the same, and
    every such request, and every [POST /api/encrypt] with its fields
    present, is answered 500. *)
Theorem vault_follows_new_key ROOT_KEY jwt_verify keyId hexKey now entropy d d'
    authorization blob reply :
  addMasterKey ROOT_KEY keyId hexKey now entropy d = Ok d' ->
  post_verify jwt_verify (bearer_token authorization) = Ok reply ->
  truthy (jwt_id (payload reply)) = true ->
  (length (from_hex hexKey) = 32 ->
   decrypt_dek ROOT_KEY jwt_verify d' authorization (Some (Base64 blob)) =
     match unwrap_dek (from_hex hexKey) blob with
     | Ok dek => DekOk (toString_hex dek)
     | Throw _ => Status 500 "Decryption failed"
     end) /\
  (length (from_hex hexKey) <> 32 ->
   decrypt_dek ROOT_KEY jwt_verify d' authorization (Some (Base64 blob))
     = Status 500 "Decryption failed" /\
   forall data dek entropy1 entropy2,
     truthy_buf data = true -> truthy dek = true ->
     Vault.encrypt ROOT_KEY d' data dek entropy1 entropy2
       = Status 500 "Encryption failed").
Proof.
  intros Hadd Hv Hid.
  pose proof (addMasterKey_active _ _ _ _ _ _ _ Hadd) as Hact.
  rewrite (decrypt_dek_verified _ _ _ _ _ _ Hv Hid).
  unfold decrypt_dek_body. rewrite Hact. cbn [mbind result_bind keyMaterial].
  split.
  - intros ->. cbn [Nat.eqb negb]. now destruct (unwrap_dek (from_hex hexKey) blob).
  - intros Hlen.
    destruct (Nat.eqb_spec (length (from_hex hexKey)) 32) as [|_]; [contradiction|].
    split; [reflexivity|].
    intros data dek entropy1 entropy2 Hdata Hdek.
    apply encrypt_fails; [exact Hdata|exact Hdek|].
    right. intros mk Hmk. rewrite Hact in Hmk. now injection Hmk as <-.
Qed.

Lemma unwrap_rows_throw ROOT_KEY rows r e :
  r ∈ rows -> decryptKey ROOT_KEY (mk_key_material r) = Throw e ->
  exists e', unwrap_rows ROOT_KEY rows = Throw e'.
Proof.
  induction rows as [|x rows IH]; intros Hin Hdec; [inversion Hin|].
  cbn [unwrap_rows].
  destruct (decryptKey ROOT_KEY (mk_key_material x)) as [m|e1] eqn:E; [|eauto].
  cbn [mbind result_bind].
  apply elem_of_cons in Hin as [->|Hin]; [congruence|].
  destruct (IH Hin Hdec) as [e' ->]. eauto.
Qed.

(** X28. One unreadable retired key stops the rotation: if the material
    of a retired record does not unwrap under the root key,
    [getRetiredMasterKeys] throws, with no partial list, and every run
    of [rotateMasterKey] throws and leaves the database as it was. *)
Theorem one_unreadable_retired_key ROOT_KEY d r e :
  r ∈ master_keys d -> mk_status r = retired ->
  decryptKey ROOT_KEY (mk_key_material r) = Throw e ->
  (exists e', getRetiredMasterKeys ROOT_KEY d = Throw e') /\
  (forall rand, exists e', rotateMasterKey ROOT_KEY rand d = Throw e') /\
  (forall rand, db_after d (rotateMasterKey ROOT_KEY rand d) = d).
Proof.
  intros Hin Hret Hdec.
  assert (Hthrow : exists e', getRetiredMasterKeys ROOT_KEY d = Throw e').
  { unfold getRetiredMasterKeys, select_retired.
    apply unwrap_rows_throw with r e; [|exact Hdec].
    apply list_elem_of_filter. auto. }
  assert (Hrot : forall rand, exists e', rotateMasterKey ROOT_KEY rand d = Throw e').
  { intros rand. unfold rotateMasterKey.
    destruct (getActiveMasterKey ROOT_KEY d) as [ak|e1]; [|eauto].
    cbn [mbind result_bind]. destruct Hthrow as [e' ->]. eauto. }
  split; [exact Hthrow|]. split; [exact Hrot|].
  intros rand. destruct (Hrot rand) as [e' ->]. reflexivity.
Qed.

End KeyChangeFacts.

(** ** The cipher of the documents *)

Module DocumentFacts.
Import GF256 AES AESFacts Node NodeStrings NodeFacts Db MasterKeyManager Auth Vault.
Import KeyServer.
Import BufferFacts Properties VaultFacts TamperFacts Notions EnvelopeFacts.
Import KeyServerFacts NodeText AddUserScript TextFacts AddUserFacts Gcm256.
Import DocumentManager.

Lemma length_xor_bytes x y : length (xor_bytes x y) = Nat.min (length x) (length y).
Proof. apply length_zip_with. Qed.

Lemma xor_bytes_cancel x ks :
  length x <= length ks -> xor_bytes (xor_bytes x ks) ks = x.
Proof.
  revert ks. induction x as [|a x IH]; intros ks H; [reflexivity|].
  destruct ks as [|c ks]; [cbn in H; lia|].
  cbn [xor_bytes zip_with]. unfold xor_bytes in IH. rewrite IH by (cbn in H; lia).
  f_equal. apply bxor_cancel_r.
Qed.

Lemma length_encrypt_block rks block : length (encrypt_block rks block) = 16.
Proof. apply length_list_of_state. Qed.

Lemma length_value_bytes n v : length (value_bytes n v) = n.
Proof. unfold value_bytes. now rewrite length_map, length_seq. Qed.

Lemma gctr_nil n rks : forall cb, gctr n rks cb [] = [].
Proof. induction n as [|n IH]; intros cb; [reflexivity|]. cbn. apply IH. Qed.

Lemma length_gctr n rks : forall cb data,
  length data <= 16 * n -> length (gctr n rks cb data) = length data.
Proof.
  induction n as [|n IH]; intros cb data H.
  - destruct data; [reflexivity|cbn in H; lia].
  - cbn [gctr]. rewrite length_app, length_xor_bytes, length_encrypt_block, length_take.
    rewrite IH by (rewrite length_drop; lia). rewrite length_drop. lia.
Qed.

(** The key stream is its own inverse. *)
Lemma gctr_involutive n rks : forall cb data,
  length data <= 16 * n -> gctr n rks cb (gctr n rks cb data) = data.
Proof.
  induction n as [|n IH]; intros cb data H.
  - destruct data; [reflexivity|cbn in H; lia].
  - cbn [gctr].
    set (ks := encrypt_block rks cb).
    assert (Hks : length ks = 16) by apply length_encrypt_block.
    set (y := xor_bytes (take 16 data) ks).
    assert (Hy : length y = Nat.min 16 (length data)).
    { unfold y. rewrite length_xor_bytes, length_take, Hks. lia. }
    destruct (Nat.le_gt_cases 16 (length data)) as [Hge|Hlt].
    + rewrite (take_app_length' y _ 16), (drop_app_length' y _ 16) by lia.
      unfold y. rewrite xor_bytes_cancel by (rewrite length_take; lia).
      rewrite IH by (rewrite length_drop; lia). apply take_drop.
    + rewrite (drop_ge data 16), gctr_nil, app_nil_r by lia.
      rewrite (take_ge y), (drop_ge y), gctr_nil, app_nil_r by lia.
      unfold y. rewrite xor_bytes_cancel by (rewrite length_take; lia).
      apply take_ge. lia.
Qed.

Lemma blocks_of_bound data : length data <= 16 * blocks_of data.
Proof.
  unfold blocks_of. pose proof (Nat.div_mod_eq (length data + 15) 16).
  pose proof (Nat.mod_upper_bound (length data + 15) 16). lia.
Qed.

Lemma length_gcm_crypt key iv data : length (gcm_crypt key iv data) = length data.
Proof. unfold gcm_crypt. apply length_gctr, blocks_of_bound. Qed.

Lemma gcm_crypt_involutive key iv data :
  gcm_crypt key iv (gcm_crypt key iv data) = data.
Proof.
  unfold gcm_crypt.
  replace (blocks_of (gctr _ _ _ data)) with (blocks_of data).
  - apply gctr_involutive, blocks_of_bound.
  - unfold blocks_of. now rewrite length_gctr by apply blocks_of_bound.
Qed.

Lemma length_gcm_tag key iv ct : length (gcm_tag key iv ct) = 16.
Proof.
  unfold gcm_tag. rewrite length_xor_bytes, length_value_bytes, length_encrypt_block.
  reflexivity.
Qed.

Lemma bytes_eqb_eq x y : bytes_eqb x y = true <-> x = y.
Proof.
  revert y. induction x as [|a x IH]; intros [|b y]; cbn [bytes_eqb];
    try (split; [discriminate|discriminate]); [tauto|].
  rewrite andb_true_iff, IH. split.
  - intros [Hab ->]. f_equal. now apply Byte.byte_dec_bl.
  - intros [= -> ->]. split; [apply byte_eqb_refl|reflexivity].
Qed.

Lemma slice_nonneg buf (a b : nat) :
  a <= b -> b <= length buf ->
  slice buf (Z.of_nat a) (Z.of_nat b) = take (b - a) (drop a buf).
Proof.
  intros Hab Hb. unfold slice, slice_index.
  destruct (Z.ltb_spec (Z.of_nat a) 0); [lia|].
  destruct (Z.ltb_spec (Z.of_nat b) 0); [lia|].
  rewrite !Nat2Z.id. now rewrite !Nat.min_r by lia.
Qed.

Lemma slice_from_nonneg buf (a : nat) :
  a <= length buf -> slice_from buf (Z.of_nat a) = drop a buf.
Proof.
  intros Ha. unfold slice_from, slice_index.
  destruct (Z.ltb_spec (Z.of_nat a) 0); [lia|].
  rewrite Nat2Z.id. now rewrite Nat.min_r by lia.
Qed.

(** How [decryptDocument] cuts a buffer of at least 32 bytes. *)
Lemma decrypt_buffer_parts iv tag ct dek :
  length iv = 16 -> length tag = 16 ->
  decrypt_buffer (iv ++ tag ++ ct) dek = aes256gcm_decrypt dek iv tag ct.
Proof.
  intros Hiv Htag. unfold decrypt_buffer.
  rewrite slice_0_16. change (16 + 16)%Z with (Z.of_nat 32).
  change 16%Z with (Z.of_nat 16).
  rewrite slice_nonneg, slice_from_nonneg by (rewrite ?length_app; lia).
  rewrite (take_app_length' iv _ 16) by lia.
  rewrite (drop_app_length' iv _ 16) by lia.
  change (32 - 16) with 16. rewrite (take_app_length' tag _ 16) by lia.
  replace 32 with (16 + 16) by reflexivity. rewrite <- drop_drop.
  rewrite (drop_app_length' iv _ 16) by lia.
  now rewrite (drop_app_length' tag _ 16) by lia.
Qed.

(** The buffers: what is encrypted under a key of 32 bytes is decrypted
    to the same bytes, and no blob with a changed tag is. *)
Lemma buffer_round_trip (data key entropy : bytes) :
  length key = 32 ->
  exists blob,
    encrypt_buffer data key entropy = Ok blob /\
    length blob = 32 + length data /\
    take 16 blob = randomBytes 16 entropy /\
    decrypt_buffer blob key = Ok data /\
    (forall i, 128 <= i < 256 ->
       decrypt_buffer (flip_bit i blob) key
         = Throw (Error "Unsupported state or unable to authenticate data")).
Proof.
  intros Hk.
  set (iv := randomBytes 16 entropy).
  set (ct := gcm_crypt key iv data).
  set (tag := gcm_tag key iv ct).
  assert (Hiv : length iv = 16) by apply length_randomBytes.
  assert (Htag : length tag = 16) by apply length_gcm_tag.
  assert (Hchk : check_gcm key iv = Ok tt).
  { unfold check_gcm. now rewrite Hiv, Hk. }
  exists (iv ++ tag ++ ct). split; [|split; [|split; [|split]]].
  - unfold encrypt_buffer, aes256gcm_encrypt. fold iv. rewrite Hchk. reflexivity.
  - rewrite !length_app, Hiv, Htag. unfold ct. rewrite length_gcm_crypt. lia.
  - now rewrite (take_app_length' iv _ 16) by lia.
  - rewrite decrypt_buffer_parts by assumption.
    unfold aes256gcm_decrypt. rewrite Hchk. cbn [mbind result_bind].
    rewrite Htag. cbn [valid_tag_length Nat.eqb Nat.leb andb orb negb].
    fold tag. rewrite (take_ge tag 16) by lia.
    rewrite (proj2 (bytes_eqb_eq tag tag) eq_refl).
    unfold ct. now rewrite gcm_crypt_involutive.
  - intros i Hi.
    assert (Hj : 16 <= i / 8 < 32).
    { split; [apply Nat.div_le_lower_bound; lia|apply Nat.Div0.div_lt_upper_bound; lia]. }
    set (tag' := alter (fun b => bxor b (bit_mask i)) (i / 8 - 16) tag).
    assert (Hblob : flip_bit i (iv ++ tag ++ ct) = iv ++ tag' ++ ct).
    { unfold flip_bit. rewrite alter_app_r_alt by lia. rewrite Hiv.
      now rewrite alter_app_l by lia. }
    assert (Htag' : length tag' = 16) by (unfold tag'; now rewrite length_alter).
    rewrite Hblob, decrypt_buffer_parts by assumption.
    unfold aes256gcm_decrypt. rewrite Hchk. cbn [mbind result_bind].
    rewrite Htag'. cbn [valid_tag_length Nat.eqb Nat.leb andb orb negb].
    fold tag. rewrite (take_ge tag 16) by lia.
    destruct (bytes_eqb tag' tag) eqn:E; [|reflexivity].
    apply bytes_eqb_eq in E. exfalso. revert E. unfold tag'.
    apply alter_ne; [lia|]. intros x. apply bxor_mask_ne.
Qed.

Lemma from_base64_to_base64 buf : from_base64 (to_base64 buf) = buf.
Proof. now destruct buf. Qed.

(** X29. [encryptDocument] and [decryptDocument] (AES-256-GCM), for
    every document that [JSON.stringify] gives a text for and every DEK
    of 32 bytes, whatever [JSON.stringify] and [JSON.parse] do.  The
    buffer behind the base64 text is the IV, the tag and the
    ciphertext, 32 bytes more than the JSON text.  [decryptDocument]
    returns what [JSON.parse] makes of the bytes of the JSON text read
    as UTF-8, that is of the JSON text itself: the cipher and the text
    encodings in between lose nothing.  After a flip of any bit of the
    tag it throws 'Unsupported state or unable to authenticate data',
    whatever the parser.  A document without JSON text is refused with a
    type error, and an error of [JSON.stringify] is passed on. *)
Theorem document_round_trip (value : Type)
    (JSON_stringify : value -> result (option string))
    (JSON_parse : string -> result value) (documentData : value) (text dek : string)
    (entropy : bytes) :
  length (from_hex dek) = 32 ->
  JSON_stringify documentData = Ok (Some text) ->
  exists blob,
    encryptDocument value JSON_stringify documentData dek entropy
      = Ok (to_base64 blob) /\
    length blob = 32 + String.length text /\
    take 16 blob = randomBytes 16 entropy /\
    decryptDocument value JSON_parse (to_base64 blob) dek
      = JSON_parse (toString_utf8 (list_byte_of_string text)) /\
    (utf8_text text ->
     decryptDocument value JSON_parse (to_base64 blob) dek = JSON_parse text) /\
    (forall i, 128 <= i < 256 ->
       decryptDocument value JSON_parse (to_base64 (flip_bit i blob)) dek
         = Throw (Error "Unsupported state or unable to authenticate data")) /\
    (forall undefined,
       JSON_stringify undefined = Ok None ->
       exists msg,
         encryptDocument value JSON_stringify undefined dek entropy
           = Throw (TypeError msg)) /\
    (forall cyclic e,
       JSON_stringify cyclic = Throw e ->
       encryptDocument value JSON_stringify cyclic dek entropy = Throw e).
Proof.
  intros Hk Htext.
  destruct (buffer_round_trip (list_byte_of_string text) (from_hex dek) entropy Hk)
    as (blob & Henc & Hlen & Hiv & Hdec & Htag).
  assert (Hback : decryptDocument value JSON_parse (to_base64 blob) dek
                  = JSON_parse (toString_utf8 (list_byte_of_string text))).
  { unfold decryptDocument. rewrite from_base64_to_base64, Hdec. reflexivity. }
  exists blob. split; [|split; [|split; [|split; [|split; [|split; [|split]]]]]].
  - unfold encryptDocument. rewrite Htext. cbn [mbind result_bind].
    rewrite Henc. reflexivity.
  - now rewrite Hlen, length_list_byte_of_string.
  - exact Hiv.
  - exact Hback.
  - intros Hu. now rewrite Hback, Hu.
  - intros i Hi. unfold decryptDocument.
    rewrite from_base64_to_base64, (Htag i Hi). reflexivity.
  - intros u Hu. unfold encryptDocument. rewrite Hu. cbn [mbind result_bind]. eauto.
  - intros u e Hu. unfold encryptDocument. rewrite Hu. reflexivity.
Qed.

Lemma post_api_keys_dup ROOT_KEY jwt_sign d user_id data dr :
  truthy (Some data) = true -> truthy (Some user_id) = true ->
  user_id ∈ user_ids d ->
  post_api_keys ROOT_KEY jwt_sign d user_id data dr
    = (Throw (Error "Request failed with status code 500"), d).
Proof.
  intros Hd Hu Hin. unfold post_api_keys.
  now rewrite (post_keys_dup _ _ _ _ _ _ _ _ _ Hd Hu Hin).
Qed.

(** X30. [getUserToken] and its cache.  Once a call returned a token,
    later calls of the same manager for that user return the same token
    and leave the cache and the database as they are.  Without a cached
    token, for a user id that has an envelope in [kms_keys] already the
    call throws 'Request failed with status code 500' and changes
    nothing, so a manager that was started anew gets no token for a
    user registered before.  A call that throws never changes the
    cache. *)
Theorem getUserToken_cache ROOT_KEY jwt_sign (userTokens : gmap string string)
    (userId : string) d data_entropy dr :
  (forall token userTokens' d',
     getUserToken ROOT_KEY jwt_sign userTokens userId d data_entropy dr
       = (Ok token, userTokens', d') ->
     forall data_entropy' dr',
       getUserToken ROOT_KEY jwt_sign userTokens' userId d' data_entropy' dr'
         = (Ok token, userTokens', d')) /\
  (userTokens !! userId = None -> userId ∈ user_ids d -> userId <> EmptyString ->
   getUserToken ROOT_KEY jwt_sign userTokens userId d data_entropy dr
     = (Throw (Error "Request failed with status code 500"), userTokens, d)) /\
  (forall e userTokens' d',
     getUserToken ROOT_KEY jwt_sign userTokens userId d data_entropy dr
       = (Throw e, userTokens', d') -> userTokens' = userTokens).
Proof.
  unfold getUserToken. split; [|split].
  - intros token cache' d' H data_entropy' dr'.
    destruct (userTokens !! userId) as [t|] eqn:E.
    + injection H as <- <- <-. now rewrite E.
    + destruct (post_api_keys _ _ _ _ _ _) as [[t|e] d1]; [|discriminate].
      injection H as <- <- <-. now rewrite lookup_insert_eq.
  - intros Hnone Hin Hne. rewrite Hnone.
    rewrite post_api_keys_dup; [reflexivity| |now destruct userId|exact Hin].
    apply base64_nonempty. intros E. apply (f_equal length) in E.
    now rewrite length_randomBytes in E.
  - intros e cache' d' H.
    destruct (userTokens !! userId) as [t|]; [discriminate|].
    destruct (post_api_keys _ _ _ _ _ _) as [[t|e1] d1]; [discriminate|].
    now injection H as _ <- _.
Qed.

End DocumentFacts.

(** ** The further properties on concrete runs *)

Module Instances.
Import GF256 AES Node NodeStrings Db MasterKeyManager Auth Vault KeyServer RotateMk.
Import Scenario Properties Notions MasterKeyListing AddKeyScript AddUserScript Runs.
Import ManagerFacts ListingFacts ScriptFacts VariantFacts PaddingFacts EnvelopeFacts.
Import BearerFacts KeyServerFacts RotateTextFacts RotateRowFacts AddUserFacts.
Import TextFacts MalleabilityFacts KeyChangeFacts DocumentManager DocumentFacts.

Lemma decryptKey_encryptKey_witness :
  exists blob,
    encryptKey root_key K1 (entropy x11) = Ok blob /\
    decryptKey root_key blob = Ok K1 /\
    length blob = 16 * (length K1 / 16 + 2).
Proof. apply (decryptKey_encryptKey root_key K1 (entropy x11)). reflexivity. Defined.

Lemma addMasterKey_then_read_witness :
  getActiveMasterKey root_key db1 = Ok (MasterKey "key-1" (from_hex K1_hex)) /\
  getRetiredMasterKeys root_key db1 = unwrap_rows root_key (master_keys db0) /\
  (forall l, getRetiredMasterKeys root_key db1 = Ok l ->
             map keyId l = map mk_key_id (master_keys db0)).
Proof.
  apply (addMasterKey_then_read root_key "key-1" K1_hex 1000 (entropy x11) db0 db1).
  vm_compute. reflexivity.
Defined.

Lemma key_history_witness :
  getActiveMasterKey root_key (add_all root_key ([call1] ++ [call2]) (Database [] kms_keys_created))
    = Ok (key_of call2) /\
  getRetiredMasterKeys root_key
      (add_all root_key ([call1] ++ [call2]) (Database [] kms_keys_created))
    = Ok (map key_of [call1]).
Proof.
  apply (key_history root_key [call1] call2 kms_keys_created).
  - reflexivity.
  - cbn. apply NoDup_cons. split; [|apply NoDup_singleton].
    intros H. apply list_elem_of_singleton in H. discriminate H.
  - repeat constructor; cbn; lia.
Defined.

Lemma getActiveMasterKey_newest_witness :
  exists r,
    r ∈ master_keys db3 /\ mk_status r = active /\
    mk_key_id r = keyId (MasterKey "key-2" K2) /\
    decryptKey root_key (mk_key_material r) = Ok (keyMaterial (MasterKey "key-2" K2)) /\
    forall r', r' ∈ master_keys db3 -> mk_status r' = active ->
               (mk_created_at r' <= mk_created_at r)%Z.
Proof.
  apply (getActiveMasterKey_newest root_key db3 (MasterKey "key-2" K2)).
  vm_compute. reflexivity.
Defined.

Lemma addMasterKey_duplicate_witness :
  (exists e, addMasterKey root_key "key-1" K2_hex 3000 (entropy x55) db1 = Throw e) /\
  (length root_key = 32 -> String.length "key-1" <= 64 ->
   addMasterKey root_key "key-1" K2_hex 3000 (entropy x55) db1
     = Throw (SqlError "ER_DUP_ENTRY")).
Proof.
  apply (addMasterKey_duplicate root_key "key-1" K2_hex 3000 (entropy x55) db1).
  vm_compute. left.
Defined.

Lemma script_installs_key_witness :
  getActiveMasterKey root_key script_db
    = Ok (MasterKey (key_id_at 1730000000000) (randomBytes 32 (entropy xcc))) /\
  length (randomBytes 32 (entropy xcc)) = 32 /\
  (forall key_entropy' created' entropy',
     AddKeyScript.run root_key 1730000000000 key_entropy' created' entropy' script_db
       = Throw (SqlError "ER_DUP_ENTRY")) /\
  (forall now' key_entropy' created' entropy',
     key_id_at now' ∉ map mk_key_id (master_keys db0) -> now' <> 1730000000000%Z ->
     String.length (key_id_at now') <= 64 ->
     exists d'', AddKeyScript.run root_key now' key_entropy' created' entropy' script_db
                   = Ok d'').
Proof.
  apply (script_installs_key root_key 1730000000000 (entropy xcc) 1730000000001
           (entropy xdd) db0 script_db).
  vm_compute. reflexivity.
Defined.

Lemma variant_first_key_rejected_witness :
  exists encrypted,
    ManagerWithRotation.addMasterKey root_key 1730000000000 (entropy xcc)
        1730000000001 (entropy xdd) rand6 (Database [] kms_keys_created)
      = (Database [MasterKeyRow (key_id_at 1730000000000) encrypted 1730000000001
                     active None] kms_keys_created,
         Throw (Error "No retired (old) master key found.")) /\
    decryptKey root_key encrypted = Ok (randomBytes 32 (entropy xcc)).
Proof.
  apply (variant_first_key_rejected root_key 1730000000000 (entropy xcc)
           1730000000001 (entropy xdd) rand6 kms_keys_created).
  - reflexivity.
  - vm_compute. lia.
Defined.

Lemma variant_add_keeps_envelopes_witness :
  kms_keys (fst variant_step) = kms_keys db2 /\
  ((fst variant_step = db2 /\ exists e, snd variant_step = Throw e) \/
   (getActiveMasterKey root_key (fst variant_step)
      = Ok (MasterKey (key_id_at 1730000000000) (randomBytes 32 (entropy xcc))) /\
    map mk_key_id (master_keys (fst variant_step))
      = map mk_key_id (master_keys db2) ++ [key_id_at 1730000000000])) /\
  (forall log, snd variant_step = Ok log ->
     Forall is_type_error log /\ length log = length (kt_rows (kms_keys db2)) /\
     "key_id"%string ∈ kt_extra_columns (kms_keys db2)).
Proof.
  apply (variant_add_keeps_envelopes root_key 1730000000000 (entropy xcc)
           1730000000001 (entropy xdd) rand6 db2 (fst variant_step) (snd variant_step)).
  vm_compute. reflexivity.
Defined.

Lemma encrypt_blob_layout_witness :
  length (reply_key encrypt_reply) = 16 * (length p32 / 16 + 3) /\
  length (reply_dek encrypt_reply) = 80 /\
  take 16 (reply_key encrypt_reply) = randomBytes 16 (entropy x33) /\
  take 16 (reply_dek encrypt_reply) = randomBytes 16 (entropy x44) /\
  aes256cbc_decrypt (from_hex (toString_hex dek7)) (take 16 (reply_key encrypt_reply))
      (drop 16 (reply_key encrypt_reply))
    = Ok (pkcs7Pad p32).
Proof.
  apply (encrypt_blob_layout root_key db1 p32 (toString_hex dek7) (entropy x33)
           (entropy x44) (reply_key encrypt_reply) (reply_dek encrypt_reply)).
  vm_compute. reflexivity.
Defined.

Lemma decrypt_dek_of_encrypt_witness :
  decrypt_dek root_key jwt_verify db2 (Some "Bearer tok-42"%string)
      (Some (to_base64 (reply_dek encrypt_reply)))
    = DekOk (toString_hex (from_hex (toString_hex dek7))).
Proof.
  apply (decrypt_dek_of_encrypt root_key jwt_verify db1 db2 (Some (Base64 p32))
           (toString_hex dek7) (entropy x33) (entropy x44)
           (reply_key encrypt_reply) (reply_dek encrypt_reply)
           (Some "Bearer tok-42"%string)
           (VerifyData true (JwtPayload (Some "user-42"%string)))).
  - vm_compute. reflexivity.
  - vm_compute. reflexivity.
  - vm_compute. reflexivity.
  - reflexivity.
Defined.

Lemma bearer_scheme_optional_witness :
  bearer_token (Some ("Bearer " ++ "tok-7")%string) = Some "tok-7"%string /\
  bearer_token (Some "tok-7"%string) = Some "tok-7"%string /\
  decrypt_dek root_key jwt_verify db2 (Some "tok-7"%string) (Some (Base64 blob7))
    = decrypt_dek root_key jwt_verify db2 (Some ("Bearer " ++ "tok-7")%string)
        (Some (Base64 blob7)) /\
  get_keys root_key jwt_verify db2 (Some "tok-7"%string)
    = get_keys root_key jwt_verify db2 (Some ("Bearer " ++ "tok-7")%string).
Proof.
  apply (bearer_scheme_optional root_key jwt_verify db2 "tok-7" (Some (Base64 blob7))).
  intros (pre & post & H). apply (f_equal String.length) in H.
  rewrite !length_append in H. cbn in H. lia.
Defined.

Lemma store_then_retrieve_witness :
  get_keys root_key jwt_verify db2 (Some ("Bearer " ++ "tok-7")%string)
    = DataOk (toString_utf8 (list_byte_of_string "secret-1")) /\
  (utf8_text "secret-1" ->
   get_keys root_key jwt_verify db2 (Some ("Bearer " ++ "tok-7")%string)
     = DataOk "secret-1").
Proof.
  apply (store_then_retrieve root_key jwt_verify jwt_sign db1 "secret-1" "user-7" 2000
           (entropy x22) (entropy x33) (entropy x44) "tok-7" db2).
  - vm_compute. reflexivity.
  - reflexivity.
Defined.

Lemma one_envelope_per_user_witness :
  exists code msg,
    post_keys root_key jwt_sign db2 (Some "secret-3"%string) (Some "user-7"%string) 6000
      (entropy x22) (entropy x33) (entropy x44) = (Status code msg, db2).
Proof.
  apply (one_envelope_per_user root_key jwt_sign db2 (Some "secret-3"%string) "user-7"
           6000 (entropy x22) (entropy x33) (entropy x44)).
  vm_compute. left.
Defined.

Lemma post_keys_appends_only_witness :
  master_keys (snd stored9) = master_keys db2 /\
  (snd stored9 = db2 \/
   exists uid ek edk,
     Some "user-9"%string = Some uid /\
     (uid ∉ map kr_user_id (kt_rows (kms_keys db2))) /\
     kms_keys (snd stored9) = KmsTable (kt_extra_columns (kms_keys db2))
                                (kt_rows (kms_keys db2)
                                   ++ [KmsRow uid (Some ek) (Some edk) (Some 6000%Z) ∅])) /\
  (forall token, fst stored9 = Stored token -> snd stored9 <> db2) /\
  (NoDup (map kr_user_id (kt_rows (kms_keys db2))) ->
   NoDup (map kr_user_id (kt_rows (kms_keys (snd stored9))))).
Proof.
  apply (post_keys_appends_only root_key jwt_sign db2 (Some "secret-9"%string)
           (Some "user-9"%string) 6000 (entropy x22) (entropy x33) (entropy x44)
           (fst stored9) (snd stored9)).
  vm_compute. reflexivity.
Defined.


Lemma rotate_row_text_witness :
  exists blob,
    encryptDek dek7 (JsString "new-master-key") (entropy x66) = Ok blob /\
    decryptDek (Some blob) (JsString "new-master-key") = Ok dek7 /\
    rotate_row (JsString "old-master-key") (JsString "new-master-key") (entropy x66)
        text_table text_row =
      (KmsTable (kt_extra_columns text_table)
         (map (fun r =>
                 if sql_eq (extra_cell r "key_id") (key_id text_row)
                 then KmsRow (kr_user_id r) (kr_encrypted_key r) (Some blob)
                        (kr_created_at r) (kr_extra r)
                 else r) (kt_rows text_table)),
       Rotated (key_id text_row)) /\
    (key_id text_row = SqlNull ->
     rotate_row (JsString "old-master-key") (JsString "new-master-key") (entropy x66)
       text_table text_row = (text_table, Rotated SqlNull)).
Proof.
  destruct (rotate_row_text "old-master-key" "new-master-key" (entropy x66) text_table
              text_row dek7) as [Hrotated _].
  - vm_compute. reflexivity.
  - apply Hrotated.
    + vm_compute. reflexivity.
    + vm_compute. lia.
    + vm_compute. left.
Defined.

Lemma add_user_script_runs_once_witness :
  Forall is_stored (fst (serve root_key jwt_sign same_draws 0 payloads db1)) /\
  length (fst (serve root_key jwt_sign same_draws 0 payloads db1)) = 2000 /\
  map kr_user_id (kt_rows (kms_keys (snd (serve root_key jwt_sign same_draws 0 payloads db1))))
    = map kr_user_id (kt_rows (kms_keys db1)) ++ map req_user_id payloads /\
  serve root_key jwt_sign same_draws 0 (rev payloads)
      (snd (serve root_key jwt_sign same_draws 0 payloads db1))
    = (replicate 2000 (Status 500 "App B error or DB error"),
       snd (serve root_key jwt_sign same_draws 0 payloads db1)).
Proof.
  apply (add_user_script_runs_once root_key jwt_sign same_draws same_draws payloads
           (rev payloads) db1 (MasterKey "key-1" K1)).
  - vm_compute. reflexivity.
  - reflexivity.
  - intros [[u|]]; [|reflexivity]. unfold jwt_sign. cbn [jwt_id].
    destruct (strip_prefix "user-" u); reflexivity.
  - assert (H : kt_rows (kms_keys db1) = []) by (vm_compute; reflexivity).
    rewrite H. apply Forall_forall. intros q _. apply not_elem_of_nil.
  - reflexivity.
  - symmetry. apply Permutation_rev.
Defined.

Lemma iv_bit_flips_plaintext_bit_witness :
  (encrypt_payload dek7 p32 (entropy x33) = Ok blob32 ->
   decrypt_payload_bytes (flip_bit 5 blob32) (toString_hex dek7) = Ok (flip_bit 5 p32) /\
   decrypt_payload (flip_bit 5 blob32) (toString_hex dek7)
     = Ok (toString_utf8 (flip_bit 5 p32))) /\
  (wrap_dek dek7 p32 (entropy x33) = Ok blob32 ->
   unwrap_dek dek7 (flip_bit 5 blob32) = Ok (flip_bit 5 p32) /\ flip_bit 5 p32 <> p32).
Proof.
  apply (iv_bit_flips_plaintext_bit dek7 p32 (entropy x33) blob32 5).
  - lia.
  - vm_compute. lia.
Defined.

Lemma vault_follows_new_key_witness :
  (length (from_hex K2_hex) = 32 ->
   decrypt_dek root_key jwt_verify db3 (Some "Bearer tok-7"%string)
       (Some (Base64 blob7)) =
     match unwrap_dek (from_hex K2_hex) blob7 with
     | Ok dek => DekOk (toString_hex dek)
     | Throw _ => Status 500 "Decryption failed"
     end) /\
  (length (from_hex K2_hex) <> 32 ->
   decrypt_dek root_key jwt_verify db3 (Some "Bearer tok-7"%string)
       (Some (Base64 blob7))
     = Status 500 "Decryption failed" /\
   forall data dek entropy1 entropy2,
     truthy_buf data = true -> truthy dek = true ->
     Vault.encrypt root_key db3 data dek entropy1 entropy2
       = Status 500 "Encryption failed").
Proof.
  apply (vault_follows_new_key root_key jwt_verify "key-2" K2_hex 3000 (entropy x55)
           db2 db3 (Some "Bearer tok-7"%string) blob7
           (VerifyData true (JwtPayload (Some "user-7"%string)))).
  - vm_compute. reflexivity.
  - vm_compute. reflexivity.
  - reflexivity.
Defined.

Lemma one_unreadable_retired_key_witness :
  (exists e', getRetiredMasterKeys root_key unreadable_db = Throw e') /\
  (forall rand, exists e', rotateMasterKey root_key rand unreadable_db = Throw e') /\
  (forall rand,
     db_after unreadable_db (rotateMasterKey root_key rand unreadable_db)
       = unreadable_db).
Proof.
  apply (one_unreadable_retired_key root_key unreadable_db unreadable_row
           ERR_CRYPTO_INVALID_IV).
  - vm_compute. left.
  - reflexivity.
  - vm_compute. reflexivity.
Defined.

Lemma document_round_trip_witness :
  exists blob,
    encryptDocument Z stringify_number 2024%Z (toString_hex dek7) (entropy x33)
      = Ok (to_base64 blob) /\
    length blob = 32 + String.length "2024" /\
    take 16 blob = randomBytes 16 (entropy x33) /\
    decryptDocument Z parse_number (to_base64 blob) (toString_hex dek7)
      = parse_number (toString_utf8 (list_byte_of_string "2024")) /\
    (utf8_text "2024" ->
     decryptDocument Z parse_number (to_base64 blob) (toString_hex dek7)
       = parse_number "2024") /\
    (forall i, 128 <= i < 256 ->
       decryptDocument Z parse_number (to_base64 (flip_bit i blob)) (toString_hex dek7)
         = Throw (Error "Unsupported state or unable to authenticate data")) /\
    (forall undefined,
       stringify_number undefined = Ok None ->
       exists msg,
         encryptDocument Z stringify_number undefined (toString_hex dek7)
             (entropy x33)
           = Throw (TypeError msg)) /\
    (forall cyclic e,
       stringify_number cyclic = Throw e ->
       encryptDocument Z stringify_number cyclic (toString_hex dek7) (entropy x33)
         = Throw e).
Proof.
  apply (document_round_trip Z stringify_number parse_number 2024%Z "2024"
           (toString_hex dek7) (entropy x33)).
  - vm_compute. reflexivity.
  - vm_compute. reflexivity.
Defined.

End Instances.
